(** * A resource monitor that polls a statistics endpoint

    Shallow embedding of the two implementations of the monitor found in the
    repository, [src/main.go] (module [Main]) and [src/unnamed/part_000]
    (module [Part000]), together with the parts of the Go run time and of
    the packages [strings], [strconv], [math] and [time] that the two
    programs call.

    Conventions.
    - A Go [string] is a sequence of bytes: Rocq's [string] of 8-bit [ascii].
    - [uint64], [int64] and [int] (64 bits wide) are integers of [Z]; every
      operation that can leave the range writes its wrap-around out.
    - [float64] is IEEE 754 binary64 as specified by [SpecFloat]
      (precision 53, [emax] 1024), rounding to nearest, ties to even.
    - What a program prints is a list of lines, oldest first. *)

From Stdlib Require Import ZArith List String Ascii Bool Lia.
From Stdlib Require Import DecimalString DecimalPos.
From Stdlib Require Import Floats.SpecFloat.
Import ListNotations.

Local Open Scope string_scope.
Local Open Scope list_scope.
Local Open Scope Z_scope.

(** ** Machine integers *)

Definition two64 : Z := 2 ^ 64.
Definition two63 : Z := 2 ^ 63.
Definition maxUint64 : Z := two64 - 1.

(** The value of a [uint64] expression whose mathematical value is [z]. *)
Definition uint64 (z : Z) : Z := z mod two64.

(** The value of an [int64] (and of an [int]) expression whose mathematical
    value is [z]; also the conversion [int64(u)] of a [uint64]. *)
Definition int64 (z : Z) : Z := (z + two63) mod two64 - two63.

Definition is_uint64 (z : Z) : Prop := 0 <= z < two64.
Definition is_int64 (z : Z) : Prop := - two63 <= z < two63.

(** ** Bytes *)

Definition byte_of (c : ascii) : Z := Z.of_N (N_of_ascii c).

Definition isDigit (c : ascii) : bool :=
  (48 <=? byte_of c) && (byte_of c <=? 57).

Definition digitVal (c : ascii) : Z := byte_of c - 48.

Definition comma : ascii := ascii_of_nat 44.
Definition newline : ascii := ascii_of_nat 10.

(** ** Package [strings] *)

Module strings.

(** [strings.Contains(s, substr)]. *)
Fixpoint Contains (s substr : string) : bool :=
  prefix substr s
  || match s with
     | EmptyString => false
     | String _ s' => Contains s' substr
     end.

Fixpoint inCutset (c : ascii) (cutset : string) : bool :=
  match cutset with
  | EmptyString => false
  | String d cutset' => Ascii.eqb c d || inCutset c cutset'
  end.

Fixpoint dropWhile (p : ascii -> bool) (l : list ascii) : list ascii :=
  match l with
  | [] => []
  | c :: l' => if p c then dropWhile p l' else l
  end.

(** [strings.TrimRight(s, cutset)] for a cut set of bytes below 0x80 (the
    program's cut sets are ["0"] and ["."]): the longest suffix made of bytes
    of the cut set is removed. *)
Definition TrimRight (s cutset : string) : string :=
  string_of_list_ascii
    (rev (dropWhile (fun c => inCutset c cutset) (rev (list_ascii_of_string s)))).

(** The table [asciiSpace] of package [strings]: tab, line feed, vertical
    tab, form feed, carriage return and space. *)
Definition asciiSpace (c : ascii) : bool :=
  ((9 <=? byte_of c) && (byte_of c <=? 13)) || (byte_of c =? 32).

(** The UTF-8 encodings of the white space of [unicode.IsSpace] beyond
    ASCII: U+0085 and U+00A0 on two bytes; U+1680, U+2000 to U+200A, U+2028,
    U+2029, U+202F, U+205F and U+3000 on three. *)
Definition space2 (b1 b2 : ascii) : bool :=
  (byte_of b1 =? 194) && ((byte_of b2 =? 133) || (byte_of b2 =? 160)).

Definition space3 (b1 b2 b3 : ascii) : bool :=
  ((byte_of b1 =? 225) && (byte_of b2 =? 154) && (byte_of b3 =? 128))
  || ((byte_of b1 =? 226) && (byte_of b2 =? 128)
      && (((128 <=? byte_of b3) && (byte_of b3 <=? 138))
          || (byte_of b3 =? 168) || (byte_of b3 =? 169) || (byte_of b3 =? 175)))
  || ((byte_of b1 =? 226) && (byte_of b2 =? 129) && (byte_of b3 =? 159))
  || ((byte_of b1 =? 227) && (byte_of b2 =? 128) && (byte_of b3 =? 128)).

(** White space is dropped from the front of [l] one code point at a time.
    With [back] the list is a reversed string, so that the bytes of a code
    point arrive last byte first. *)
Fixpoint dropSpace (back : bool) (l : list ascii) : list ascii :=
  match l with
  | [] => []
  | a :: l1 =>
      if asciiSpace a then dropSpace back l1
      else
        match l1 with
        | [] => l
        | b :: l2 =>
            if (if back then space2 b a else space2 a b) then dropSpace back l2
            else
              match l2 with
              | [] => l
              | c :: l3 =>
                  if (if back then space3 c b a else space3 a b c)
                  then dropSpace back l3
                  else l
              end
        end
  end.

(** [strings.TrimSpace(s)]: leading white space is removed, then trailing
    white space. *)
Definition TrimSpace (s : string) : string :=
  string_of_list_ascii
    (rev (dropSpace true (rev (dropSpace false (list_ascii_of_string s))))).

(** [strings.Split(s, sep)] for a separator [sep] of one byte (the program
    splits on [","]): the pieces between the occurrences of [sep], so one
    piece more than there are occurrences. *)
Fixpoint Split (s : string) (sep : ascii) : list string :=
  match s with
  | EmptyString => [EmptyString]
  | String c s' =>
      if Ascii.eqb c sep then EmptyString :: Split s' sep
      else
        match Split s' sep with
        | [] => [String c EmptyString]
        | p :: ps => String c p :: ps
        end
  end.

End strings.

(** ** [float64] *)

Definition float64 : Type := spec_float.

Definition prec : Z := 53.
Definition emax : Z := 1024.

(** The conversion [float64(u)] of an integer. *)
Definition float64_of_Z (z : Z) : float64 := binary_normalize prec emax z 0 false.

(** The [float64] nearest to the fraction [n / d]: how Go turns the exact
    value of a constant such as [0.80] into a [float64], and how a decimal
    numeral is read. *)
Definition float64_of_ratio (neg : bool) (n d : positive) : float64 :=
  let '(q, e, l) := SFdiv_core_binary prec emax (Zpos n) 0 (Zpos d) 0 in
  binary_round_aux prec emax neg q e l.

Definition f64_div (x y : float64) : float64 := SFdiv prec emax x y.
Definition f64_mul (x y : float64) : float64 := SFmul prec emax x y.

(** [x > y] on [float64]: false as soon as one side is a NaN. *)
Definition f64_gt (x y : float64) : bool := SFltb y x.

Definition f64_is_zero (x : float64) : bool :=
  match x with
  | S754_zero _ => true
  | _ => false
  end.

(** The conversion [int(f)] and [int64(f)]: the fraction is discarded. Where
    the result does not fit, Go leaves the value to the implementation; the
    value here is the one of amd64. *)
Definition int_of_float64 (x : float64) : Z :=
  match x with
  | S754_zero _ => 0
  | S754_finite s m e =>
      let a := match e with
               | Zneg k => Zpos m / 2 ^ Zpos k
               | _ => Zpos m * 2 ^ e
               end in
      let v := if s then - a else a in
      if (- two63 <=? v) && (v <? two63) then v else - two63
  | _ => - two63
  end.

(** ** Package [math] *)

Module math.

(** [math.Round(x)]: the nearest integer, halves away from zero. *)
Definition Round (x : float64) : float64 :=
  match x with
  | S754_finite s m (Zneg k) =>
      let t := Zpos m / 2 ^ Zpos k in
      let r := Zpos m mod 2 ^ Zpos k in
      let n := if 2 ^ Zpos k <=? 2 * r then t + 1 else t in
      binary_normalize prec emax (if s then - n else n) 0 s
  | _ => x
  end.

End math.

(** ** Package [strconv] *)

Module strconv.

Inductive NumError : Type := ErrSyntax | ErrRange.

(** The digit loop of [ParseUint] in base 10 at 64 bits: [n] is the value
    read so far. The first byte that is not a digit is a syntax error; a
    value that leaves [uint64] is a range error, reported with the largest
    [uint64], as soon as it is met. *)
Fixpoint parseUintLoop (s : string) (n : Z) : Z * option NumError :=
  match s with
  | EmptyString => (n, None)
  | String c s' =>
      if isDigit c then
        if maxUint64 / 10 + 1 <=? n then (maxUint64, Some ErrRange)
        else
          let n10 := uint64 (n * 10) in
          let n1 := uint64 (n10 + digitVal c) in
          if (n1 <? n10) || (maxUint64 <? n1) then (maxUint64, Some ErrRange)
          else parseUintLoop s' n1
      else (0, Some ErrSyntax)
  end.

(** [strconv.ParseUint(s, 10, 64)]: value and error, as Go returns both. *)
Definition ParseUint (s : string) : Z * option NumError :=
  match s with
  | EmptyString => (0, Some ErrSyntax)
  | _ => parseUintLoop s 0
  end.

Definition isSign (c : ascii) : bool := (byte_of c =? 43) || (byte_of c =? 45).
Definition isMinus (c : ascii) : bool := byte_of c =? 45.

(** [strconv.ParseInt(s, 10, 0)] where [int] has 64 bits. *)
Definition ParseInt (s : string) : Z * option NumError :=
  match s with
  | EmptyString => (0, Some ErrSyntax)
  | String c s' =>
      let neg := isMinus c in
      let '(un, err) := ParseUint (if isSign c then s' else s) in
      match err with
      | Some ErrSyntax => (0, Some ErrSyntax)
      | _ =>
          if negb neg && (two63 <=? un) then (two63 - 1, Some ErrRange)
          else if neg && (two63 <? un) then (- two63, Some ErrRange)
          else (if neg then int64 (- int64 un) else int64 un, None)
      end
  end.

(** The digit loop of the fast path of [Atoi]. *)
Fixpoint atoiLoop (s : string) (n : Z) : Z * option NumError :=
  match s with
  | EmptyString => (n, None)
  | String ch s' =>
      if 9 <? (byte_of ch - 48) mod 256 then (0, Some ErrSyntax)
      else atoiLoop s' (n * 10 + (byte_of ch - 48) mod 256)
  end.

(** [strconv.Atoi(s)] where [int] has 64 bits: the fast path for 1 to 18
    bytes, [ParseInt] for the rest. *)
Definition Atoi (s : string) : Z * option NumError :=
  let sLen := Z.of_nat (String.length s) in
  if (0 <? sLen) && (sLen <? 19) then
    match s with
    | EmptyString => (0, Some ErrSyntax)
    | String c s' =>
        if isSign c then
          match s' with
          | EmptyString => (0, Some ErrSyntax)
          | _ =>
              let '(n, err) := atoiLoop s' 0 in
              match err with
              | Some e => (0, Some e)
              | None => (if isMinus c then - n else n, None)
              end
          end
        else atoiLoop s 0
    end
  else ParseInt s.

(** *** Decimal numerals

    [strconv.ParseFloat] is not reproduced: the two programs take it as a
    parameter (see [Main] and [Part000]) and what is proved of them holds
    whatever it returns. [ParseFloat_decimal] reads the numerals
    [[+-]digits[.digits][(e|E)[+-]digits]] with at least one digit in the
    mantissa, for which [strconv.ParseFloat(s, 64)] returns the nearest
    [float64], and an infinity with a range error where that is not finite.
    Go reads more spellings than these (hexadecimal numerals, digits
    separated by underscores, [Inf], [Infinity] and [NaN]);
    [ParseFloat_decimal] reports all of them as syntax errors, so it stands
    for [strconv.ParseFloat] on the decimal numerals only. *)

Fixpoint readDigits (s : string) (n : Z) (count : Z) : Z * Z * string :=
  match s with
  | String c s' =>
      if isDigit c then readDigits s' (n * 10 + digitVal c) (count + 1)
      else (n, count, s)
  | EmptyString => (n, count, s)
  end.

Definition isDot (c : ascii) : bool := byte_of c =? 46.
Definition isExpChar (c : ascii) : bool := (byte_of c =? 101) || (byte_of c =? 69).

(** The exponent part, if any: [None] where it is malformed. *)
Definition readExponent (s : string) : option Z :=
  match s with
  | EmptyString => Some 0
  | String c s1 =>
      if isExpChar c then
        let neg := match s1 with String d _ => isMinus d | _ => false end in
        let s2 := match s1 with
                  | String d s2 => if isSign d then s2 else s1
                  | _ => s1
                  end in
        match readDigits s2 0 0 with
        | (e, count, EmptyString) =>
            if 0 <? count then Some (if neg then - e else e) else None
        | _ => None
        end
      else None
  end.

(** The [float64] nearest to [m * 10 ^ e10]. *)
Definition float64_of_decimal (neg : bool) (m e10 : Z) : float64 :=
  match m with
  | Zpos p =>
      match e10 with
      | Zneg k => float64_of_ratio neg p (10 ^ k)
      | _ => binary_normalize prec emax (if neg then - (m * 10 ^ e10) else m * 10 ^ e10) 0 neg
      end
  | _ => S754_zero neg
  end.

Definition ParseFloat_decimal (s : string) : float64 * option NumError :=
  let neg := match s with String c _ => isMinus c | _ => false end in
  let s1 := match s with
            | String c s1 => if isSign c then s1 else s
            | _ => s
            end in
  let '(m1, c1, s2) := readDigits s1 0 0 in
  let '(m, c2, s3) := match s2 with
                      | String c s' => if isDot c then readDigits s' m1 0 else (m1, 0, s2)
                      | _ => (m1, 0, s2)
                      end in
  if 0 <? c1 + c2 then
    match readExponent s3 with
    | Some e =>
        match float64_of_decimal neg m (e - c2) with
        | S754_infinity sg => (S754_infinity sg, Some ErrRange)
        | f => (f, None)
        end
    | None => (S754_zero false, Some ErrSyntax)
    end
  else (S754_zero false, Some ErrSyntax).

End strconv.

(** ** Formatting *)

(** The verb [%d] of package [fmt]. *)
Definition fmt_d (z : Z) : string :=
  DecimalString.NilZero.string_of_int (Z.to_int z).

(** ** What a run does

    A run of the program is observed through the events it leaves, in
    order: the lines it prints, the pauses between two polls, and the
    divisions by zero it evaluates. On integers a division by zero is a
    run-time panic, which ends the process; on [float64] the computation
    goes on with an infinity or a NaN. *)

Inductive Message : Type :=
| LoadHigh (n : string)
| MemHigh (percent : Z)
| DiskLow (freeMB : Z)
| NetHigh (freeMbit : Z)
| Unable.

(** The format strings of the five [fmt.Printf] and [fmt.Println] calls,
    without the final line feed. *)
Definition render (m : Message) : string :=
  (match m with
   | LoadHigh n => "Load Average is too high: " ++ n
   | MemHigh percent => "Memory usage too high: " ++ fmt_d percent ++ "%"
   | DiskLow freeMB => "Free disk space is too low: " ++ fmt_d freeMB ++ " Mb left"
   | NetHigh freeMbit =>
       "Network bandwidth usage high: " ++ fmt_d freeMbit ++ " Mbit/s available"
   | Unable => "Unable to fetch server statistic."
   end)%string.

Inductive Event : Type :=
| Print (m : Message)
| Sleep (d : Z)
| DivideByZero.

(** A computation leaves events and returns a value, or none when it
    panicked. *)
Definition Run (A : Type) : Type := (list Event * option A)%type.

Definition ret {A : Type} (a : A) : Run A := ([], Some a).

Definition bind {A B : Type} (m : Run A) (k : A -> Run B) : Run B :=
  match m with
  | (evs, Some a) => let '(evs', b) := k a in (evs ++ evs', b)
  | (evs, None) => (evs, None)
  end.

Notation "x <- m ;; k" := (bind m (fun x => k))
  (at level 61, m at next level, right associativity).
Notation "m ;;; k" := (bind m (fun _ => k))
  (at level 61, right associativity).

Definition print (m : Message) : Run unit := ([Print m], Some tt).
Definition sleep (d : Z) : Run unit := ([Sleep d], Some tt).

(** [a / b] on [uint64]. *)
Definition udiv (a b : Z) : Run Z :=
  if b =? 0 then ([DivideByZero], None) else ret (a / b).

(** [x / y] on [float64]. *)
Definition fdiv (x y : float64) : Run float64 :=
  if f64_is_zero y then ([DivideByZero], Some (f64_div x y)) else ret (f64_div x y).

Definition events {A : Type} (m : Run A) : list Event := fst m.

(** The lines a list of events shows on standard output. *)
Fixpoint stdout (evs : list Event) : list string :=
  match evs with
  | [] => []
  | Print m :: evs' => render m :: stdout evs'
  | _ :: evs' => stdout evs'
  end.

Fixpoint messages (evs : list Event) : list Message :=
  match evs with
  | [] => []
  | Print m :: evs' => m :: messages evs'
  | _ :: evs' => messages evs'
  end.

(** ** One poll of the endpoint, seen from the client

    [client.Do] fails, or a response arrives with its status code and the
    bytes its body delivers; [readErr] tells that the body ended on an error
    instead of its regular end. The request itself, built from a constant
    URL, cannot fail. *)
Inductive Fetch : Type :=
| TransportError
| Response (StatusCode : Z) (Body : string) (readErr : bool).

Inductive PollError : Type :=
| ErrDo
| ErrBadStatus (code : Z)
| ErrReadBody
| ErrEmptyBody
| ErrFieldsCount (n : nat)
| ErrParseLoadAvg (e : strconv.NumError)
| ErrParseField (i : nat) (e : strconv.NumError).

(** The four metrics, in the order of the checks. *)
Inductive Metric : Type := Load | Memory | Disk | Network.

Definition metric_of (m : Message) : option Metric :=
  match m with
  | LoadHigh _ => Some Load
  | MemHigh _ => Some Memory
  | DiskLow _ => Some Disk
  | NetHigh _ => Some Network
  | Unable => None
  end.

(** ** What the two files share word for word *)

Definition oneMiB : Z := 1024 * 1024.
Definition Millisecond : Z := 1000000.

(** [loadAvgThreshold = 30.0] as a [float64]. *)
Definition loadAvgThreshold : float64 := float64_of_Z 30.

(** [func trimTrailingZeros(s string) string] *)
Definition trimTrailingZeros (s : string) : string :=
  if negb (strings.Contains s ".") then s
  else
    let s := strings.TrimRight s "0" in
    let s := strings.TrimRight s "." in
    s.

(** [func getenvInt(name string, def int) int], the environment being a
    function from names to values, empty for a variable that is not set. *)
Definition getenvInt (env : string -> string) (name : string) (def : Z) : Z :=
  let v := env name in
  if negb (v =? "")%string then
    let '(n, err) := strconv.Atoi v in
    match err with
    | None => if 0 <? n then n else def
    | Some _ => def
    end
  else def.

(** The first statement of [main]: the interval, a [time.Duration] in
    nanoseconds on 64 bits. *)
Definition interval (env : string -> string) : Z :=
  int64 (getenvInt env "POLL_INTERVAL_MS" 1000 * Millisecond).

(** ** [src/main.go] *)

Module Main.

Definition memUsageThreshold : Z := 80.
Definition diskUsageLimit : Z := 90.
Definition netUsageLimit : Z := 90.

(** The two local variables of [main] that live across the iterations. *)
Record State : Type := mkState {
  consecutiveErrors : Z;
  errorPrinted : bool
}.

Definition initial : State := mkState 0 false.

(** The four checks at the end of [pollOnce]. [field0] is [fields[0]] as
    split, [loadAvg] its value. *)
Definition checkLoad (field0 : string) (loadAvg : float64) : Run unit :=
  if f64_gt loadAvg loadAvgThreshold
  then print (LoadHigh (trimTrailingZeros field0))
  else ret tt.

Definition checkMemory (totalRAM usedRAM : Z) : Run unit :=
  if 0 <? totalRAM then
    q <- udiv (uint64 (usedRAM * 100)) totalRAM ;;
    let percent := int64 q in
    if memUsageThreshold <? percent then print (MemHigh percent) else ret tt
  else ret tt.

Definition checkDisk (totalDisk usedDisk : Z) : Run unit :=
  if 0 <? totalDisk then
    q <- udiv (uint64 (usedDisk * 100)) totalDisk ;;
    let percent := int64 q in
    if diskUsageLimit <? percent then
      let freeMB := uint64 (totalDisk - usedDisk) / oneMiB in
      print (DiskLow freeMB)
    else ret tt
  else ret tt.

Definition checkNetwork (netCap netUsed : Z) : Run unit :=
  if 0 <? netCap then
    q <- udiv (uint64 (netUsed * 100)) netCap ;;
    let percent := int64 q in
    if netUsageLimit <? percent then
      let freeBytes := uint64 (netCap - netUsed) in
      let freeMbit := int64 (freeBytes / 1000000) in
      print (NetHigh freeMbit)
    else ret tt
  else ret tt.

Definition checks (field0 : string) (loadAvg : float64)
    (totalRAM usedRAM totalDisk usedDisk netCap netUsed : Z) : Run unit :=
  checkLoad field0 loadAvg ;;;
  checkMemory totalRAM usedRAM ;;;
  checkDisk totalDisk usedDisk ;;;
  checkNetwork netCap netUsed.

Section Program.

(** [strconv.ParseFloat(s, 64)]. *)
Variable ParseFloat : string -> float64 * option strconv.NumError.

(** The environment of the process. *)
Variable env : string -> string.

(** [func pollOnce(client *http.Client) error], the answer of the server
    being [r]: the value returned is the error, [None] for [nil]. *)
Definition pollOnce (r : Fetch) : Run (option PollError) :=
  match r with
  | TransportError => ret (Some ErrDo)
  | Response StatusCode Body readErr =>
      if negb (StatusCode =? 200) then ret (Some (ErrBadStatus StatusCode))
      else if readErr then ret (Some ErrReadBody)
      else
        let line := strings.TrimSpace Body in
        if (line =? "")%string then ret (Some ErrEmptyBody)
        else
          let fields := strings.Split line comma in
          if negb (Nat.eqb (List.length fields) 7)
          then ret (Some (ErrFieldsCount (List.length fields)))
          else
            let field i := nth i fields "" in
            let '(loadAvg, err) := ParseFloat (strings.TrimSpace (field 0%nat)) in
            match err with
            | Some e => ret (Some (ErrParseLoadAvg e))
            | None =>
                let totalRAM := fst (strconv.ParseUint (strings.TrimSpace (field 1%nat))) in
                let usedRAM := fst (strconv.ParseUint (strings.TrimSpace (field 2%nat))) in
                let totalDisk := fst (strconv.ParseUint (strings.TrimSpace (field 3%nat))) in
                let usedDisk := fst (strconv.ParseUint (strings.TrimSpace (field 4%nat))) in
                let netCap := fst (strconv.ParseUint (strings.TrimSpace (field 5%nat))) in
                let netUsed := fst (strconv.ParseUint (strings.TrimSpace (field 6%nat))) in
                checks (field 0%nat) loadAvg
                  totalRAM usedRAM totalDisk usedDisk netCap netUsed ;;;
                ret None
            end
  end.

(** The body of the loop of [main] after the call of [pollOnce], up to the
    pause. *)
Definition report (st : State) (err : option PollError) : Run State :=
  match err with
  | Some _ =>
      let n := int64 (consecutiveErrors st + 1) in
      if (3 <=? n) && negb (errorPrinted st)
      then print Unable ;;; ret (mkState n true)
      else ret (mkState n (errorPrinted st))
  | None => ret (mkState 0 false)
  end.

Definition iteration (st : State) (r : Fetch) : Run State :=
  err <- pollOnce r ;;
  st' <- report st err ;;
  sleep (interval env) ;;;
  ret st'.

(** The loop of [main] over the answers the server gives to the successive
    polls. The loop has no exit: [loop st rs] is the run up to the moment
    the answers [rs] are used up. *)
Fixpoint loop (st : State) (rs : list Fetch) : Run State :=
  match rs with
  | [] => ret st
  | r :: rs' => st' <- iteration st r ;; loop st' rs'
  end.

(** [func main()]. *)
Definition main (rs : list Fetch) : Run State := loop initial rs.

End Program.

End Main.

(** ** [src/unnamed/part_000] *)

Module Part000.

(** [memUsageThreshold = 0.80], [diskUsageThreshold = 0.90] and
    [netUsageThreshold = 0.90] as [float64]. *)
Definition memUsageThreshold : float64 := float64_of_ratio false 4 5.
Definition diskUsageThreshold : float64 := float64_of_ratio false 9 10.
Definition netUsageThreshold : float64 := float64_of_ratio false 9 10.

Definition oneMibit : Z := 1024 * 1024.

Record State : Type := mkState {
  consecutiveErrors : Z;
  errorMessagePrinted : bool
}.

Definition initial : State := mkState 0 false.

(** [func parseUint(s string) (uint64, error)] *)
Definition parseUint (s : string) : Z * option strconv.NumError :=
  let s := strings.TrimSpace s in
  strconv.ParseUint s.

(** [func splitCSV(s string) []string] *)
Definition splitCSV (s : string) : list string :=
  let parts := strings.Split s comma in
  map strings.TrimSpace parts.

(** [reader.ReadString('\n')] on a fresh reader of the body: the bytes up to
    the first line feed, which is kept, or all of them if there is none. *)
Fixpoint ReadString (body : string) : string :=
  match body with
  | EmptyString => EmptyString
  | String c body' =>
      if Ascii.eqb c newline then String c EmptyString
      else String c (ReadString body')
  end.

Definition checkLoad (loadAvgStr : string) (loadAvg : float64) : Run unit :=
  if f64_gt loadAvg loadAvgThreshold
  then print (LoadHigh (trimTrailingZeros loadAvgStr))
  else ret tt.

Definition checkMemory (totalRAM usedRAM : Z) : Run unit :=
  if 0 <? totalRAM then
    memUsage <- fdiv (float64_of_Z usedRAM) (float64_of_Z totalRAM) ;;
    if f64_gt memUsage memUsageThreshold then
      let percent := int_of_float64 (math.Round (f64_mul memUsage (float64_of_Z 100))) in
      print (MemHigh percent)
    else ret tt
  else ret tt.

Definition checkDisk (totalDisk usedDisk : Z) : Run unit :=
  if 0 <? totalDisk then
    diskUsage <- fdiv (float64_of_Z usedDisk) (float64_of_Z totalDisk) ;;
    if f64_gt diskUsage diskUsageThreshold then
      let freeBytes := int64 (uint64 (totalDisk - usedDisk)) in
      let freeMB := Z.quot freeBytes oneMiB in
      print (DiskLow freeMB)
    else ret tt
  else ret tt.

Definition checkNetwork (netCap netUsed : Z) : Run unit :=
  if 0 <? netCap then
    netUsage <- fdiv (float64_of_Z netUsed) (float64_of_Z netCap) ;;
    if f64_gt netUsage netUsageThreshold then
      let freeBytesPerSec := int64 (uint64 (netCap - netUsed)) in
      let freeMibitPerSec := Z.quot (int64 (freeBytesPerSec * 8)) oneMibit in
      print (NetHigh freeMibitPerSec)
    else ret tt
  else ret tt.

Definition checks (loadAvgStr : string) (loadAvg : float64)
    (totalRAM usedRAM totalDisk usedDisk netCap netUsed : Z) : Run unit :=
  checkLoad loadAvgStr loadAvg ;;;
  checkMemory totalRAM usedRAM ;;;
  checkDisk totalDisk usedDisk ;;;
  checkNetwork netCap netUsed.

(** The parsing steps of [pollOnce]: [if err != nil { return ... }]. *)
Definition try {A B : Type} (r : B * option strconv.NumError)
    (fail : strconv.NumError -> A) (k : B -> A) : A :=
  match r with
  | (_, Some e) => fail e
  | (b, None) => k b
  end.

Section Program.

Variable ParseFloat : string -> float64 * option strconv.NumError.
Variable env : string -> string.

(** [func pollOnce(client *http.Client) error]. The error of [ReadString]
    is ignored by the program. *)
Definition pollOnce (r : Fetch) : Run (option PollError) :=
  match r with
  | TransportError => ret (Some ErrDo)
  | Response StatusCode Body _ =>
      if negb (StatusCode =? 200) then ret (Some (ErrBadStatus StatusCode))
      else
        let line := ReadString Body in
        let line := strings.TrimSpace line in
        if (line =? "")%string then ret (Some ErrEmptyBody)
        else
          let fields := splitCSV line in
          if negb (Nat.eqb (List.length fields) 7)
          then ret (Some (ErrFieldsCount (List.length fields)))
          else
            let field i := nth i fields "" in
            let loadAvgStr := field 0%nat in
            let fail i e : Run (option PollError) := ret (Some (ErrParseField i e)) in
            try (ParseFloat loadAvgStr) (fun e => ret (Some (ErrParseLoadAvg e)))
              (fun loadAvg =>
            try (parseUint (field 1%nat)) (fail 1%nat) (fun totalRAM =>
            try (parseUint (field 2%nat)) (fail 2%nat) (fun usedRAM =>
            try (parseUint (field 3%nat)) (fail 3%nat) (fun totalDisk =>
            try (parseUint (field 4%nat)) (fail 4%nat) (fun usedDisk =>
            try (parseUint (field 5%nat)) (fail 5%nat) (fun netCap =>
            try (parseUint (field 6%nat)) (fail 6%nat) (fun netUsed =>
              checks loadAvgStr loadAvg
                totalRAM usedRAM totalDisk usedDisk netCap netUsed ;;;
              ret None)))))))
  end.

Definition report (st : State) (err : option PollError) : Run State :=
  match err with
  | Some _ =>
      let n := int64 (consecutiveErrors st + 1) in
      if (3 <=? n) && negb (errorMessagePrinted st)
      then print Unable ;;; ret (mkState n true)
      else ret (mkState n (errorMessagePrinted st))
  | None => ret (mkState 0 (errorMessagePrinted st))
  end.

Definition iteration (st : State) (r : Fetch) : Run State :=
  err <- pollOnce r ;;
  st' <- report st err ;;
  sleep (interval env) ;;;
  ret st'.

Fixpoint loop (st : State) (rs : list Fetch) : Run State :=
  match rs with
  | [] => ret st
  | r :: rs' => st' <- iteration st r ;; loop st' rs'
  end.

Definition main (rs : list Fetch) : Run State := loop initial rs.

End Program.

End Part000.

(** ** Vocabulary of the statements *)

(** The metrics the printed warnings are about, in the order of printing. *)
Definition metrics (evs : list Event) : list Metric :=
  flat_map (fun m => match metric_of m with
                     | Some x => [x]
                     | None => []
                     end) (messages evs).

(** How many times the notice of failure is printed. *)
Definition isUnable (m : Message) : bool :=
  match m with
  | Unable => true
  | _ => false
  end.

Definition notices (evs : list Event) : nat :=
  List.length (filter isUnable (messages evs)).

(** The pauses of a run, in order. *)
Fixpoint pauses (evs : list Event) : list Z :=
  match evs with
  | [] => []
  | Sleep d :: evs' => d :: pauses evs'
  | _ :: evs' => pauses evs'
  end.

(** The order of the checks. *)
Definition checkOrder : list Metric := [Load; Memory; Disk; Network].

(** The rule of [main.go] for a metric with a limit in percent: the total
    is not zero and the quotient of [used * 100], reduced to 64 bits, by the
    total is above the limit and, for the sake of its reading as an [int],
    below [2 ^ 63]. *)
Definition crossesPercent (limit total used : Z) : bool :=
  (0 <? total)
  && (limit <? (used * 100) mod two64 / total)
  && ((used * 100) mod two64 / total <? two63).

(** The rule of [part_000] for a metric with a threshold: the total is not
    zero and the quotient of the two values, each rounded to [float64],
    rounded itself, is above the threshold. *)
Definition crossesRatio (threshold : float64) (total used : Z) : bool :=
  (0 <? total)
  && f64_gt (f64_div (float64_of_Z used) (float64_of_Z total)) threshold.

(** A poll fails when [pollOnce] returns an error, succeeds when it returns
    [nil]. *)
Definition failed (m : Run (option PollError)) : Prop :=
  exists e, snd m = Some (Some e).

Definition succeeded (m : Run (option PollError)) : Prop :=
  snd m = Some None.

(** A response with status 200 whose body is read in full. *)
Definition OK (body : string) : Fetch := Response 200 body false.

(** An environment in which [POLL_INTERVAL_MS] has the value [v]. *)
Definition setenv (v : string) : string -> string :=
  fun name => if (name =? "POLL_INTERVAL_MS")%string then v else "".

(** Which metrics [main.go] warns about. *)
Definition Main_warns (loadAvg : float64)
    (totalRAM usedRAM totalDisk usedDisk netCap netUsed : Z) (m : Metric) : bool :=
  match m with
  | Load => f64_gt loadAvg loadAvgThreshold
  | Memory => crossesPercent 80 totalRAM usedRAM
  | Disk => crossesPercent 90 totalDisk usedDisk
  | Network => crossesPercent 90 netCap netUsed
  end.

(** Which metrics [part_000] warns about. *)
Definition Part000_warns (loadAvg : float64)
    (totalRAM usedRAM totalDisk usedDisk netCap netUsed : Z) (m : Metric) : bool :=
  match m with
  | Load => f64_gt loadAvg loadAvgThreshold
  | Memory => crossesRatio Part000.memUsageThreshold totalRAM usedRAM
  | Disk => crossesRatio Part000.diskUsageThreshold totalDisk usedDisk
  | Network => crossesRatio Part000.netUsageThreshold netCap netUsed
  end.

(** The state [report] leaves in [main.go], and whether it prints the
    notice. *)
Definition Main_next (st : Main.State) (err : option PollError) : Main.State :=
  match err with
  | Some _ =>
      Main.mkState (int64 (Main.consecutiveErrors st + 1))
        ((3 <=? int64 (Main.consecutiveErrors st + 1)) || Main.errorPrinted st)
  | None => Main.mkState 0 false
  end.

Definition Main_alerts (st : Main.State) (err : option PollError) : bool :=
  match err with
  | Some _ =>
      (3 <=? int64 (Main.consecutiveErrors st + 1)) && negb (Main.errorPrinted st)
  | None => false
  end.

(** The same for [part_000]. *)
Definition Part000_next (st : Part000.State) (err : option PollError) : Part000.State :=
  match err with
  | Some _ =>
      Part000.mkState (int64 (Part000.consecutiveErrors st + 1))
        ((3 <=? int64 (Part000.consecutiveErrors st + 1))
         || Part000.errorMessagePrinted st)
  | None => Part000.mkState 0 (Part000.errorMessagePrinted st)
  end.

Definition Part000_alerts (st : Part000.State) (err : option PollError) : bool :=
  match err with
  | Some _ =>
      (3 <=? int64 (Part000.consecutiveErrors st + 1))
      && negb (Part000.errorMessagePrinted st)
  | None => false
  end.

(** ** Vocabulary of the rounding lemmas *)

(** The location after one shift: the digit shifted out tells the half, the
    previous location whether something lies beyond it. *)
Definition shifted_location (q : Z) (l : location) : location :=
  match Z.odd q, l with
  | false, loc_Exact => loc_Exact
  | false, loc_Inexact _ => loc_Inexact Lt
  | true, loc_Exact => loc_Inexact Eq
  | true, loc_Inexact _ => loc_Inexact Gt
  end.

(** The location of the quotient [q] of [n] by [b], with remainder [r]. *)
Definition quotient_location (b r : Z) : location :=
  if r =? 0 then loc_Exact else loc_Inexact (Z.compare (2 * r) b).

(** The exact comparison behind [x / y > c] for a threshold [c] of mantissa
    [mc] and exponent [-53], that is, between 1/2 and 1: the quotient of
    [a * 2 ^ k] by [b] against [mc + 1/2] in units of [2 ^ -53]. *)
Definition above_threshold (mc a b k : Z) : bool :=
  let lhs := a * 2 ^ (54 + Z.max k 0) in
  let rhs := (2 * mc + 1) * b * 2 ^ Z.max (- k) 0 in
  if Z.even mc then rhs <? lhs else rhs <=? lhs.

(** ** Vocabulary of the decimal numerals *)

(** The value of a sequence of decimal digits read from the left, [acc]
    being the value of the digits already read. *)
Fixpoint uintValue (d : Decimal.uint) (acc : Z) : Z :=
  match d with
  | Decimal.Nil => acc
  | Decimal.D0 l => uintValue l (acc * 10)
  | Decimal.D1 l => uintValue l (acc * 10 + 1)
  | Decimal.D2 l => uintValue l (acc * 10 + 2)
  | Decimal.D3 l => uintValue l (acc * 10 + 3)
  | Decimal.D4 l => uintValue l (acc * 10 + 4)
  | Decimal.D5 l => uintValue l (acc * 10 + 5)
  | Decimal.D6 l => uintValue l (acc * 10 + 6)
  | Decimal.D7 l => uintValue l (acc * 10 + 7)
  | Decimal.D8 l => uintValue l (acc * 10 + 8)
  | Decimal.D9 l => uintValue l (acc * 10 + 9)
  end.


(** ** Vocabulary of the runs *)

(** Whether the poll of the answer [r] fails. *)
Definition Main_fails (ParseFloat : string -> float64 * option strconv.NumError)
    (r : Fetch) : bool :=
  match snd (Main.pollOnce ParseFloat r) with
  | Some (Some _) => true
  | _ => false
  end.

Definition Part000_fails (ParseFloat : string -> float64 * option strconv.NumError)
    (r : Fetch) : bool :=
  match snd (Part000.pollOnce ParseFloat r) with
  | Some (Some _) => true
  | _ => false
  end.

Fixpoint takeWhile {A : Type} (p : A -> bool) (l : list A) : list A :=
  match l with
  | [] => []
  | a :: l' => if p a then a :: takeWhile p l' else []
  end.

(** The number of polls that failed since the last one that succeeded, or
    since the start, at the end of the polls [rs]. *)
Definition failuresAtEnd (fails : Fetch -> bool) (rs : list Fetch) : nat :=
  List.length (takeWhile fails (rev rs)).

(** The prefixes of the run [rs] that are not empty, by their lengths. *)
Definition rounds (rs : list Fetch) : list nat := seq 1 (List.length rs).

(** ** Vocabulary of the numerals *)

Fixpoint allDigits (s : string) : bool :=
  match s with
  | EmptyString => true
  | String c s' => isDigit c && allDigits s'
  end.

(** The number that the decimal digits [s] denote when they follow digits
    that denote [n]. *)
Fixpoint decimalValue (s : string) (n : Z) : Z :=
  match s with
  | EmptyString => n
  | String c s' => decimalValue s' (n * 10 + digitVal c)
  end.

(** The digits a string starts with. *)
Fixpoint digitPrefix (s : string) : string :=
  match s with
  | EmptyString => EmptyString
  | String c s' => if isDigit c then String c (digitPrefix s') else EmptyString
  end.

(** A numeral without its plus sign, if it has one. *)
Definition unsigned (v : string) : string :=
  match v with
  | String c d => if byte_of c =? 43 then d else v
  | EmptyString => v
  end.

(** * Properties *)

(** ** Runs *)

Lemma bind_ret_l {A B : Type} (a : A) (k : A -> Run B) : bind (ret a) k = k a.
Proof. unfold bind, ret. destruct (k a). reflexivity. Qed.

Lemma bind_events {A B : Type} (m : Run A) (k : A -> Run B) :
  events (bind m k) =
  events m ++ match snd m with
              | Some a => events (k a)
              | None => []
              end.
Proof.
  destruct m as [evs [a|]]; simpl.
  - destruct (k a); reflexivity.
  - now rewrite app_nil_r.
Qed.

Lemma messages_app (e1 e2 : list Event) :
  messages (e1 ++ e2) = messages e1 ++ messages e2.
Proof.
  induction e1 as [|[m| |] e1 IH]; simpl; try rewrite IH; reflexivity.
Qed.

(** ** [trimTrailingZeros] *)

Lemma Contains_dot_false (s : string) :
  ~ In "."%char (list_ascii_of_string s) -> strings.Contains s "." = false.
Proof.
  induction s as [|c s IH]; intros H.
  - reflexivity.
  - change (strings.Contains (String c s) ".")
      with (prefix "." (String c s) || strings.Contains s ".").
    cbn [prefix].
    destruct (Ascii.ascii_dec "."%char c) as [e|ne].
    + exfalso. apply H. left. now symmetry.
    + apply IH. intros Hin. apply H. now right.
Qed.

(** C7. [trimTrailingZeros] turns "30.00" into "30" and "30.50" into "30.5",
    and returns unchanged every string that holds no decimal point, "45"
    among them. *)
Theorem trimTrailingZeros_examples_and_no_point :
  trimTrailingZeros "30.00" = "30"
  /\ trimTrailingZeros "30.50" = "30.5"
  /\ trimTrailingZeros "45" = "45"
  /\ forall s : string,
       ~ In "."%char (list_ascii_of_string s) -> trimTrailingZeros s = s.
Proof.
  repeat split; try reflexivity.
  intros s H. unfold trimTrailingZeros.
  now rewrite (Contains_dot_false s H).
Qed.

Lemma trimTrailingZeros_no_point_witness :
  ~ In "."%char (list_ascii_of_string "1e2") /\ trimTrailingZeros "1e2" = "1e2".
Proof.
  assert (H : ~ In "."%char (list_ascii_of_string "1e2")).
  { simpl. intros [H|[H|[H|[]]]]; discriminate H. }
  split; [exact H|].
  exact (proj2 (proj2 (proj2 trimTrailingZeros_examples_and_no_point)) "1e2" H).
Defined.

(** ** Machine integers *)

Lemma two64_eq : two64 = 18446744073709551616.
Proof. reflexivity. Qed.

Lemma two63_eq : two63 = 9223372036854775808.
Proof. reflexivity. Qed.

Lemma uint64_range (z : Z) : is_uint64 (uint64 z).
Proof. unfold is_uint64, uint64. rewrite two64_eq. apply Z.mod_pos_bound. lia. Qed.

Lemma uint64_id (z : Z) : is_uint64 z -> uint64 z = z.
Proof. unfold is_uint64, uint64. intros H. now apply Z.mod_small. Qed.

Lemma int64_id (z : Z) : is_int64 z -> int64 z = z.
Proof.
  unfold is_int64, int64. rewrite two64_eq, two63_eq. intros H.
  rewrite Z.mod_small; lia.
Qed.

Lemma int64_of_uint64 (q : Z) :
  is_uint64 q -> int64 q = if q <? two63 then q else q - two64.
Proof.
  unfold is_uint64, int64. rewrite two64_eq, two63_eq. intros H.
  destruct (Z.ltb_spec q 9223372036854775808).
  - rewrite Z.mod_small; lia.
  - replace (q + 9223372036854775808)
      with (q - 9223372036854775808 + 1 * 18446744073709551616) by lia.
    rewrite Z.mod_add by lia. rewrite Z.mod_small; lia.
Qed.

Lemma quotient_range (x total : Z) :
  0 < total -> is_uint64 (x mod two64 / total).
Proof.
  intros Ht. unfold is_uint64.
  assert (Hx : 0 <= x mod two64 < two64)
    by (rewrite two64_eq; apply Z.mod_pos_bound; lia).
  split.
  - apply Z.div_pos; lia.
  - apply Z.le_lt_trans with (x mod two64); [|lia].
    apply Z.div_le_upper_bound; nia.
Qed.

(** ** The checks of [main.go] *)

Lemma Main_percent_rule (limit total used : Z) :
  0 < total -> 0 <= limit ->
  (limit <? int64 (uint64 (used * 100) / total)) =
  (limit <? (used * 100) mod two64 / total)
  && ((used * 100) mod two64 / total <? two63).
Proof.
  intros Ht Hl. unfold uint64.
  pose proof (quotient_range (used * 100) total Ht) as Hq.
  rewrite (int64_of_uint64 _ Hq).
  set (q := (used * 100) mod two64 / total) in *.
  unfold is_uint64 in Hq. rewrite two64_eq in *. rewrite two63_eq in *.
  destruct (Z.ltb_spec q 9223372036854775808).
  - now rewrite andb_true_r.
  - rewrite andb_false_r. apply Z.ltb_ge. lia.
Qed.

Lemma Main_checkMemory_run (totalRAM usedRAM : Z) :
  Main.checkMemory totalRAM usedRAM =
  if crossesPercent 80 totalRAM usedRAM
  then print (MemHigh (int64 (uint64 (usedRAM * 100) / totalRAM)))
  else ret tt.
Proof.
  unfold Main.checkMemory, crossesPercent, udiv, Main.memUsageThreshold.
  destruct (Z.ltb_spec 0 totalRAM) as [Ht|Ht]; [|reflexivity].
  destruct (Z.eqb_spec totalRAM 0); [lia|].
  rewrite bind_ret_l, Main_percent_rule by lia. reflexivity.
Qed.

Lemma Main_checkDisk_run (totalDisk usedDisk : Z) :
  Main.checkDisk totalDisk usedDisk =
  if crossesPercent 90 totalDisk usedDisk
  then print (DiskLow (uint64 (totalDisk - usedDisk) / oneMiB))
  else ret tt.
Proof.
  unfold Main.checkDisk, crossesPercent, udiv, Main.diskUsageLimit.
  destruct (Z.ltb_spec 0 totalDisk) as [Ht|Ht]; [|reflexivity].
  destruct (Z.eqb_spec totalDisk 0); [lia|].
  rewrite bind_ret_l, Main_percent_rule by lia. reflexivity.
Qed.

Lemma Main_checkNetwork_run (netCap netUsed : Z) :
  Main.checkNetwork netCap netUsed =
  if crossesPercent 90 netCap netUsed
  then print (NetHigh (int64 (uint64 (netCap - netUsed) / 1000000)))
  else ret tt.
Proof.
  unfold Main.checkNetwork, crossesPercent, udiv, Main.netUsageLimit.
  destruct (Z.ltb_spec 0 netCap) as [Ht|Ht]; [|reflexivity].
  destruct (Z.eqb_spec netCap 0); [lia|].
  rewrite bind_ret_l, Main_percent_rule by lia. reflexivity.
Qed.

Lemma Main_checks_run (field0 : string) (loadAvg : float64)
    (totalRAM usedRAM totalDisk usedDisk netCap netUsed : Z) :
  snd (Main.checks field0 loadAvg totalRAM usedRAM totalDisk usedDisk netCap netUsed)
    = Some tt
  /\ ~ In DivideByZero
       (events (Main.checks field0 loadAvg
                  totalRAM usedRAM totalDisk usedDisk netCap netUsed))
  /\ metrics (events (Main.checks field0 loadAvg
                        totalRAM usedRAM totalDisk usedDisk netCap netUsed))
     = filter (Main_warns loadAvg totalRAM usedRAM totalDisk usedDisk netCap netUsed)
         checkOrder.
Proof.
  unfold Main.checks, Main.checkLoad.
  rewrite Main_checkMemory_run, Main_checkDisk_run, Main_checkNetwork_run.
  unfold checkOrder, filter, Main_warns.
  destruct (f64_gt loadAvg loadAvgThreshold);
    destruct (crossesPercent 80 totalRAM usedRAM);
    destruct (crossesPercent 90 totalDisk usedDisk);
    destruct (crossesPercent 90 netCap netUsed);
    cbn; (split; [reflexivity|split; [|reflexivity]]);
    intuition discriminate.
Qed.

(** ** The checks of [part_000] *)

Lemma bind_fdiv {B : Type} (x y : float64) (k : float64 -> Run B) :
  snd (bind (fdiv x y) k) = snd (k (f64_div x y))
  /\ messages (events (bind (fdiv x y) k)) = messages (events (k (f64_div x y))).
Proof.
  unfold fdiv. destruct (f64_is_zero y); unfold bind, ret;
    destruct (k (f64_div x y)) as [evs b]; split; reflexivity.
Qed.

Lemma Part000_checkMemory_run (totalRAM usedRAM : Z) :
  snd (Part000.checkMemory totalRAM usedRAM) = Some tt
  /\ messages (events (Part000.checkMemory totalRAM usedRAM)) =
     if crossesRatio Part000.memUsageThreshold totalRAM usedRAM
     then [MemHigh (int_of_float64 (math.Round (f64_mul
             (f64_div (float64_of_Z usedRAM) (float64_of_Z totalRAM))
             (float64_of_Z 100))))]
     else [].
Proof.
  unfold Part000.checkMemory, crossesRatio.
  destruct (0 <? totalRAM); [|split; reflexivity].
  destruct (bind_fdiv (float64_of_Z usedRAM) (float64_of_Z totalRAM)
    (fun memUsage =>
       if f64_gt memUsage Part000.memUsageThreshold
       then print (MemHigh (int_of_float64
              (math.Round (f64_mul memUsage (float64_of_Z 100)))))
       else ret tt)) as [-> ->].
  rewrite andb_true_l.
  destruct (f64_gt _ Part000.memUsageThreshold); split; reflexivity.
Qed.

Lemma Part000_checkDisk_run (totalDisk usedDisk : Z) :
  snd (Part000.checkDisk totalDisk usedDisk) = Some tt
  /\ messages (events (Part000.checkDisk totalDisk usedDisk)) =
     if crossesRatio Part000.diskUsageThreshold totalDisk usedDisk
     then [DiskLow (Z.quot (int64 (uint64 (totalDisk - usedDisk))) oneMiB)]
     else [].
Proof.
  unfold Part000.checkDisk, crossesRatio.
  destruct (0 <? totalDisk); [|split; reflexivity].
  destruct (bind_fdiv (float64_of_Z usedDisk) (float64_of_Z totalDisk)
    (fun diskUsage =>
       if f64_gt diskUsage Part000.diskUsageThreshold
       then print (DiskLow (Z.quot (int64 (uint64 (totalDisk - usedDisk))) oneMiB))
       else ret tt)) as [-> ->].
  rewrite andb_true_l.
  destruct (f64_gt _ Part000.diskUsageThreshold); split; reflexivity.
Qed.

Lemma Part000_checkNetwork_run (netCap netUsed : Z) :
  snd (Part000.checkNetwork netCap netUsed) = Some tt
  /\ messages (events (Part000.checkNetwork netCap netUsed)) =
     if crossesRatio Part000.netUsageThreshold netCap netUsed
     then [NetHigh (Z.quot (int64 (int64 (uint64 (netCap - netUsed)) * 8))
                      Part000.oneMibit)]
     else [].
Proof.
  unfold Part000.checkNetwork, crossesRatio.
  destruct (0 <? netCap); [|split; reflexivity].
  destruct (bind_fdiv (float64_of_Z netUsed) (float64_of_Z netCap)
    (fun netUsage =>
       if f64_gt netUsage Part000.netUsageThreshold
       then print (NetHigh (Z.quot (int64 (int64 (uint64 (netCap - netUsed)) * 8))
                              Part000.oneMibit))
       else ret tt)) as [-> ->].
  rewrite andb_true_l.
  destruct (f64_gt _ Part000.netUsageThreshold); split; reflexivity.
Qed.

Lemma bind_returns {A B : Type} (m : Run A) (k : A -> Run B) (a : A) :
  snd m = Some a ->
  snd (bind m k) = snd (k a)
  /\ messages (events (bind m k)) = messages (events m) ++ messages (events (k a)).
Proof.
  destruct m as [evs o]. simpl. intros ->. unfold bind.
  destruct (k a) as [evs' b]. simpl. now rewrite messages_app.
Qed.

Lemma Part000_checks_run (loadAvgStr : string) (loadAvg : float64)
    (totalRAM usedRAM totalDisk usedDisk netCap netUsed : Z) :
  snd (Part000.checks loadAvgStr loadAvg
         totalRAM usedRAM totalDisk usedDisk netCap netUsed) = Some tt
  /\ metrics (events (Part000.checks loadAvgStr loadAvg
                        totalRAM usedRAM totalDisk usedDisk netCap netUsed))
     = filter
         (Part000_warns loadAvg totalRAM usedRAM totalDisk usedDisk netCap netUsed)
         checkOrder.
Proof.
  unfold Part000.checks, metrics.
  destruct (Part000_checkMemory_run totalRAM usedRAM) as [Hm1 Hm2].
  destruct (Part000_checkDisk_run totalDisk usedDisk) as [Hd1 Hd2].
  destruct (Part000_checkNetwork_run netCap netUsed) as [Hn1 Hn2].
  assert (Hl : snd (Part000.checkLoad loadAvgStr loadAvg) = Some tt)
    by (unfold Part000.checkLoad; now destruct (f64_gt _ _)).
  destruct (bind_returns (Part000.checkLoad loadAvgStr loadAvg)
    (fun _ => Part000.checkMemory totalRAM usedRAM ;;;
              Part000.checkDisk totalDisk usedDisk ;;;
              Part000.checkNetwork netCap netUsed) tt Hl) as [-> ->].
  destruct (bind_returns (Part000.checkMemory totalRAM usedRAM)
    (fun _ => Part000.checkDisk totalDisk usedDisk ;;;
              Part000.checkNetwork netCap netUsed) tt Hm1) as [-> ->].
  destruct (bind_returns (Part000.checkDisk totalDisk usedDisk)
    (fun _ => Part000.checkNetwork netCap netUsed) tt Hd1) as [-> ->].
  split; [exact Hn1|].
  rewrite Hm2, Hd2, Hn2. unfold Part000.checkLoad, checkOrder, filter, Part000_warns.
  destruct (f64_gt loadAvg loadAvgThreshold);
    destruct (crossesRatio Part000.memUsageThreshold totalRAM usedRAM);
    destruct (crossesRatio Part000.diskUsageThreshold totalDisk usedDisk);
    destruct (crossesRatio Part000.netUsageThreshold netCap netUsed);
    reflexivity.
Qed.

(** ** One poll *)

Lemma length_7 {A : Type} (l : list A) :
  List.length l = 7%nat ->
  exists a0 a1 a2 a3 a4 a5 a6, l = [a0; a1; a2; a3; a4; a5; a6].
Proof.
  intros H.
  do 7 (destruct l as [|? l]; [discriminate H|]).
  destruct l; [|discriminate H].
  repeat eexists.
Qed.

(** [main.go]: a poll is rejected without an event, or the checks run on
    the seven fields, the first of which has been parsed. *)
Lemma Main_pollOnce_cases (ParseFloat : string -> float64 * option strconv.NumError)
    (r : Fetch) :
  (exists e, Main.pollOnce ParseFloat r = ([], Some (Some e)))
  \/ (exists body f0 f1 f2 f3 f4 f5 f6 loadAvg,
         r = OK body
         /\ strings.Split (strings.TrimSpace body) comma = [f0; f1; f2; f3; f4; f5; f6]
         /\ ParseFloat (strings.TrimSpace f0) = (loadAvg, None)
         /\ Main.pollOnce ParseFloat r =
            (Main.checks f0 loadAvg
               (fst (strconv.ParseUint (strings.TrimSpace f1)))
               (fst (strconv.ParseUint (strings.TrimSpace f2)))
               (fst (strconv.ParseUint (strings.TrimSpace f3)))
               (fst (strconv.ParseUint (strings.TrimSpace f4)))
               (fst (strconv.ParseUint (strings.TrimSpace f5)))
               (fst (strconv.ParseUint (strings.TrimSpace f6))) ;;;
             ret None)).
Proof.
  destruct r as [|code body readErr]; [left; eexists; reflexivity|].
  unfold Main.pollOnce.
  destruct (Z.eqb_spec code 200) as [->|ne]; [|left; eexists; reflexivity].
  destruct readErr; [left; eexists; reflexivity|].
  cbn [negb].
  destruct (String.eqb (strings.TrimSpace body) ""); [left; eexists; reflexivity|].
  destruct (Nat.eqb_spec (List.length (strings.Split (strings.TrimSpace body) comma)) 7)
    as [Hlen|Hlen]; [|left; eexists; reflexivity].
  destruct (length_7 _ Hlen) as (f0 & f1 & f2 & f3 & f4 & f5 & f6 & Hf).
  rewrite Hf. cbn [negb nth].
  destruct (ParseFloat (strings.TrimSpace f0)) as [loadAvg [e|]] eqn:Hpf;
    [left; eexists; reflexivity|].
  right. exists body, f0, f1, f2, f3, f4, f5, f6, loadAvg.
  repeat split; assumption.
Qed.

(** [part_000]: a poll is rejected without an event, or all seven fields
    have been parsed and the checks run on their values. *)
Lemma Part000_pollOnce_cases
    (ParseFloat : string -> float64 * option strconv.NumError) (r : Fetch) :
  (exists e, Part000.pollOnce ParseFloat r = ([], Some (Some e)))
  \/ (exists code body readErr f0 f1 f2 f3 f4 f5 f6
             loadAvg totalRAM usedRAM totalDisk usedDisk netCap netUsed,
         r = Response code body readErr
         /\ Part000.splitCSV (strings.TrimSpace (Part000.ReadString body))
            = [f0; f1; f2; f3; f4; f5; f6]
         /\ ParseFloat f0 = (loadAvg, None)
         /\ Part000.parseUint f1 = (totalRAM, None)
         /\ Part000.parseUint f2 = (usedRAM, None)
         /\ Part000.parseUint f3 = (totalDisk, None)
         /\ Part000.parseUint f4 = (usedDisk, None)
         /\ Part000.parseUint f5 = (netCap, None)
         /\ Part000.parseUint f6 = (netUsed, None)
         /\ Part000.pollOnce ParseFloat r =
            (Part000.checks f0 loadAvg
               totalRAM usedRAM totalDisk usedDisk netCap netUsed ;;;
             ret None)).
Proof.
  destruct r as [|code body readErr]; [left; eexists; reflexivity|].
  unfold Part000.pollOnce.
  destruct (Z.eqb_spec code 200) as [->|ne]; [|left; eexists; reflexivity].
  cbn [negb].
  destruct (String.eqb (strings.TrimSpace (Part000.ReadString body)) "");
    [left; eexists; reflexivity|].
  destruct (Nat.eqb_spec
    (List.length (Part000.splitCSV (strings.TrimSpace (Part000.ReadString body)))) 7)
    as [Hlen|Hlen]; [|left; eexists; reflexivity].
  destruct (length_7 _ Hlen) as (f0 & f1 & f2 & f3 & f4 & f5 & f6 & Hf).
  rewrite Hf. cbn [negb nth]. unfold Part000.try.
  destruct (ParseFloat f0) as [loadAvg [e|]] eqn:H0; [left; eexists; reflexivity|].
  destruct (Part000.parseUint f1) as [totalRAM [e|]] eqn:H1;
    [left; eexists; reflexivity|].
  destruct (Part000.parseUint f2) as [usedRAM [e|]] eqn:H2;
    [left; eexists; reflexivity|].
  destruct (Part000.parseUint f3) as [totalDisk [e|]] eqn:H3;
    [left; eexists; reflexivity|].
  destruct (Part000.parseUint f4) as [usedDisk [e|]] eqn:H4;
    [left; eexists; reflexivity|].
  destruct (Part000.parseUint f5) as [netCap [e|]] eqn:H5;
    [left; eexists; reflexivity|].
  destruct (Part000.parseUint f6) as [netUsed [e|]] eqn:H6;
    [left; eexists; reflexivity|].
  right.
  exists 200, body, readErr, f0, f1, f2, f3, f4, f5, f6,
    loadAvg, totalRAM, usedRAM, totalDisk, usedDisk, netCap, netUsed.
  repeat split; assumption || reflexivity.
Qed.

Lemma notices_app (e1 e2 : list Event) :
  notices (e1 ++ e2) = (notices e1 + notices e2)%nat.
Proof. unfold notices. now rewrite messages_app, filter_app, length_app. Qed.

Lemma bind_notices {A B : Type} (m : Run A) (k : A -> Run B) (a : A) :
  snd m = Some a ->
  snd (bind m k) = snd (k a)
  /\ notices (events (bind m k)) = (notices (events m) + notices (events (k a)))%nat.
Proof.
  destruct m as [evs o]. simpl. intros ->. unfold bind.
  destruct (k a) as [evs' b]. simpl. now rewrite notices_app.
Qed.

Lemma metrics_app (e1 e2 : list Event) :
  metrics (e1 ++ e2) = metrics e1 ++ metrics e2.
Proof. unfold metrics. now rewrite messages_app, flat_map_app. Qed.

Lemma bind_run {A B : Type} (m : Run A) (k : A -> Run B) (a : A) :
  snd m = Some a ->
  bind m k = (events m ++ events (k a), snd (k a)).
Proof.
  destruct m as [evs o]. simpl. intros ->. unfold bind.
  now destruct (k a) as [evs' b].
Qed.

Lemma Main_checks_notices (field0 : string) (loadAvg : float64)
    (totalRAM usedRAM totalDisk usedDisk netCap netUsed : Z) :
  notices (events (Main.checks field0 loadAvg
                     totalRAM usedRAM totalDisk usedDisk netCap netUsed)) = 0%nat.
Proof.
  unfold Main.checks, Main.checkLoad.
  rewrite Main_checkMemory_run, Main_checkDisk_run, Main_checkNetwork_run.
  destruct (f64_gt loadAvg loadAvgThreshold);
    destruct (crossesPercent 80 totalRAM usedRAM);
    destruct (crossesPercent 90 totalDisk usedDisk);
    destruct (crossesPercent 90 netCap netUsed); reflexivity.
Qed.

Lemma Part000_checks_notices (loadAvgStr : string) (loadAvg : float64)
    (totalRAM usedRAM totalDisk usedDisk netCap netUsed : Z) :
  notices (events (Part000.checks loadAvgStr loadAvg
                     totalRAM usedRAM totalDisk usedDisk netCap netUsed)) = 0%nat.
Proof.
  unfold Part000.checks, notices.
  destruct (Part000_checkMemory_run totalRAM usedRAM) as [Hm1 Hm2].
  destruct (Part000_checkDisk_run totalDisk usedDisk) as [Hd1 Hd2].
  destruct (Part000_checkNetwork_run netCap netUsed) as [Hn1 Hn2].
  assert (Hl : snd (Part000.checkLoad loadAvgStr loadAvg) = Some tt)
    by (unfold Part000.checkLoad; now destruct (f64_gt _ _)).
  destruct (bind_returns (Part000.checkLoad loadAvgStr loadAvg)
    (fun _ => Part000.checkMemory totalRAM usedRAM ;;;
              Part000.checkDisk totalDisk usedDisk ;;;
              Part000.checkNetwork netCap netUsed) tt Hl) as [_ ->].
  destruct (bind_returns (Part000.checkMemory totalRAM usedRAM)
    (fun _ => Part000.checkDisk totalDisk usedDisk ;;;
              Part000.checkNetwork netCap netUsed) tt Hm1) as [_ ->].
  destruct (bind_returns (Part000.checkDisk totalDisk usedDisk)
    (fun _ => Part000.checkNetwork netCap netUsed) tt Hd1) as [_ ->].
  rewrite Hm2, Hd2, Hn2. unfold Part000.checkLoad.
  destruct (f64_gt loadAvg loadAvgThreshold);
    destruct (crossesRatio Part000.memUsageThreshold totalRAM usedRAM);
    destruct (crossesRatio Part000.diskUsageThreshold totalDisk usedDisk);
    destruct (crossesRatio Part000.netUsageThreshold netCap netUsed);
    reflexivity.
Qed.

(** No poll panics, and no poll prints the notice of failure. *)
Lemma Main_pollOnce_returns
    (ParseFloat : string -> float64 * option strconv.NumError) (r : Fetch) :
  (exists err, snd (Main.pollOnce ParseFloat r) = Some err)
  /\ notices (events (Main.pollOnce ParseFloat r)) = 0%nat.
Proof.
  destruct (Main_pollOnce_cases ParseFloat r) as [[e ->]|H].
  - split; [eexists|]; reflexivity.
  - destruct H as (body & f0 & f1 & f2 & f3 & f4 & f5 & f6 & la & _ & _ & _ & ->).
    match goal with |- context [bind ?m ?k] =>
      destruct (bind_notices m k tt (proj1 (Main_checks_run _ _ _ _ _ _ _ _)))
        as [-> ->]
    end.
    rewrite Main_checks_notices. split; [eexists|]; reflexivity.
Qed.

Lemma Part000_pollOnce_returns
    (ParseFloat : string -> float64 * option strconv.NumError) (r : Fetch) :
  (exists err, snd (Part000.pollOnce ParseFloat r) = Some err)
  /\ notices (events (Part000.pollOnce ParseFloat r)) = 0%nat.
Proof.
  destruct (Part000_pollOnce_cases ParseFloat r) as [[e ->]|H].
  - split; [eexists|]; reflexivity.
  - destruct H as (code & body & re & f0 & f1 & f2 & f3 & f4 & f5 & f6 & la
                   & v1 & v2 & v3 & v4 & v5 & v6 & _ & _ & _ & _ & _ & _ & _ & _ & _ & ->).
    match goal with |- context [bind ?m ?k] =>
      destruct (bind_notices m k tt (proj1 (Part000_checks_run _ _ _ _ _ _ _ _)))
        as [-> ->]
    end.
    rewrite Part000_checks_notices. split; [eexists|]; reflexivity.
Qed.

(** ** The loop of [main.go] *)

Section MainLoop.

Variable ParseFloat : string -> float64 * option strconv.NumError.
Variable env : string -> string.

Lemma Main_report_run (st : Main.State) (err : option PollError) :
  snd (Main.report st err) = Some (Main_next st err)
  /\ notices (events (Main.report st err)) =
     (if Main_alerts st err then 1%nat else 0%nat)
  /\ metrics (events (Main.report st err)) = [].
Proof.
  unfold Main.report, Main_next, Main_alerts. destruct err as [e|].
  - destruct (3 <=? int64 (Main.consecutiveErrors st + 1));
      destruct (Main.errorPrinted st); repeat split; reflexivity.
  - repeat split; reflexivity.
Qed.

Lemma Main_iteration_run (st : Main.State) (r : Fetch) :
  exists err,
    snd (Main.pollOnce ParseFloat r) = Some err
    /\ snd (Main.iteration ParseFloat env st r) = Some (Main_next st err)
    /\ notices (events (Main.iteration ParseFloat env st r))
       = (if Main_alerts st err then 1%nat else 0%nat)
    /\ metrics (events (Main.iteration ParseFloat env st r))
       = metrics (events (Main.pollOnce ParseFloat r)).
Proof.
  destruct (Main_pollOnce_returns ParseFloat r) as [[err Herr] Hn].
  exists err. split; [exact Herr|].
  unfold Main.iteration.
  rewrite (bind_run _ _ _ Herr).
  destruct (Main_report_run st err) as (Hst & Hal & Hm).
  rewrite (bind_run _ _ _ Hst).
  unfold sleep, bind, ret, events in *. cbn [fst snd].
  rewrite !notices_app, !metrics_app, Hn, Hm, Hal.
  cbn. rewrite Nat.add_0_r, app_nil_r. repeat split; reflexivity.
Qed.

Lemma Main_loop_cons (st : Main.State) (r : Fetch) (rs : list Fetch) :
  exists err,
    snd (Main.pollOnce ParseFloat r) = Some err
    /\ snd (Main.loop ParseFloat env st (r :: rs))
       = snd (Main.loop ParseFloat env (Main_next st err) rs)
    /\ notices (events (Main.loop ParseFloat env st (r :: rs)))
       = ((if Main_alerts st err then 1 else 0)
          + notices (events (Main.loop ParseFloat env (Main_next st err) rs)))%nat.
Proof.
  destruct (Main_iteration_run st r) as (err & Herr & Hs & Hn & _).
  exists err. split; [exact Herr|].
  cbn [Main.loop].
  rewrite (bind_run _ _ _ Hs). unfold events at 1 3. cbn [fst snd].
  rewrite notices_app, Hn. split; reflexivity.
Qed.

(** Once the notice is printed, the failures that follow print nothing. *)
Lemma Main_muted (fs : list Fetch) :
  Forall (fun f => failed (Main.pollOnce ParseFloat f)) fs ->
  forall st, Main.errorPrinted st = true ->
  notices (events (Main.loop ParseFloat env st fs)) = 0%nat.
Proof.
  induction 1 as [|f fs [e Hf] _ IH]; intros st Hst; [reflexivity|].
  destruct (Main_loop_cons st f fs) as (err & Herr & _ & ->).
  rewrite Hf in Herr. injection Herr as <-.
  unfold Main_alerts. rewrite Hst, andb_false_r.
  apply IH. unfold Main_next. cbn. rewrite Hst. apply orb_true_r.
Qed.

(** From the state a success leaves, a streak of failures prints the notice
    once, at its third failure. *)
Lemma Main_streak (fs : list Fetch) :
  Forall (fun f => failed (Main.pollOnce ParseFloat f)) fs ->
  notices (events (Main.loop ParseFloat env (Main.mkState 0 false) fs))
  = if (3 <=? List.length fs)%nat then 1%nat else 0%nat.
Proof.
  intros H.
  destruct fs as [|f1 fs]; [reflexivity|].
  destruct (Main_loop_cons (Main.mkState 0 false) f1 fs) as (err & Herr & _ & ->).
  inversion H as [|? ? [e1 H1] Ha]; subst. rewrite H1 in Herr. injection Herr as <-.
  change (Main_next (Main.mkState 0 false) (Some e1)) with (Main.mkState 1 false).
  change (Main_alerts (Main.mkState 0 false) (Some e1)) with false.
  destruct fs as [|f2 fs]; [reflexivity|].
  destruct (Main_loop_cons (Main.mkState 1 false) f2 fs) as (err & Herr & _ & ->).
  inversion Ha as [|? ? [e2 H2] Hb]; subst. rewrite H2 in Herr. injection Herr as <-.
  change (Main_next (Main.mkState 1 false) (Some e2)) with (Main.mkState 2 false).
  change (Main_alerts (Main.mkState 1 false) (Some e2)) with false.
  destruct fs as [|f3 fs]; [reflexivity|].
  destruct (Main_loop_cons (Main.mkState 2 false) f3 fs) as (err & Herr & _ & ->).
  inversion Hb as [|? ? [e3 H3] Hc]; subst. rewrite H3 in Herr. injection Herr as <-.
  change (Main_next (Main.mkState 2 false) (Some e3)) with (Main.mkState 3 true).
  change (Main_alerts (Main.mkState 2 false) (Some e3)) with true.
  rewrite (Main_muted fs Hc (Main.mkState 3 true) eq_refl).
  reflexivity.
Qed.

End MainLoop.

(** ** The loop of [part_000] *)

Section Part000Loop.

Variable ParseFloat : string -> float64 * option strconv.NumError.
Variable env : string -> string.

Lemma Part000_report_run (st : Part000.State) (err : option PollError) :
  snd (Part000.report st err) = Some (Part000_next st err)
  /\ notices (events (Part000.report st err)) =
     (if Part000_alerts st err then 1%nat else 0%nat)
  /\ metrics (events (Part000.report st err)) = [].
Proof.
  unfold Part000.report, Part000_next, Part000_alerts. destruct err as [e|].
  - destruct (3 <=? int64 (Part000.consecutiveErrors st + 1));
      destruct (Part000.errorMessagePrinted st); repeat split; reflexivity.
  - repeat split; reflexivity.
Qed.

Lemma Part000_iteration_run (st : Part000.State) (r : Fetch) :
  exists err,
    snd (Part000.pollOnce ParseFloat r) = Some err
    /\ snd (Part000.iteration ParseFloat env st r) = Some (Part000_next st err)
    /\ notices (events (Part000.iteration ParseFloat env st r))
       = (if Part000_alerts st err then 1%nat else 0%nat)
    /\ metrics (events (Part000.iteration ParseFloat env st r))
       = metrics (events (Part000.pollOnce ParseFloat r)).
Proof.
  destruct (Part000_pollOnce_returns ParseFloat r) as [[err Herr] Hn].
  exists err. split; [exact Herr|].
  unfold Part000.iteration.
  rewrite (bind_run _ _ _ Herr).
  destruct (Part000_report_run st err) as (Hst & Hal & Hm).
  rewrite (bind_run _ _ _ Hst).
  unfold sleep, bind, ret, events in *. cbn [fst snd].
  rewrite !notices_app, !metrics_app, Hn, Hm, Hal.
  cbn. rewrite Nat.add_0_r, app_nil_r. repeat split; reflexivity.
Qed.

Lemma Part000_loop_cons (st : Part000.State) (r : Fetch) (rs : list Fetch) :
  exists err,
    snd (Part000.pollOnce ParseFloat r) = Some err
    /\ snd (Part000.loop ParseFloat env st (r :: rs))
       = snd (Part000.loop ParseFloat env (Part000_next st err) rs)
    /\ notices (events (Part000.loop ParseFloat env st (r :: rs)))
       = ((if Part000_alerts st err then 1 else 0)
          + notices (events (Part000.loop ParseFloat env (Part000_next st err) rs)))%nat.
Proof.
  destruct (Part000_iteration_run st r) as (err & Herr & Hs & Hn & _).
  exists err. split; [exact Herr|].
  cbn [Part000.loop].
  rewrite (bind_run _ _ _ Hs). unfold events at 1 3. cbn [fst snd].
  rewrite notices_app, Hn. split; reflexivity.
Qed.

(** Once the flag is set, whatever the polls that follow return, nothing
    prints the notice. *)
Lemma Part000_muted (rs : list Fetch) :
  forall st, Part000.errorMessagePrinted st = true ->
  notices (events (Part000.loop ParseFloat env st rs)) = 0%nat.
Proof.
  induction rs as [|r rs IH]; intros st Hst; [reflexivity|].
  destruct (Part000_loop_cons st r rs) as (err & _ & _ & ->).
  assert (Ha : Part000_alerts st err = false)
    by (unfold Part000_alerts; destruct err; [rewrite Hst; apply andb_false_r|reflexivity]).
  rewrite Ha. apply IH.
  unfold Part000_next. destruct err; cbn; rewrite Hst; [apply orb_true_r|reflexivity].
Qed.

Lemma Part000_at_most_once (rs : list Fetch) :
  forall st, (notices (events (Part000.loop ParseFloat env st rs)) <= 1)%nat.
Proof.
  induction rs as [|r rs IH]; intros st; [apply Nat.le_0_l|].
  destruct (Part000_loop_cons st r rs) as (err & _ & _ & ->).
  destruct (Part000_alerts st err) eqn:Ha.
  - rewrite Part000_muted; [apply le_n|].
    unfold Part000_alerts in Ha. destruct err as [e|]; [|discriminate Ha].
    apply andb_prop in Ha. destruct Ha as [Ha _].
    unfold Part000_next. cbn. now rewrite Ha.
  - apply IH.
Qed.

(** The first streak prints the notice at its third failure. *)
Lemma Part000_streak (fs : list Fetch) :
  Forall (fun f => failed (Part000.pollOnce ParseFloat f)) fs ->
  notices (events (Part000.loop ParseFloat env (Part000.mkState 0 false) fs))
  = if (3 <=? List.length fs)%nat then 1%nat else 0%nat.
Proof.
  intros H.
  destruct fs as [|f1 fs]; [reflexivity|].
  destruct (Part000_loop_cons (Part000.mkState 0 false) f1 fs)
    as (err & Herr & _ & ->).
  inversion H as [|? ? [e1 H1] Ha]; subst. rewrite H1 in Herr. injection Herr as <-.
  change (Part000_next (Part000.mkState 0 false) (Some e1))
    with (Part000.mkState 1 false).
  change (Part000_alerts (Part000.mkState 0 false) (Some e1)) with false.
  destruct fs as [|f2 fs]; [reflexivity|].
  destruct (Part000_loop_cons (Part000.mkState 1 false) f2 fs)
    as (err & Herr & _ & ->).
  inversion Ha as [|? ? [e2 H2] Hb]; subst. rewrite H2 in Herr. injection Herr as <-.
  change (Part000_next (Part000.mkState 1 false) (Some e2))
    with (Part000.mkState 2 false).
  change (Part000_alerts (Part000.mkState 1 false) (Some e2)) with false.
  destruct fs as [|f3 fs]; [reflexivity|].
  destruct (Part000_loop_cons (Part000.mkState 2 false) f3 fs)
    as (err & Herr & _ & ->).
  inversion Hb as [|? ? [e3 H3] Hc]; subst. rewrite H3 in Herr. injection Herr as <-.
  change (Part000_next (Part000.mkState 2 false) (Some e3))
    with (Part000.mkState 3 true).
  change (Part000_alerts (Part000.mkState 2 false) (Some e3)) with true.
  rewrite (Part000_muted fs (Part000.mkState 3 true) eq_refl).
  reflexivity.
Qed.

End Part000Loop.

(** ** The notice of failure *)

Lemma Main_loop_after_success
    (ParseFloat : string -> float64 * option strconv.NumError)
    (env : string -> string) (st : Main.State) (r : Fetch) (fs : list Fetch) :
  succeeded (Main.pollOnce ParseFloat r) ->
  notices (events (Main.loop ParseFloat env st (r :: fs)))
  = notices (events (Main.loop ParseFloat env (Main.mkState 0 false) fs)).
Proof.
  intros Hr.
  destruct (Main_loop_cons ParseFloat env st r fs) as (err & Herr & _ & ->).
  unfold succeeded in Hr. rewrite Hr in Herr. injection Herr as <-.
  reflexivity.
Qed.

(** C2. In [main.go], whatever the state of the loop, after a successful
    poll a streak of consecutive failures prints the notice once if it
    reaches three failures and not at all if it is shorter, hence at the
    third failure and at no later one; the same holds of a streak that
    starts the run, in both programs. In [part_000] the run of three
    failures, a success and three failures prints the notice once, where
    [main.go] prints it twice. *)
Theorem notice_once_per_streak :
  (forall (ParseFloat : string -> float64 * option strconv.NumError)
          (env : string -> string) (st : Main.State) (r : Fetch) (fs : list Fetch),
      succeeded (Main.pollOnce ParseFloat r) ->
      Forall (fun f => failed (Main.pollOnce ParseFloat f)) fs ->
      notices (events (Main.loop ParseFloat env st (r :: fs)))
      = (if (3 <=? List.length fs)%nat then 1 else 0)%nat)
  /\ (forall (ParseFloat : string -> float64 * option strconv.NumError)
             (env : string -> string) (fs : list Fetch),
         Forall (fun f => failed (Main.pollOnce ParseFloat f)) fs ->
         notices (events (Main.main ParseFloat env fs))
         = (if (3 <=? List.length fs)%nat then 1 else 0)%nat)
  /\ (forall (ParseFloat : string -> float64 * option strconv.NumError)
             (env : string -> string) (fs : list Fetch),
         Forall (fun f => failed (Part000.pollOnce ParseFloat f)) fs ->
         notices (events (Part000.main ParseFloat env fs))
         = (if (3 <=? List.length fs)%nat then 1 else 0)%nat)
  /\ (let down := TransportError in
      let up := OK "1,8,1,8,1,8,1" in
      let pf := strconv.ParseFloat_decimal in
      failed (Part000.pollOnce pf down)
      /\ succeeded (Part000.pollOnce pf up)
      /\ stdout (events (Part000.main pf (setenv "")
                           [down; down; down; up; down; down; down]))
         = ["Unable to fetch server statistic."]
      /\ stdout (events (Main.main pf (setenv "")
                           [down; down; down; up; down; down; down]))
         = ["Unable to fetch server statistic.";
            "Unable to fetch server statistic."]).
Proof.
  split; [|split; [|split]].
  - intros ParseFloat env st r fs Hr Hfs.
    rewrite (Main_loop_after_success ParseFloat env st r fs Hr).
    now apply Main_streak.
  - intros ParseFloat env fs Hfs. now apply Main_streak.
  - intros ParseFloat env fs Hfs. now apply Part000_streak.
  - cbv zeta. split; [eexists; reflexivity|].
    split; [vm_compute; reflexivity|].
    split; vm_compute; reflexivity.
Qed.

Lemma notice_once_per_streak_witness :
  let pf := strconv.ParseFloat_decimal in
  let fs := [TransportError; OK "1,2,3"; Response 503 "" false; OK ""] in
  succeeded (Main.pollOnce pf (OK "1,8,1,8,1,8,1"))
  /\ Forall (fun f => failed (Main.pollOnce pf f)) fs
  /\ notices (events (Main.loop pf (setenv "") (Main.mkState 7 true)
                        (OK "1,8,1,8,1,8,1" :: fs))) = 1%nat.
Proof.
  cbv zeta.
  assert (Hs : succeeded (Main.pollOnce strconv.ParseFloat_decimal (OK "1,8,1,8,1,8,1")))
    by (vm_compute; reflexivity).
  assert (Hf : Forall (fun f => failed (Main.pollOnce strconv.ParseFloat_decimal f))
                 [TransportError; OK "1,2,3"; Response 503 "" false; OK ""]).
  { repeat constructor; eexists; vm_compute; reflexivity. }
  split; [exact Hs|]. split; [exact Hf|].
  exact (proj1 notice_once_per_streak strconv.ParseFloat_decimal (setenv "")
           (Main.mkState 7 true) (OK "1,8,1,8,1,8,1") _ Hs Hf).
Defined.

Lemma Part000_loop_app
    (ParseFloat : string -> float64 * option strconv.NumError)
    (env : string -> string) (rs1 rs2 : list Fetch) :
  forall st, exists st',
    snd (Part000.loop ParseFloat env st rs1) = Some st'
    /\ (Part000.errorMessagePrinted st = true
        \/ (0 < notices (events (Part000.loop ParseFloat env st rs1)))%nat ->
        Part000.errorMessagePrinted st' = true)
    /\ notices (events (Part000.loop ParseFloat env st (rs1 ++ rs2)))
       = (notices (events (Part000.loop ParseFloat env st rs1))
          + notices (events (Part000.loop ParseFloat env st' rs2)))%nat.
Proof.
  induction rs1 as [|r rs1 IH]; intros st.
  - exists st. split; [reflexivity|]. split; [|reflexivity].
    intros [H|H]; [exact H|]. cbn in H. inversion H.
  - destruct (Part000_loop_cons ParseFloat env st r rs1) as (err & Herr & Hs & Hn).
    destruct (Part000_loop_cons ParseFloat env st r (rs1 ++ rs2))
      as (err' & Herr' & _ & Hn').
    rewrite Herr in Herr'. injection Herr' as <-.
    destruct (IH (Part000_next st err)) as (st' & Hst' & Hflag & Happ).
    exists st'. split; [now rewrite Hs|]. split.
    + intros H. apply Hflag.
      destruct (Part000.errorMessagePrinted (Part000_next st err)) eqn:Hf;
        [now left|right].
      rewrite Hn in H.
      assert (Ha : Part000_alerts st err = false).
      { unfold Part000_next in Hf. unfold Part000_alerts.
        destruct err; [|reflexivity]. cbn in Hf.
        apply orb_false_elim in Hf. destruct Hf as [-> _]. reflexivity. }
      rewrite Ha in H. cbn in H.
      destruct H as [H|H]; [|exact H].
      unfold Part000_next in Hf. destruct err; cbn in Hf; rewrite H in Hf;
        [rewrite orb_true_r in Hf|]; discriminate Hf.
    + cbn [app]. rewrite Hn', Hn, Happ. apply Nat.add_assoc.
Qed.

(** C9. In [part_000] a successful poll sets the counter back to zero and
    leaves the flag as it is; once the flag is set no poll, whatever it
    returns, prints the notice; a run prints the notice at most once; and a
    run in which it has been printed does not print it again, however the
    run goes on. *)
Theorem Part000_notice_never_again
    (ParseFloat : string -> float64 * option strconv.NumError)
    (env : string -> string) :
  (forall st : Part000.State,
      Part000.report st None
      = ([], Some (Part000.mkState 0 (Part000.errorMessagePrinted st))))
  /\ (forall (n : Z) (rs : list Fetch),
         notices (events (Part000.loop ParseFloat env (Part000.mkState n true) rs))
         = 0%nat)
  /\ (forall rs : list Fetch,
         (notices (events (Part000.main ParseFloat env rs)) <= 1)%nat)
  /\ (forall rs1 rs2 : list Fetch,
         notices (events (Part000.main ParseFloat env rs1)) = 1%nat ->
         notices (events (Part000.main ParseFloat env (rs1 ++ rs2))) = 1%nat).
Proof.
  split; [reflexivity|]. split; [|split].
  - intros n rs. now apply Part000_muted.
  - intros rs. apply Part000_at_most_once.
  - intros rs1 rs2 H. unfold Part000.main in *.
    destruct (Part000_loop_app ParseFloat env rs1 rs2 Part000.initial)
      as (st' & _ & Hflag & ->).
    rewrite H, Part000_muted; [reflexivity|].
    apply Hflag. right. rewrite H. apply Nat.lt_0_1.
Qed.

Lemma Part000_notice_never_again_witness :
  let pf := strconv.ParseFloat_decimal in
  let rs1 := [TransportError; TransportError; TransportError] in
  let rs2 := [OK "1,8,1,8,1,8,1"; TransportError; TransportError; TransportError;
              TransportError] in
  notices (events (Part000.main pf (setenv "") rs1)) = 1%nat
  /\ notices (events (Part000.main pf (setenv "") (rs1 ++ rs2))) = 1%nat.
Proof.
  cbv zeta.
  assert (H : notices (events (Part000.main strconv.ParseFloat_decimal (setenv "")
                [TransportError; TransportError; TransportError])) = 1%nat)
    by (vm_compute; reflexivity).
  split; [exact H|].
  exact (proj2 (proj2 (proj2
           (Part000_notice_never_again strconv.ParseFloat_decimal (setenv ""))))
           _ _ H).
Defined.

(** ** Bodies that do not have seven fields *)

Lemma Main_rejects_field_count
    (ParseFloat : string -> float64 * option strconv.NumError) (body : string) :
  List.length (strings.Split (strings.TrimSpace body) comma) <> 7%nat ->
  exists e, Main.pollOnce ParseFloat (OK body) = ([], Some (Some e)).
Proof.
  intros H. unfold Main.pollOnce, OK. cbn [Z.eqb Pos.eqb negb].
  destruct (String.eqb (strings.TrimSpace body) ""); [eexists; reflexivity|].
  destruct (Nat.eqb_spec (List.length (strings.Split (strings.TrimSpace body) comma)) 7);
    [contradiction|].
  eexists; reflexivity.
Qed.

Lemma Part000_rejects_field_count
    (ParseFloat : string -> float64 * option strconv.NumError)
    (body : string) (readErr : bool) :
  List.length (strings.Split (strings.TrimSpace (Part000.ReadString body)) comma)
    <> 7%nat ->
  exists e, Part000.pollOnce ParseFloat (Response 200 body readErr)
            = ([], Some (Some e)).
Proof.
  intros H. unfold Part000.pollOnce. cbn [Z.eqb Pos.eqb negb].
  destruct (String.eqb (strings.TrimSpace (Part000.ReadString body)) "");
    [eexists; reflexivity|].
  unfold Part000.splitCSV. rewrite length_map.
  destruct (Nat.eqb_spec
    (List.length (strings.Split (strings.TrimSpace (Part000.ReadString body)) comma)) 7);
    [contradiction|].
  eexists; reflexivity.
Qed.

(** C5, as stated, fails on [part_000], which reads the body up to its
    first line feed: the trimmed body below has eight fields between its
    commas, and the poll succeeds on the seven of its first line. On
    [main.go] it is rejected. *)
Lemma Part000_reads_first_line_only :
  let body := ("31,1000,900,1000,950,1000,950" ++ String newline "8,9")%string in
  List.length (strings.Split (strings.TrimSpace body) comma) = 8%nat
  /\ Part000.pollOnce strconv.ParseFloat_decimal (OK body)
     = ([Print (LoadHigh "31"); Print (MemHigh 90); Print (DiskLow 0);
         Print (NetHigh 0)], Some None)
  /\ Main.pollOnce strconv.ParseFloat_decimal (OK body)
     = ([], Some (Some (ErrFieldsCount 8))).
Proof. cbv zeta. repeat split; vm_compute; reflexivity. Qed.

(** C5, amended. When the text that the program splits, which is the
    trimmed body in [main.go] and the trimmed first line of the body in
    [part_000], does not split into seven fields at the commas, [pollOnce]
    returns an error and leaves no event, so that no threshold is looked
    at, and the iteration of the loop adds one to the counter of
    consecutive failures. A body without a line feed is its own first
    line. *)
Theorem field_count_rejected
    (ParseFloat : string -> float64 * option strconv.NumError)
    (env : string -> string) (body : string) :
  (List.length (strings.Split (strings.TrimSpace body) comma) <> 7%nat ->
   (exists e, Main.pollOnce ParseFloat (OK body) = ([], Some (Some e)))
   /\ forall st : Main.State,
        metrics (events (Main.iteration ParseFloat env st (OK body))) = []
        /\ exists st',
             snd (Main.iteration ParseFloat env st (OK body)) = Some st'
             /\ Main.consecutiveErrors st'
                = int64 (Main.consecutiveErrors st + 1))
  /\ (List.length (strings.Split (strings.TrimSpace (Part000.ReadString body)) comma)
        <> 7%nat ->
      (exists e, Part000.pollOnce ParseFloat (OK body) = ([], Some (Some e)))
      /\ forall st : Part000.State,
           metrics (events (Part000.iteration ParseFloat env st (OK body))) = []
           /\ exists st',
                snd (Part000.iteration ParseFloat env st (OK body)) = Some st'
                /\ Part000.consecutiveErrors st'
                   = int64 (Part000.consecutiveErrors st + 1))
  /\ (~ In newline (list_ascii_of_string body) -> Part000.ReadString body = body).
Proof.
  split; [|split]; intros H.
  - destruct (Main_rejects_field_count ParseFloat body H) as [e He].
    split; [now exists e|]. intros st.
    destruct (Main_iteration_run ParseFloat env st (OK body))
      as (err & Herr & Hs & _ & Hm).
    rewrite He in Herr, Hm. injection Herr as <-.
    split; [exact Hm|]. eexists. split; [exact Hs|reflexivity].
  - destruct (Part000_rejects_field_count ParseFloat body false H) as [e He].
    split; [now exists e|]. intros st.
    destruct (Part000_iteration_run ParseFloat env st (OK body))
      as (err & Herr & Hs & _ & Hm).
    unfold OK in *. rewrite He in Herr, Hm. injection Herr as <-.
    split; [exact Hm|]. eexists. split; [exact Hs|reflexivity].
  - induction body as [|c body IH]; [reflexivity|].
    cbn [Part000.ReadString].
    destruct (Ascii.eqb_spec c newline) as [->|ne].
    + exfalso. apply H. now left.
    + f_equal. apply IH. intros Hin. apply H. now right.
Qed.

Lemma field_count_rejected_witness :
  let pf := strconv.ParseFloat_decimal in
  let six := "31,16000000000,14000000000,1000,990,1000" in
  let eight := "31,16000000000,14000000000,1000,990,1000,990,5" in
  List.length (strings.Split (strings.TrimSpace six) comma) = 6%nat
  /\ List.length (strings.Split (strings.TrimSpace (Part000.ReadString eight)) comma)
     = 8%nat
  /\ (exists e, Main.pollOnce pf (OK six) = ([], Some (Some e)))
  /\ (exists e, Part000.pollOnce pf (OK eight) = ([], Some (Some e)))
  /\ Part000.ReadString "1,2" = "1,2".
Proof.
  cbv zeta.
  split; [reflexivity|]. split; [reflexivity|]. split; [|split].
  - refine (proj1 (proj1 (field_count_rejected strconv.ParseFloat_decimal (setenv "")
                            "31,16000000000,14000000000,1000,990,1000") _)).
    vm_compute. discriminate.
  - refine (proj1 (proj1 (proj2 (field_count_rejected strconv.ParseFloat_decimal
                                   (setenv "")
                                   "31,16000000000,14000000000,1000,990,1000,990,5"))
                     _)).
    vm_compute. discriminate.
  - refine (proj2 (proj2 (field_count_rejected strconv.ParseFloat_decimal (setenv "")
                            "1,2")) _).
    simpl. intros [H|[H|[H|[]]]]; discriminate H.
Defined.

(** ** Fields that do not parse *)

(** C3, as stated, fails on [main.go]: the second field of this body is
    not a number, and the poll is neither rejected nor without effect. *)
Lemma Main_acts_on_partial_snapshot :
  let body := "31,x,1,1000,950,1,0" in
  strings.Split (strings.TrimSpace body) comma
    = ["31"; "x"; "1"; "1000"; "950"; "1"; "0"]
  /\ strconv.ParseUint (strings.TrimSpace "x") = (0, Some strconv.ErrSyntax)
  /\ Main.pollOnce strconv.ParseFloat_decimal (OK body)
     = ([Print (LoadHigh "31"); Print (DiskLow 0)], Some None).
Proof. cbv zeta. repeat split; vm_compute; reflexivity. Qed.

(** C3, amended. For every answer of the server, [part_000] either rejects
    the poll with an error and without an event, or has parsed all seven
    fields and runs the checks on their values; [main.go] either rejects the
    poll with an error and without an event, or has found seven fields and
    parsed the first, and runs the checks on it and on the values
    [strconv.ParseUint] returns for the six others, parsed or not. *)
Theorem snapshot_parsed_or_rejected
    (ParseFloat : string -> float64 * option strconv.NumError) (r : Fetch) :
  ((exists e, Part000.pollOnce ParseFloat r = ([], Some (Some e)))
   \/ (exists code body readErr f0 f1 f2 f3 f4 f5 f6
              loadAvg totalRAM usedRAM totalDisk usedDisk netCap netUsed,
          r = Response code body readErr
          /\ Part000.splitCSV (strings.TrimSpace (Part000.ReadString body))
             = [f0; f1; f2; f3; f4; f5; f6]
          /\ ParseFloat f0 = (loadAvg, None)
          /\ Part000.parseUint f1 = (totalRAM, None)
          /\ Part000.parseUint f2 = (usedRAM, None)
          /\ Part000.parseUint f3 = (totalDisk, None)
          /\ Part000.parseUint f4 = (usedDisk, None)
          /\ Part000.parseUint f5 = (netCap, None)
          /\ Part000.parseUint f6 = (netUsed, None)
          /\ Part000.pollOnce ParseFloat r =
             (Part000.checks f0 loadAvg
                totalRAM usedRAM totalDisk usedDisk netCap netUsed ;;;
              ret None)))
  /\ ((exists e, Main.pollOnce ParseFloat r = ([], Some (Some e)))
      \/ (exists body f0 f1 f2 f3 f4 f5 f6 loadAvg,
             r = OK body
             /\ strings.Split (strings.TrimSpace body) comma
                = [f0; f1; f2; f3; f4; f5; f6]
             /\ ParseFloat (strings.TrimSpace f0) = (loadAvg, None)
             /\ Main.pollOnce ParseFloat r =
                (Main.checks f0 loadAvg
                   (fst (strconv.ParseUint (strings.TrimSpace f1)))
                   (fst (strconv.ParseUint (strings.TrimSpace f2)))
                   (fst (strconv.ParseUint (strings.TrimSpace f3)))
                   (fst (strconv.ParseUint (strings.TrimSpace f4)))
                   (fst (strconv.ParseUint (strings.TrimSpace f5)))
                   (fst (strconv.ParseUint (strings.TrimSpace f6))) ;;;
                 ret None))).
Proof.
  split; [apply Part000_pollOnce_cases|apply Main_pollOnce_cases].
Qed.

(** What [ParseUint] returns: a [uint64] without error, zero with a syntax
    error, the largest [uint64] with a range error. *)
Lemma parseUintLoop_value (s : string) :
  forall n, is_uint64 n ->
  match strconv.parseUintLoop s n with
  | (v, None) => is_uint64 v
  | (v, Some strconv.ErrSyntax) => v = 0
  | (v, Some strconv.ErrRange) => v = maxUint64
  end.
Proof.
  induction s as [|c s IH]; intros n Hn; cbn [strconv.parseUintLoop].
  - exact Hn.
  - destruct (isDigit c); [|reflexivity].
    destruct (maxUint64 / 10 + 1 <=? n); [reflexivity|].
    destruct ((uint64 (uint64 (n * 10) + digitVal c) <? uint64 (n * 10))
              || (maxUint64 <? uint64 (uint64 (n * 10) + digitVal c)));
      [reflexivity|].
    apply IH, uint64_range.
Qed.

Lemma ParseUint_value (s : string) :
  match strconv.ParseUint s with
  | (v, None) => is_uint64 v
  | (v, Some strconv.ErrSyntax) => v = 0
  | (v, Some strconv.ErrRange) => v = maxUint64
  end.
Proof.
  unfold strconv.ParseUint. destruct s as [|c s]; [reflexivity|].
  apply parseUintLoop_value. unfold is_uint64. rewrite two64_eq. lia.
Qed.

(** C10, as stated, fails: the third field of this body does not fit in 64
    bits and its value is taken to be the largest [uint64], which shows in
    the warning printed; were it zero, nothing would be printed. *)
Lemma Main_range_error_is_not_zero :
  let body := "1,100,99999999999999999999,1,0,1,0" in
  strings.Split (strings.TrimSpace body) comma
    = ["1"; "100"; "99999999999999999999"; "1"; "0"; "1"; "0"]
  /\ strconv.ParseUint (strings.TrimSpace "99999999999999999999")
     = (maxUint64, Some strconv.ErrRange)
  /\ Main.pollOnce strconv.ParseFloat_decimal (OK body)
     = ([Print (MemHigh 184467440737095515)], Some None)
  /\ Main.checks "1" (float64_of_Z 1) 100 0 1 0 1 0 = ([], Some tt).
Proof. cbv zeta. repeat split; vm_compute; reflexivity. Qed.

Lemma Split_seven_nonempty (line : string) (fields : list string) :
  strings.Split line comma = fields ->
  List.length fields = 7%nat -> (line =? "")%string = false.
Proof.
  intros H Hlen. destruct line; [|reflexivity].
  subst fields. discriminate Hlen.
Qed.

(** ** The text of the load warning *)

Lemma Main_checks_load (field0 : string) (loadAvg : float64)
    (totalRAM usedRAM totalDisk usedDisk netCap netUsed : Z) (n : string) :
  In (LoadHigh n)
    (messages (events (Main.checks field0 loadAvg
                         totalRAM usedRAM totalDisk usedDisk netCap netUsed))) ->
  f64_gt loadAvg loadAvgThreshold = true /\ n = trimTrailingZeros field0.
Proof.
  unfold Main.checks, Main.checkLoad.
  rewrite Main_checkMemory_run, Main_checkDisk_run, Main_checkNetwork_run.
  destruct (f64_gt loadAvg loadAvgThreshold);
    destruct (crossesPercent 80 totalRAM usedRAM);
    destruct (crossesPercent 90 totalDisk usedDisk);
    destruct (crossesPercent 90 netCap netUsed);
    cbn; intros H;
    repeat (destruct H as [H|H]; [try discriminate H|]); try contradiction;
    injection H as <-; split; reflexivity.
Qed.

Lemma Part000_checks_load (loadAvgStr : string) (loadAvg : float64)
    (totalRAM usedRAM totalDisk usedDisk netCap netUsed : Z) (n : string) :
  In (LoadHigh n)
    (messages (events (Part000.checks loadAvgStr loadAvg
                         totalRAM usedRAM totalDisk usedDisk netCap netUsed))) ->
  f64_gt loadAvg loadAvgThreshold = true /\ n = trimTrailingZeros loadAvgStr.
Proof.
  unfold Part000.checks.
  destruct (Part000_checkMemory_run totalRAM usedRAM) as [Hm1 Hm2].
  destruct (Part000_checkDisk_run totalDisk usedDisk) as [Hd1 Hd2].
  destruct (Part000_checkNetwork_run netCap netUsed) as [Hn1 Hn2].
  assert (Hl : snd (Part000.checkLoad loadAvgStr loadAvg) = Some tt)
    by (unfold Part000.checkLoad; now destruct (f64_gt _ _)).
  destruct (bind_returns (Part000.checkLoad loadAvgStr loadAvg)
    (fun _ => Part000.checkMemory totalRAM usedRAM ;;;
              Part000.checkDisk totalDisk usedDisk ;;;
              Part000.checkNetwork netCap netUsed) tt Hl) as [_ ->].
  destruct (bind_returns (Part000.checkMemory totalRAM usedRAM)
    (fun _ => Part000.checkDisk totalDisk usedDisk ;;;
              Part000.checkNetwork netCap netUsed) tt Hm1) as [_ ->].
  destruct (bind_returns (Part000.checkDisk totalDisk usedDisk)
    (fun _ => Part000.checkNetwork netCap netUsed) tt Hd1) as [_ ->].
  rewrite Hm2, Hd2, Hn2. unfold Part000.checkLoad.
  destruct (f64_gt loadAvg loadAvgThreshold);
    destruct (crossesRatio Part000.memUsageThreshold totalRAM usedRAM);
    destruct (crossesRatio Part000.diskUsageThreshold totalDisk usedDisk);
    destruct (crossesRatio Part000.netUsageThreshold netCap netUsed);
    cbn; intros H;
    repeat (destruct H as [H|H]; [try discriminate H|]); try contradiction;
    injection H as <-; split; reflexivity.
Qed.

(** C6. In [part_000] the value printed in the load warning is always
    [trimTrailingZeros] of the text of the first field, trimmed of white
    space, which is the text that was parsed and found above 30. In
    [main.go] it is [trimTrailingZeros] of the first field as split, while
    the text parsed is that field trimmed. On the line of the specification
    both print "Load Average is too high: 31". On a first field "31.50 "
    [part_000] prints "Load Average is too high: 31.5" and [main.go]
    "Load Average is too high: 31.50 ". *)
Theorem load_warning_text :
  (forall (ParseFloat : string -> float64 * option strconv.NumError)
          (r : Fetch) (n : string),
      In (LoadHigh n) (messages (events (Part000.pollOnce ParseFloat r))) ->
      exists code body readErr f0 rest loadAvg,
        r = Response code body readErr
        /\ map strings.TrimSpace
             (strings.Split (strings.TrimSpace (Part000.ReadString body)) comma)
           = f0 :: rest
        /\ ParseFloat f0 = (loadAvg, None)
        /\ f64_gt loadAvg loadAvgThreshold = true
        /\ n = trimTrailingZeros f0)
  /\ (forall (ParseFloat : string -> float64 * option strconv.NumError)
             (r : Fetch) (n : string),
         In (LoadHigh n) (messages (events (Main.pollOnce ParseFloat r))) ->
         exists body f0 rest loadAvg,
           r = OK body
           /\ strings.Split (strings.TrimSpace body) comma = f0 :: rest
           /\ ParseFloat (strings.TrimSpace f0) = (loadAvg, None)
           /\ f64_gt loadAvg loadAvgThreshold = true
           /\ n = trimTrailingZeros f0)
  /\ (let line := "31,16000000000,14000000000,1000,500,1000,500" in
      stdout (events (Main.pollOnce strconv.ParseFloat_decimal (OK line)))
        = ["Load Average is too high: 31"; "Memory usage too high: 87%"]
      /\ stdout (events (Part000.pollOnce strconv.ParseFloat_decimal (OK line)))
         = ["Load Average is too high: 31"; "Memory usage too high: 88%"])
  /\ (let line := "31.50 ,16000000000,8000000000,1000,500,1000,500" in
      stdout (events (Part000.pollOnce strconv.ParseFloat_decimal (OK line)))
        = ["Load Average is too high: 31.5"]
      /\ stdout (events (Main.pollOnce strconv.ParseFloat_decimal (OK line)))
         = ["Load Average is too high: 31.50 "]).
Proof.
  split; [|split; [|split]].
  - intros ParseFloat r n H.
    destruct (Part000_pollOnce_cases ParseFloat r) as [[e He]|Hc].
    + rewrite He in H. contradiction.
    + destruct Hc as (code & body & re & f0 & f1 & f2 & f3 & f4 & f5 & f6 & la
                      & v1 & v2 & v3 & v4 & v5 & v6
                      & -> & Hf & Hp & _ & _ & _ & _ & _ & _ & Hpoll).
      rewrite Hpoll in H.
      rewrite (bind_run _ _ _ (proj1 (Part000_checks_run _ _ _ _ _ _ _ _))) in H.
      unfold events at 1 in H. cbn [fst] in H.
      unfold events at 2 in H. cbn [fst ret] in H. rewrite app_nil_r in H.
      destruct (Part000_checks_load _ _ _ _ _ _ _ _ _ H) as [Hgt Hn].
      exists code, body, re, f0, [f1; f2; f3; f4; f5; f6], la.
      repeat split; assumption.
  - intros ParseFloat r n H.
    destruct (Main_pollOnce_cases ParseFloat r) as [[e He]|Hc].
    + rewrite He in H. contradiction.
    + destruct Hc as (body & f0 & f1 & f2 & f3 & f4 & f5 & f6 & la
                      & -> & Hf & Hp & Hpoll).
      rewrite Hpoll in H.
      rewrite (bind_run _ _ _ (proj1 (Main_checks_run _ _ _ _ _ _ _ _))) in H.
      unfold events at 1 in H. cbn [fst] in H.
      unfold events at 2 in H. cbn [fst ret] in H. rewrite app_nil_r in H.
      destruct (Main_checks_load _ _ _ _ _ _ _ _ _ H) as [Hgt Hn].
      exists body, f0, [f1; f2; f3; f4; f5; f6], la.
      repeat split; assumption.
  - cbv zeta. split; vm_compute; reflexivity.
  - cbv zeta. split; vm_compute; reflexivity.
Qed.

Lemma load_warning_text_witness :
  let r := OK "  45.0 ,1,0,1,0,1,0" in
  In (LoadHigh "45") (messages (events (Part000.pollOnce strconv.ParseFloat_decimal r)))
  /\ exists code body readErr f0 rest loadAvg,
       r = Response code body readErr
       /\ map strings.TrimSpace
            (strings.Split (strings.TrimSpace (Part000.ReadString body)) comma)
          = f0 :: rest
       /\ strconv.ParseFloat_decimal f0 = (loadAvg, None)
       /\ f64_gt loadAvg loadAvgThreshold = true
       /\ "45" = trimTrailingZeros f0.
Proof.
  cbv zeta.
  assert (H : In (LoadHigh "45")
    (messages (events (Part000.pollOnce strconv.ParseFloat_decimal
                         (OK "  45.0 ,1,0,1,0,1,0")))))
    by (vm_compute; left; reflexivity).
  split; [exact H|].
  exact (proj1 load_warning_text strconv.ParseFloat_decimal _ _ H).
Defined.

(** ** [float64]: conversions and division *)

Lemma digits2_pos_spec (p : positive) :
  2 ^ (Zpos (digits2_pos p) - 1) <= Zpos p < 2 ^ Zpos (digits2_pos p).
Proof.
  induction p as [p IH|p IH|]; cbn [digits2_pos].
  - rewrite Pos2Z.inj_succ.
    replace (Z.succ (Zpos (digits2_pos p)) - 1) with (Zpos (digits2_pos p)) by lia.
    rewrite Z.pow_succ_r by lia.
    replace (Zpos (digits2_pos p)) with (Zpos (digits2_pos p) - 1 + 1) at 1 by lia.
    rewrite Z.pow_add_r by lia. change (2 ^ 1) with 2. lia.
  - rewrite Pos2Z.inj_succ.
    replace (Z.succ (Zpos (digits2_pos p)) - 1) with (Zpos (digits2_pos p)) by lia.
    rewrite Z.pow_succ_r by lia.
    replace (Zpos (digits2_pos p)) with (Zpos (digits2_pos p) - 1 + 1) at 1 by lia.
    rewrite Z.pow_add_r by lia. change (2 ^ 1) with 2. lia.
  - cbn. lia.
Qed.

Lemma pow2_lt_mono (a b : Z) : 0 <= a -> 2 ^ a < 2 ^ b -> a < b.
Proof.
  intros Ha H. destruct (Z.lt_ge_cases a b) as [|Hge]; [assumption|].
  destruct (Z.lt_ge_cases b 0) as [Hb|Hb].
  - rewrite (Z.pow_neg_r 2 b Hb) in H.
    pose proof (Z.pow_pos_nonneg 2 a ltac:(lia) Ha). lia.
  - pose proof (Z.pow_le_mono_r 2 b a ltac:(lia) Hge). lia.
Qed.

(** The number of binary digits of a positive integer is the one exponent
    that brackets it. *)
Lemma Zdigits2_unique (m d : Z) :
  2 ^ (d - 1) <= m < 2 ^ d -> 0 < d -> Zdigits2 m = d.
Proof.
  intros [Hlo Hhi] Hd.
  assert (Hm : 0 < m) by (pose proof (Z.pow_pos_nonneg 2 (d - 1)); lia).
  destruct m as [|p|p]; try lia. cbn [Zdigits2].
  pose proof (digits2_pos_spec p) as [Hlo' Hhi'].
  assert (H1 : d - 1 < Zpos (digits2_pos p)) by (apply pow2_lt_mono; lia).
  assert (H2 : Zpos (digits2_pos p) - 1 < d) by (apply pow2_lt_mono; lia).
  lia.
Qed.

Lemma fexp_normal (d : Z) : -1021 <= d -> fexp prec emax d = d - 53.
Proof. unfold fexp, emin, prec, emax. lia. Qed.

Lemma iter_pos_swap {A : Type} (f : A -> A) (p : positive) :
  forall x, iter_pos f p (f x) = f (iter_pos f p x).
Proof.
  induction p as [p IH|p IH|]; intros x; cbn [iter_pos].
  - now rewrite !IH.
  - now rewrite !IH.
  - reflexivity.
Qed.

Lemma iter_pos_succ {A : Type} (f : A -> A) (p : positive) (x : A) :
  iter_pos f (Pos.succ p) x = f (iter_pos f p x).
Proof.
  revert x. induction p as [p IH|p IH|]; intros x; cbn [iter_pos Pos.succ].
  - rewrite !IH, !iter_pos_swap. reflexivity.
  - rewrite !iter_pos_swap. reflexivity.
  - reflexivity.
Qed.

(** One shift to the right halves a mantissa that is not negative. *)
Lemma shr_1_m (mrs : shr_record) :
  0 <= shr_m mrs -> shr_m (shr_1 mrs) = shr_m mrs / 2.
Proof.
  destruct mrs as [m r s]. cbn [shr_m]. intros Hm.
  destruct m as [|[p|p|]|p]; cbn [shr_1 shr_m].
  - reflexivity.
  - rewrite Pos2Z.inj_xI. apply Z.div_unique with 1; lia.
  - rewrite Pos2Z.inj_xO. apply Z.div_unique with 0; lia.
  - reflexivity.
  - exfalso. lia.
Qed.

Lemma shr_iter_m (n : positive) (mrs : shr_record) :
  0 <= shr_m mrs ->
  shr_m (iter_pos shr_1 n mrs) = shr_m mrs / 2 ^ Zpos n.
Proof.
  revert mrs. induction n as [|n IH] using Pos.peano_ind; intros mrs Hm.
  - cbn [iter_pos]. rewrite shr_1_m by assumption. now rewrite Z.pow_1_r.
  - rewrite iter_pos_succ, shr_1_m.
    + rewrite IH by assumption. rewrite Pos2Z.inj_succ, Z.pow_succ_r by lia.
      rewrite Z.div_div by (try apply Z.pow_pos_nonneg; lia).
      f_equal. lia.
    + rewrite IH by assumption. apply Z.div_pos; [assumption|].
      apply Z.pow_pos_nonneg; lia.
Qed.

Lemma round_nearest_even_bounds (m : Z) (l : location) :
  m <= round_nearest_even m l <= m + 1.
Proof.
  destruct l as [|[ | | ]]; cbn [round_nearest_even];
    try destruct (Z.even m); lia.
Qed.

Lemma Pos_iter_xO (p : positive) (n : positive) :
  Zpos (Pos.iter xO p n) = Zpos p * 2 ^ Zpos n.
Proof.
  induction n as [|n IH] using Pos.peano_ind.
  - cbn [Pos.iter]. rewrite Z.pow_1_r. lia.
  - rewrite Pos.iter_succ, Pos2Z.inj_xO, IH, Pos2Z.inj_succ, Z.pow_succ_r by lia.
    lia.
Qed.

Lemma shr_m_of_loc (m : Z) (l : location) : shr_m (shr_record_of_loc m l) = m.
Proof. destruct l as [|[ | | ]]; reflexivity. Qed.

Lemma loc_of_shr_record_of_loc (m : Z) (l : location) :
  loc_of_shr_record (shr_record_of_loc m l) = l.
Proof. destruct l as [|[ | | ]]; reflexivity. Qed.

Lemma Zdigits2_pos_spec (m : Z) :
  0 < m -> 0 < Zdigits2 m /\ 2 ^ (Zdigits2 m - 1) <= m < 2 ^ Zdigits2 m.
Proof.
  destruct m as [|p|p]; try lia. intros _. cbn [Zdigits2].
  split; [lia|apply digits2_pos_spec].
Qed.

(** The shift that brings a mantissa to 53 digits leaves it positive. *)
Lemma shr_fexp_positive (m e : Z) (l : location) :
  0 < m -> -1074 <= e ->
  0 < shr_m (fst (shr_fexp prec emax m e l))
  /\ -1074 <= snd (shr_fexp prec emax m e l).
Proof.
  intros Hm He. unfold shr_fexp, shr.
  destruct (Zdigits2_pos_spec m Hm) as [Hd [Hlo Hhi]].
  remember (fexp prec emax (Zdigits2 m + e) - e) as n eqn:Hn.
  destruct n as [|k|k]; cbn [fst snd]; rewrite ?shr_m_of_loc; try (split; assumption).
  rewrite shr_iter_m by (rewrite shr_m_of_loc; lia).
  rewrite shr_m_of_loc.
  assert (Hk : Zpos k = Zdigits2 m - 53)
    by (unfold fexp, emin, prec, emax in Hn; lia).
  split; [|lia].
  apply Z.div_str_pos. split; [apply Z.pow_pos_nonneg; lia|].
  apply Z.le_trans with (2 ^ (Zdigits2 m - 1)); [|assumption].
  apply Z.pow_le_mono_r; lia.
Qed.

Lemma binary_round_aux_nonzero (s : bool) (m e : Z) (l : location) :
  0 < m -> -1074 <= e ->
  f64_is_zero (binary_round_aux prec emax s m e l) = false.
Proof.
  intros Hm He. unfold binary_round_aux.
  pose proof (shr_fexp_positive m e l Hm He) as [H1 H1e].
  destruct (shr_fexp prec emax m e l) as [mrs' e']. cbn [fst snd] in H1, H1e.
  pose proof (round_nearest_even_bounds (shr_m mrs') (loc_of_shr_record mrs')) as Hr.
  set (m2 := round_nearest_even (shr_m mrs') (loc_of_shr_record mrs')) in *.
  assert (Hm2 : 0 < m2) by lia.
  pose proof (shr_fexp_positive m2 e' loc_Exact Hm2 H1e) as [H2 _].
  destruct (shr_fexp prec emax m2 e' loc_Exact) as [mrs'' e'']. cbn [fst] in H2.
  destruct (shr_m mrs'') as [|p|p]; try lia.
  destruct (e'' <=? emax - prec); reflexivity.
Qed.

(** The conversion of a positive integer is not zero. *)
Lemma float64_of_Z_nonzero (z : Z) : 0 < z -> f64_is_zero (float64_of_Z z) = false.
Proof.
  destruct z as [|p|p]; try lia. intros _.
  unfold float64_of_Z, binary_normalize, binary_round, shl_align.
  pose proof (digits2_pos_spec p) as Hd.
  assert (Hf : fexp prec emax (Zpos (digits2_pos p) + 0) = Zpos (digits2_pos p) - 53)
    by (apply fexp_normal; lia).
  rewrite Hf.
  destruct (Zpos (digits2_pos p) - 53 - 0) as [|k|k] eqn:Hk;
    apply binary_round_aux_nonzero; lia.
Qed.

(** A mantissa of 53 digits with an exponent in range is not rounded. *)
Lemma binary_round_aux_exact (s : bool) (m : positive) (e : Z) :
  Zpos (digits2_pos m) = 53 -> -1074 <= e <= 971 ->
  binary_round_aux prec emax s (Zpos m) e loc_Exact = S754_finite s m e.
Proof.
  intros Hd He. unfold binary_round_aux, shr_fexp. cbn [Zdigits2].
  rewrite Hd, fexp_normal by lia.
  replace (53 + e - 53 - e) with 0 by lia.
  cbn [shr shr_record_of_loc shr_m loc_of_shr_record round_nearest_even Zdigits2].
  rewrite Hd, fexp_normal by lia.
  replace (53 + e - 53 - e) with 0 by lia.
  cbn [shr shr_record_of_loc shr_m].
  unfold emax, prec. destruct (Z.leb_spec e (1024 - 53)); [reflexivity|lia].
Qed.

(** An integer below [2 ^ 53] is converted exactly: its digits are moved to
    the top of the mantissa. *)
Lemma float64_of_Z_exact (u d : Z) :
  0 < u -> Zdigits2 u = d -> d <= 53 ->
  float64_of_Z u = S754_finite false (Z.to_pos (u * 2 ^ (53 - d))) (d - 53).
Proof.
  destruct u as [|p|p]; try lia. intros _ Hd Hle. cbn [Zdigits2] in Hd.
  unfold float64_of_Z, binary_normalize, binary_round, shl_align.
  pose proof (digits2_pos_spec p) as Hp. rewrite Hd in Hp.
  rewrite fexp_normal by lia. rewrite Hd.
  destruct (d + 0 - 53 - 0) as [|k|k] eqn:Hk; try lia.
  - assert (Hd53 : d = 53) by lia. rewrite Hd53 in *.
    rewrite binary_round_aux_exact by (assumption || lia).
    change (2 ^ (53 - 53)) with 1. rewrite Z.mul_1_r. reflexivity.
  - assert (Hk' : 53 - d = Zpos k) by lia.
    assert (Hm : Zpos (Pos.iter xO p k) = Zpos p * 2 ^ (53 - d))
      by (rewrite Hk'; apply Pos_iter_xO).
    assert (Hdm : Zpos (digits2_pos (Pos.iter xO p k)) = 53).
    { apply (Zdigits2_unique (Zpos (Pos.iter xO p k)) 53); [|lia].
      rewrite Hm.
      pose proof (Z.pow_pos_nonneg 2 (53 - d) ltac:(lia) ltac:(lia)).
      split.
      - apply Z.le_trans with (2 ^ (d - 1) * 2 ^ (53 - d)).
        + rewrite <- Z.pow_add_r by lia. apply Z.pow_le_mono_r; lia.
        + apply Z.mul_le_mono_nonneg_r; lia.
      - apply Z.lt_le_trans with (2 ^ d * 2 ^ (53 - d)).
        + apply Z.mul_lt_mono_pos_r; lia.
        + rewrite <- Z.pow_add_r by lia. apply Z.pow_le_mono_r; lia. }
    rewrite binary_round_aux_exact by (assumption || lia).
    rewrite <- Hm, Pos2Z.id. f_equal. lia.
Qed.


(** The comparison of two positive finite numbers. *)
Lemma SFltb_finite (m1 m2 : positive) (e1 e2 : Z) :
  SFltb (S754_finite false m1 e1) (S754_finite false m2 e2)
  = (e1 <? e2) || ((e1 =? e2) && (Zpos m1 <? Zpos m2)).
Proof.
  unfold SFltb, SFcompare.
  destruct (Z.compare_spec e1 e2) as [He|He|He].
  - subst e2. rewrite Z.ltb_irrefl, Z.eqb_refl. cbn [orb andb].
    rewrite Pos.compare_cont_spec. cbn [Pos.switch_Eq].
    unfold Z.ltb. cbn [Z.compare].
    destruct (Pos.compare m1 m2); reflexivity.
  - now apply Z.ltb_lt in He as ->.
  - destruct (Z.ltb_spec e1 e2); [lia|].
    destruct (Z.eqb_spec e1 e2); [lia|reflexivity].
Qed.

(** The end of [binary_round_aux]: a rounded mantissa of 53 digits is kept,
    one that reached [2 ^ 53] is halved. *)
Lemma round_tail (s : bool) (m1 e1 : Z) :
  2 ^ 52 <= m1 <= 2 ^ 53 -> -1074 <= e1 <= 970 ->
  (let '(mrs, e) := shr_fexp prec emax m1 e1 loc_Exact in
   match shr_m mrs with
   | Z0 => S754_zero s
   | Zpos m => if e <=? emax - prec then S754_finite s m e else S754_infinity s
   | Zneg _ => S754_nan
   end)
  = if m1 <? 2 ^ 53 then S754_finite s (Z.to_pos m1) e1
    else S754_finite s (Z.to_pos (2 ^ 52)) (e1 + 1).
Proof.
  intros Hm He. unfold shr_fexp.
  destruct (Z.ltb_spec m1 (2 ^ 53)) as [Hlt|Hge].
  - rewrite (Zdigits2_unique m1 53) by (change (53 - 1) with 52; lia).
    rewrite fexp_normal by lia.
    replace (53 + e1 - 53 - e1) with 0 by lia.
    cbn [shr shr_record_of_loc shr_m].
    destruct m1 as [|p|p]; try lia.
    unfold emax, prec. destruct (Z.leb_spec e1 (1024 - 53)); [reflexivity|lia].
  - assert (m1 = 2 ^ 53) by lia. subst m1.
    change (Zdigits2 (2 ^ 53)) with 54.
    rewrite fexp_normal by lia.
    replace (54 + e1 - 53 - e1) with 1 by lia.
    cbn [shr iter_pos]. change (2 ^ 53) with 9007199254740992.
    cbn [shr_record_of_loc shr_1 shr_m orb].
    unfold emax, prec. destruct (Z.leb_spec (e1 + 1) (1024 - 53)); [reflexivity|lia].
Qed.

(** The location of a quotient from its remainder. *)
Lemma new_location_spec (b r : Z) :
  0 < b -> 0 <= r < b ->
  new_location b r = if r =? 0 then loc_Exact else loc_Inexact (Z.compare (2 * r) b).
Proof.
  intros Hb Hr. unfold new_location, new_location_even, new_location_odd.
  destruct (Z.even b) eqn:Hev; [reflexivity|].
  destruct (r =? 0); [reflexivity|]. f_equal.
  assert (Hodd : Z.odd b = true) by (rewrite <- Z.negb_even, Hev; reflexivity).
  apply Z.odd_spec in Hodd. destruct Hodd as [c Hc].
  destruct (Z.compare_spec (2 * r + 1) b); destruct (Z.compare_spec (2 * r) b);
    try reflexivity; lia.
Qed.

(** The division of two numbers with mantissas of 53 digits, before
    rounding: the quotient of the first mantissa, moved 53 digits up, by
    the second. *)
Lemma SFdiv_normal (a b : positive) (ea eb : Z) :
  Zpos (digits2_pos a) = 53 -> Zpos (digits2_pos b) = 53 ->
  -1021 <= ea - eb ->
  f64_div (S754_finite false a ea) (S754_finite false b eb)
  = binary_round_aux prec emax false
      (Zpos a * 2 ^ 53 / Zpos b) (ea - eb - 53)
      (if Zpos a * 2 ^ 53 mod Zpos b =? 0 then loc_Exact
       else loc_Inexact (Z.compare (2 * (Zpos a * 2 ^ 53 mod Zpos b)) (Zpos b))).
Proof.
  intros Ha Hb Hk. unfold f64_div, SFdiv, SFdiv_core_binary. cbn [Zdigits2 xorb].
  rewrite Ha, Hb.
  replace (53 + ea - (53 + eb)) with (ea - eb) by lia.
  rewrite fexp_normal by lia.
  rewrite Z.min_l by lia.
  replace (ea - eb - (ea - eb - 53)) with 53 by lia.
  rewrite Z.shiftl_mul_pow2 by lia.
  pose proof (Z.mod_pos_bound (Zpos a * 2 ^ 53) (Zpos b) ltac:(lia)) as Hr.
  unfold Z.div, Z.modulo in *.
  destruct (Z.div_eucl (Zpos a * 2 ^ 53) (Zpos b)) as [q r].
  rewrite new_location_spec by lia. reflexivity.
Qed.

Lemma shr_fexp_53 (q e : Z) (l : location) :
  2 ^ 52 <= q < 2 ^ 53 -> -1074 <= e ->
  shr_fexp prec emax q e l = (shr_record_of_loc q l, e).
Proof.
  intros Hq He. unfold shr_fexp.
  rewrite (Zdigits2_unique q 53) by (change (53 - 1) with 52; lia).
  rewrite fexp_normal by lia.
  replace (53 + e - 53 - e) with 0 by lia. reflexivity.
Qed.

Lemma shr_fexp_54 (q e : Z) (l : location) :
  2 ^ 53 <= q < 2 ^ 54 -> -1074 <= e ->
  shr_fexp prec emax q e l = (shr_1 (shr_record_of_loc q l), e + 1).
Proof.
  intros Hq He. unfold shr_fexp.
  rewrite (Zdigits2_unique q 54) by (change (54 - 1) with 53; lia).
  rewrite fexp_normal by lia.
  replace (54 + e - 53 - e) with 1 by lia. reflexivity.
Qed.

Lemma loc_of_shr_1 (q : Z) (l : location) :
  0 < q ->
  loc_of_shr_record (shr_1 (shr_record_of_loc q l)) = shifted_location q l.
Proof.
  intros Hq. destruct q as [|[p|p|]|p]; try lia;
    destruct l as [|[ | | ]]; reflexivity.
Qed.

Lemma round_53 (q e : Z) (l : location) :
  2 ^ 52 <= q < 2 ^ 53 -> -1074 <= e <= 970 ->
  binary_round_aux prec emax false q e l
  = if round_nearest_even q l <? 2 ^ 53
    then S754_finite false (Z.to_pos (round_nearest_even q l)) e
    else S754_finite false (Z.to_pos (2 ^ 52)) (e + 1).
Proof.
  intros Hq He. unfold binary_round_aux.
  rewrite shr_fexp_53 by lia.
  rewrite shr_m_of_loc, loc_of_shr_record_of_loc.
  pose proof (round_nearest_even_bounds q l).
  apply round_tail; lia.
Qed.

Lemma round_54 (q e : Z) (l : location) :
  2 ^ 53 <= q < 2 ^ 54 -> -1074 <= e <= 969 ->
  binary_round_aux prec emax false q e l
  = if round_nearest_even (q / 2) (shifted_location q l) <? 2 ^ 53
    then S754_finite false
           (Z.to_pos (round_nearest_even (q / 2) (shifted_location q l))) (e + 1)
    else S754_finite false (Z.to_pos (2 ^ 52)) (e + 1 + 1).
Proof.
  intros Hq He. unfold binary_round_aux.
  rewrite shr_fexp_54 by lia.
  rewrite shr_1_m, shr_m_of_loc by (rewrite shr_m_of_loc; lia).
  rewrite loc_of_shr_1 by lia.
  pose proof (round_nearest_even_bounds (q / 2) (shifted_location q l)).
  assert (2 ^ 52 <= q / 2 < 2 ^ 53).
  { change (2 ^ 53) with (2 ^ 52 * 2) in Hq. change (2 ^ 54) with (2 ^ 53 * 2) in Hq.
    split; [apply Z.div_le_lower_bound|apply Z.div_lt_upper_bound]; lia. }
  apply round_tail; lia.
Qed.

(** Rounding the quotient of [n] by [b] to the nearest integer, ties to
    even, lands above the integer [mc] exactly when the quotient is above
    [mc + 1/2], or equal to it when [mc] is odd. *)
Lemma round_quotient_above (n b q r mc : Z) :
  n = b * q + r -> 0 <= r < b ->
  (mc <? round_nearest_even q (quotient_location b r))
  = if Z.even mc then (2 * mc + 1) * b <? 2 * n else (2 * mc + 1) * b <=? 2 * n.
Proof.
  intros Hn Hr. unfold quotient_location.
  assert (Hcase : q < mc \/ q = mc \/ mc < q) by lia.
  destruct Hcase as [Hq|[Hq|Hq]].
  - (* below: even rounded up, the result stays at or under [mc] *)
    pose proof (round_nearest_even_bounds q
      (if r =? 0 then loc_Exact else loc_Inexact (2 * r ?= b))) as Hb.
    assert (H1 : (q + 1) * b <= mc * b) by (apply Z.mul_le_mono_nonneg_r; lia).
    destruct (Z.ltb_spec mc (round_nearest_even q
      (if r =? 0 then loc_Exact else loc_Inexact (2 * r ?= b)))); [lia|].
    destruct (Z.even mc);
      [destruct (Z.ltb_spec ((2 * mc + 1) * b) (2 * n))
      |destruct (Z.leb_spec ((2 * mc + 1) * b) (2 * n))]; try reflexivity; nia.
  - subst q.
    destruct (Z.eqb_spec r 0) as [Hr0|Hr0]; cbn [round_nearest_even].
    + rewrite Z.ltb_irrefl.
      destruct (Z.even mc);
        [destruct (Z.ltb_spec ((2 * mc + 1) * b) (2 * n))
        |destruct (Z.leb_spec ((2 * mc + 1) * b) (2 * n))]; try reflexivity; nia.
    + destruct (Z.compare_spec (2 * r) b) as [Hc|Hc|Hc]; cbn [round_nearest_even].
      * destruct (Z.even mc) eqn:Hev.
        -- rewrite Z.ltb_irrefl.
           destruct (Z.ltb_spec ((2 * mc + 1) * b) (2 * n)); [nia|reflexivity].
        -- destruct (Z.ltb_spec mc (mc + 1)); [|lia].
           destruct (Z.leb_spec ((2 * mc + 1) * b) (2 * n)); [reflexivity|nia].
      * rewrite Z.ltb_irrefl.
        destruct (Z.even mc);
          [destruct (Z.ltb_spec ((2 * mc + 1) * b) (2 * n))
          |destruct (Z.leb_spec ((2 * mc + 1) * b) (2 * n))]; try reflexivity; nia.
      * destruct (Z.ltb_spec mc (mc + 1)); [|lia].
        destruct (Z.even mc);
          [destruct (Z.ltb_spec ((2 * mc + 1) * b) (2 * n))
          |destruct (Z.leb_spec ((2 * mc + 1) * b) (2 * n))]; try reflexivity; nia.
  - pose proof (round_nearest_even_bounds q
      (if r =? 0 then loc_Exact else loc_Inexact (2 * r ?= b))) as Hb.
    assert (H1 : (mc + 1) * b <= q * b) by (apply Z.mul_le_mono_nonneg_r; lia).
    destruct (Z.ltb_spec mc (round_nearest_even q
      (if r =? 0 then loc_Exact else loc_Inexact (2 * r ?= b)))); [|lia].
    destruct (Z.even mc);
      [destruct (Z.ltb_spec ((2 * mc + 1) * b) (2 * n))
      |destruct (Z.leb_spec ((2 * mc + 1) * b) (2 * n))]; try reflexivity; nia.
Qed.

(** The same after one shift of the quotient: the comparison is with
    [2 * mc + 1], that is, the quotient halved is compared with
    [mc + 1/2]. *)
Lemma round_half_quotient_above (n b q r mc : Z) :
  n = b * q + r -> 0 <= r < b -> 0 < q ->
  (mc <? round_nearest_even (q / 2) (shifted_location q (quotient_location b r)))
  = if Z.even mc then (2 * mc + 1) * b <? n else (2 * mc + 1) * b <=? n.
Proof.
  intros Hn Hr Hq0. unfold quotient_location, shifted_location.
  assert (Hbit : (Z.odd q = false /\ q = 2 * (q / 2))
                 \/ (Z.odd q = true /\ q = 2 * (q / 2) + 1)).
  { destruct (Z.odd q) eqn:Hodd.
    - right. split; [reflexivity|].
      apply Z.odd_spec in Hodd. destruct Hodd as [c Hc].
      rewrite Hc at 2. replace (2 * c + 1) with (1 + c * 2) by lia.
      rewrite Z.div_add by lia. change (1 / 2) with 0. lia.
    - left. split; [reflexivity|].
      rewrite <- Z.negb_even in Hodd. apply negb_false_iff in Hodd.
      apply Z.even_spec in Hodd. destruct Hodd as [c Hc].
      rewrite Hc at 2. replace (2 * c) with (c * 2) by lia.
      rewrite Z.div_mul by lia. lia. }
  set (h := q / 2) in *.
  assert (Hcase : h < mc \/ h = mc \/ mc < h) by lia.
  destruct Hcase as [Hh|[Hh|Hh]].
  - assert (H1 : q * b <= (2 * mc - 1) * b) by (apply Z.mul_le_mono_nonneg_r; lia).
    match goal with |- (mc <? round_nearest_even h ?l) = _ =>
      pose proof (round_nearest_even_bounds h l);
      destruct (Z.ltb_spec mc (round_nearest_even h l)); [lia|] end.
    destruct (Z.even mc);
      [destruct (Z.ltb_spec ((2 * mc + 1) * b) n)
      |destruct (Z.leb_spec ((2 * mc + 1) * b) n)]; try reflexivity; nia.
  - subst mc.
    destruct Hbit as [[Hodd Hq]|[Hodd Hq]]; rewrite Hodd.
    + assert (Hres : forall l, round_nearest_even h
        match l with loc_Exact => loc_Exact | loc_Inexact _ => loc_Inexact Lt end = h)
        by (intros [|c]; reflexivity).
      rewrite Hres, Z.ltb_irrefl.
      destruct (Z.even h);
        [destruct (Z.ltb_spec ((2 * h + 1) * b) n)
        |destruct (Z.leb_spec ((2 * h + 1) * b) n)]; try reflexivity; nia.
    + destruct (Z.eqb_spec r 0) as [Hr0|Hr0]; cbn [round_nearest_even].
      * destruct (Z.even h) eqn:Hev.
        -- rewrite Z.ltb_irrefl.
           destruct (Z.ltb_spec ((2 * h + 1) * b) n); [nia|reflexivity].
        -- destruct (Z.ltb_spec h (h + 1)); [|lia].
           destruct (Z.leb_spec ((2 * h + 1) * b) n); [reflexivity|nia].
      * destruct (Z.ltb_spec h (h + 1)); [|lia].
        destruct (Z.even h);
          [destruct (Z.ltb_spec ((2 * h + 1) * b) n)
          |destruct (Z.leb_spec ((2 * h + 1) * b) n)]; try reflexivity; nia.
  - assert (H1 : (2 * mc + 2) * b <= q * b) by (apply Z.mul_le_mono_nonneg_r; lia).
    match goal with |- (mc <? round_nearest_even h ?l) = _ =>
      pose proof (round_nearest_even_bounds h l);
      destruct (Z.ltb_spec mc (round_nearest_even h l)); [|lia] end.
    destruct (Z.even mc);
      [destruct (Z.ltb_spec ((2 * mc + 1) * b) n)
      |destruct (Z.leb_spec ((2 * mc + 1) * b) n)]; try reflexivity; nia.
Qed.

Lemma above_threshold_high (mc a b k : Z) :
  2 ^ 52 <= a -> 0 < b < 2 ^ 53 -> 0 <= mc <= 2 ^ 53 - 2 -> 1 <= k ->
  above_threshold mc a b k = true.
Proof.
  intros Ha Hb Hmc Hk. unfold above_threshold.
  rewrite (Z.max_l k 0), (Z.max_r (- k) 0) by lia. rewrite Z.mul_1_r.
  assert (HP : 2 ^ 55 <= 2 ^ (54 + k)) by (apply Z.pow_le_mono_r; lia).
  assert (H1 : 2 ^ 52 * 2 ^ 55 <= a * 2 ^ (54 + k))
    by (apply Z.mul_le_mono_nonneg; lia).
  assert (H2 : (2 * mc + 1) * b < 2 ^ 54 * 2 ^ 53).
  { apply Z.le_lt_trans with ((2 * mc + 1) * 2 ^ 53).
    - apply Z.mul_le_mono_nonneg_l; lia.
    - apply Z.mul_lt_mono_pos_r; lia. }
  change (2 ^ 52 * 2 ^ 55) with (2 ^ 54 * 2 ^ 53) in H1.
  destruct (Z.even mc);
    [apply Z.ltb_lt|apply Z.leb_le]; lia.
Qed.

Lemma above_threshold_low (mc a b k : Z) :
  0 < a < 2 ^ 53 -> 2 ^ 52 <= b -> 2 ^ 52 <= mc -> k <= -2 ->
  above_threshold mc a b k = false.
Proof.
  intros Ha Hb Hmc Hk. unfold above_threshold.
  rewrite (Z.max_r k 0), (Z.max_l (- k) 0) by lia. rewrite Z.add_0_r.
  assert (HP : 2 ^ 2 <= 2 ^ (- k)) by (apply Z.pow_le_mono_r; lia).
  assert (H1 : 2 ^ 53 * 2 ^ 52 <= (2 * mc + 1) * b)
    by (apply Z.mul_le_mono_nonneg; lia).
  assert (H2 : 2 ^ 53 * 2 ^ 52 * 2 ^ 2 <= (2 * mc + 1) * b * 2 ^ (- k))
    by (apply Z.mul_le_mono_nonneg; lia).
  assert (H3 : a * 2 ^ 54 < 2 ^ 53 * 2 ^ 54)
    by (apply Z.mul_lt_mono_pos_r; lia).
  change (2 ^ 53 * 2 ^ 52 * 2 ^ 2) with (2 ^ 53 * 2 ^ 54) in H2.
  destruct (Z.even mc);
    [apply Z.ltb_ge|apply Z.leb_gt]; lia.
Qed.

Lemma above_threshold_0 (mc a b : Z) :
  above_threshold mc a b 0
  = if Z.even mc then (2 * mc + 1) * b <? 2 * (a * 2 ^ 53)
    else (2 * mc + 1) * b <=? 2 * (a * 2 ^ 53).
Proof.
  unfold above_threshold.
  change (Z.max 0 0) with 0. change (Z.max (- 0) 0) with 0.
  change (54 + 0) with 54. change (2 ^ 0) with 1. rewrite Z.mul_1_r.
  replace (2 * (a * 2 ^ 53)) with (a * 2 ^ 54)
    by (change (2 ^ 54) with (2 * 2 ^ 53); lia).
  reflexivity.
Qed.

Lemma above_threshold_m1 (mc a b : Z) :
  above_threshold mc a b (-1)
  = if Z.even mc then (2 * mc + 1) * b <? a * 2 ^ 53
    else (2 * mc + 1) * b <=? a * 2 ^ 53.
Proof.
  unfold above_threshold.
  change (Z.max (-1) 0) with 0. change (Z.max (- -1) 0) with 1.
  change (54 + 0) with 54.
  change (2 ^ 1) with 2. change (2 ^ 54) with (2 ^ 53 * 2).
  destruct (Z.even mc).
  - destruct (Z.ltb_spec ((2 * mc + 1) * b * 2) (a * (2 ^ 53 * 2)));
      destruct (Z.ltb_spec ((2 * mc + 1) * b) (a * 2 ^ 53)); try reflexivity; lia.
  - destruct (Z.leb_spec ((2 * mc + 1) * b * 2) (a * (2 ^ 53 * 2)));
      destruct (Z.leb_spec ((2 * mc + 1) * b) (a * 2 ^ 53)); try reflexivity; lia.
Qed.

(** Division of two [float64] with full mantissas, compared with a
    threshold between 1/2 and 1. *)
Lemma f64_div_gt_normal (a b mc : positive) (ea eb : Z) :
  2 ^ 52 <= Zpos a < 2 ^ 53 -> 2 ^ 52 <= Zpos b < 2 ^ 53 ->
  2 ^ 52 <= Zpos mc <= 2 ^ 53 - 2 ->
  -900 <= ea - eb <= 900 ->
  f64_gt (f64_div (S754_finite false a ea) (S754_finite false b eb))
         (S754_finite false mc (-53))
  = above_threshold (Zpos mc) (Zpos a) (Zpos b) (ea - eb).
Proof.
  intros Ha Hb Hmc Hk.
  assert (Hda : Zpos (digits2_pos a) = 53)
    by (apply (Zdigits2_unique (Zpos a) 53); [exact Ha|lia]).
  assert (Hdb : Zpos (digits2_pos b) = 53)
    by (apply (Zdigits2_unique (Zpos b) 53); [exact Hb|lia]).
  unfold f64_gt. rewrite SFdiv_normal by (assumption || lia).
  pose proof (Z.div_mod (Zpos a * 2 ^ 53) (Zpos b) ltac:(lia)) as Hdm.
  pose proof (Z.mod_pos_bound (Zpos a * 2 ^ 53) (Zpos b) ltac:(lia)) as Hr.
  set (q := Zpos a * 2 ^ 53 / Zpos b) in *.
  set (r := Zpos a * 2 ^ 53 mod Zpos b) in *.
  set (k := ea - eb) in *.
  change (if r =? 0 then loc_Exact else loc_Inexact (2 * r ?= Zpos b))
    with (quotient_location (Zpos b) r).
  assert (Hq : 2 ^ 52 <= q < 2 ^ 54).
  { change (2 ^ 52) with 4503599627370496 in *.
    change (2 ^ 53) with 9007199254740992 in *.
    change (2 ^ 54) with 18014398509481984. nia. }
  pose proof (round_quotient_above _ _ _ _ (Zpos mc) Hdm Hr) as HA.
  pose proof (round_half_quotient_above _ _ _ _ (Zpos mc) Hdm Hr ltac:(lia)) as HB.
  pose proof (round_nearest_even_bounds q (quotient_location (Zpos b) r)) as HbA.
  pose proof (round_nearest_even_bounds (q / 2)
                (shifted_location q (quotient_location (Zpos b) r))) as HbB.
  set (mA := round_nearest_even q (quotient_location (Zpos b) r)) in *.
  set (mB := round_nearest_even (q / 2)
               (shifted_location q (quotient_location (Zpos b) r))) in *.
  assert (Hq2 : q < 2 ^ 53 \/ 2 ^ 53 <= q) by lia.
  assert (Hab : q < 2 ^ 53 <-> Zpos a < Zpos b).
  { change (2 ^ 53) with 9007199254740992 in *. split; intros; nia. }
  assert (Hh : 2 ^ 53 <= q -> 2 ^ 52 <= q / 2 < 2 ^ 53).
  { intros Hge. change (2 ^ 53) with (2 ^ 52 * 2) in Hge.
    change (2 ^ 54) with (2 ^ 53 * 2) in Hq.
    split; [apply Z.div_le_lower_bound|apply Z.div_lt_upper_bound]; lia. }
  assert (Hkc : 1 <= k \/ k = 0 \/ k = -1 \/ k <= -2) by lia.
  destruct Hq2 as [HqA|HqB].
  - rewrite round_53 by lia. fold mA.
    destruct (Z.ltb_spec mA (2 ^ 53)) as [Hm|Hm]; rewrite SFltb_finite;
      rewrite Z2Pos.id by lia.
    + destruct Hkc as [Hk1|[Hk0|[Hk1|Hk2]]].
      * rewrite above_threshold_high by lia.
        destruct (Z.ltb_spec (-53) (k - 53)); [reflexivity|lia].
      * rewrite Hk0, above_threshold_0, <- HA. reflexivity.
      * rewrite Hk1, above_threshold_m1.
        cbn [Z.sub Z.add Z.opp Z.pos_sub Z.ltb Z.eqb Z.compare Pos.compare
             Pos.compare_cont orb andb].
        symmetry. change (2 ^ 53) with 9007199254740992 in *.
        change (2 ^ 52) with 4503599627370496 in *.
        destruct (Z.even (Zpos mc)); [apply Z.ltb_ge|apply Z.leb_gt]; nia.
      * rewrite above_threshold_low by lia.
        destruct (Z.ltb_spec (-53) (k - 53)); [lia|].
        destruct (Z.eqb_spec (-53) (k - 53)); [lia|reflexivity].
    + destruct Hkc as [Hk1|[Hk0|[Hk1|Hk2]]].
      * rewrite above_threshold_high by lia.
        destruct (Z.ltb_spec (-53) (k - 53 + 1)); [reflexivity|lia].
      * rewrite Hk0, above_threshold_0, <- HA. fold mA.
        destruct (Z.ltb_spec (Zpos mc) mA); [reflexivity|lia].
      * rewrite Hk1, above_threshold_m1.
        change (-1 - 53 + 1) with (-53). rewrite Z.ltb_irrefl, Z.eqb_refl.
        cbn [orb andb].
        destruct (Z.ltb_spec (Zpos mc) (2 ^ 52)); [lia|].
        symmetry. change (2 ^ 53) with 9007199254740992 in *.
        change (2 ^ 52) with 4503599627370496 in *.
        destruct (Z.even (Zpos mc)); [apply Z.ltb_ge|apply Z.leb_gt]; nia.
      * rewrite above_threshold_low by lia.
        destruct (Z.ltb_spec (-53) (k - 53 + 1)); [lia|].
        destruct (Z.eqb_spec (-53) (k - 53 + 1)); [lia|reflexivity].
  - rewrite round_54 by lia. fold mB. specialize (Hh HqB).
    destruct (Z.ltb_spec mB (2 ^ 53)) as [Hm|Hm]; rewrite SFltb_finite;
      rewrite Z2Pos.id by lia.
    + destruct Hkc as [Hk1|[Hk0|[Hk1|Hk2]]].
      * rewrite above_threshold_high by lia.
        destruct (Z.ltb_spec (-53) (k - 53 + 1)); [reflexivity|lia].
      * rewrite Hk0, above_threshold_0.
        change (0 - 53 + 1) with (-52). cbn [Z.ltb Z.compare Pos.compare
          Pos.compare_cont orb CompOpp].
        symmetry. change (2 ^ 53) with 9007199254740992 in *.
        change (2 ^ 52) with 4503599627370496 in *.
        destruct (Z.even (Zpos mc)); [apply Z.ltb_lt|apply Z.leb_le]; nia.
      * rewrite Hk1, above_threshold_m1, <- HB. fold mB.
        change (-1 - 53 + 1) with (-53). rewrite Z.ltb_irrefl, Z.eqb_refl.
        reflexivity.
      * rewrite above_threshold_low by lia.
        destruct (Z.ltb_spec (-53) (k - 53 + 1)); [lia|].
        destruct (Z.eqb_spec (-53) (k - 53 + 1)); [lia|reflexivity].
    + destruct Hkc as [Hk1|[Hk0|[Hk1|Hk2]]].
      * rewrite above_threshold_high by lia.
        destruct (Z.ltb_spec (-53) (k - 53 + 1 + 1)); [reflexivity|lia].
      * rewrite Hk0, above_threshold_0.
        change (0 - 53 + 1 + 1) with (-51). cbn [Z.ltb Z.compare Pos.compare
          Pos.compare_cont orb CompOpp].
        symmetry. change (2 ^ 53) with 9007199254740992 in *.
        change (2 ^ 52) with 4503599627370496 in *.
        destruct (Z.even (Zpos mc)); [apply Z.ltb_lt|apply Z.leb_le]; nia.
      * rewrite Hk1, above_threshold_m1, <- HB. fold mB.
        change (-1 - 53 + 1 + 1) with (-52).
        cbn [Z.ltb Z.compare Pos.compare Pos.compare_cont orb CompOpp].
        destruct (Z.ltb_spec (Zpos mc) mB); [reflexivity|lia].
      * rewrite above_threshold_low by lia.
        destruct (Z.ltb_spec (-53) (k - 53 + 1 + 1)); [lia|].
        destruct (Z.eqb_spec (-53) (k - 53 + 1 + 1)) as [He|He]; [|reflexivity].
        cbn [orb andb].
        destruct (Z.ltb_spec (Zpos mc) (2 ^ 52)); [lia|reflexivity].
Qed.

Lemma ltb_scale (x y s : Z) : 0 < s -> (x * s <? y * s) = (x <? y).
Proof.
  intros Hs. destruct (Z.ltb_spec x y); destruct (Z.ltb_spec (x * s) (y * s));
    try reflexivity; nia.
Qed.

Lemma leb_scale (x y s : Z) : 0 < s -> (x * s <=? y * s) = (x <=? y).
Proof.
  intros Hs. destruct (Z.leb_spec x y); destruct (Z.leb_spec (x * s) (y * s));
    try reflexivity; nia.
Qed.

(** [above_threshold] on two mantissas that come from integers [u] and [t]
    of [du] and [dt] digits is the comparison of [u / t] itself. *)
Lemma above_threshold_integers (mc u t du dt : Z) :
  0 < du <= 53 -> 0 < dt <= 53 ->
  above_threshold mc (u * 2 ^ (53 - du)) (t * 2 ^ (53 - dt)) (du - dt)
  = if Z.even mc then (2 * mc + 1) * t <? u * 2 ^ 54
    else (2 * mc + 1) * t <=? u * 2 ^ 54.
Proof.
  intros Hdu Hdt. unfold above_threshold.
  destruct (Z.le_ge_cases dt du) as [Hle|Hle].
  - rewrite (Z.max_l (du - dt) 0), (Z.max_r (- (du - dt)) 0) by lia.
    change (2 ^ 0) with 1. rewrite Z.mul_1_r.
    replace (u * 2 ^ (53 - du) * 2 ^ (54 + (du - dt)))
      with (u * 2 ^ 54 * 2 ^ (53 - dt)).
    2:{ rewrite <- !Z.mul_assoc. f_equal. rewrite <- !Z.pow_add_r by lia.
        f_equal. lia. }
    rewrite Z.mul_assoc.
    rewrite ltb_scale, leb_scale by (apply Z.pow_pos_nonneg; lia).
    reflexivity.
  - rewrite (Z.max_r (du - dt) 0), (Z.max_l (- (du - dt)) 0) by lia.
    rewrite Z.add_0_r.
    replace ((2 * mc + 1) * (t * 2 ^ (53 - dt)) * 2 ^ (- (du - dt)))
      with ((2 * mc + 1) * t * 2 ^ (53 - du)).
    2:{ rewrite <- !Z.mul_assoc. do 2 f_equal. rewrite <- !Z.pow_add_r by lia.
        f_equal. lia. }
    replace (u * 2 ^ (53 - du) * 2 ^ 54) with (u * 2 ^ 54 * 2 ^ (53 - du)) by lia.
    rewrite ltb_scale, leb_scale by (apply Z.pow_pos_nonneg; lia).
    reflexivity.
Qed.

Lemma normal_mantissa (u : Z) :
  0 < u < 2 ^ 53 ->
  0 < Zdigits2 u <= 53
  /\ 2 ^ 52 <= u * 2 ^ (53 - Zdigits2 u) < 2 ^ 53.
Proof.
  intros Hu. destruct (Zdigits2_pos_spec u ltac:(lia)) as [Hd [Hlo Hhi]].
  assert (Hd53 : Zdigits2 u <= 53).
  { assert (Zdigits2 u - 1 < 53) by (apply pow2_lt_mono; lia). lia. }
  split; [lia|].
  pose proof (Z.pow_pos_nonneg 2 (53 - Zdigits2 u) ltac:(lia) ltac:(lia)).
  split.
  - apply Z.le_trans with (2 ^ (Zdigits2 u - 1) * 2 ^ (53 - Zdigits2 u)).
    + rewrite <- Z.pow_add_r by lia. apply Z.pow_le_mono_r; lia.
    + apply Z.mul_le_mono_nonneg_r; lia.
  - apply Z.lt_le_trans with (2 ^ Zdigits2 u * 2 ^ (53 - Zdigits2 u)).
    + apply Z.mul_lt_mono_pos_r; lia.
    + rewrite <- Z.pow_add_r by lia. apply Z.pow_le_mono_r; lia.
Qed.

(** The test [float64(u) / float64(t) > c] of [part_000], for integers
    below [2 ^ 53] and a threshold [c] between 1/2 and 1 of mantissa [mc]:
    it holds exactly when [u / t] is above the middle of [c] and the next
    [float64], or equal to it when the mantissa of [c] is odd. *)
Lemma ratio_test_exact (u t : Z) (mc : positive) :
  0 <= u < 2 ^ 53 -> 0 < t < 2 ^ 53 -> 2 ^ 52 <= Zpos mc <= 2 ^ 53 - 2 ->
  f64_gt (f64_div (float64_of_Z u) (float64_of_Z t)) (S754_finite false mc (-53))
  = if Z.even (Zpos mc) then (2 * Zpos mc + 1) * t <? u * 2 ^ 54
    else (2 * Zpos mc + 1) * t <=? u * 2 ^ 54.
Proof.
  intros Hu Ht Hmc.
  destruct (normal_mantissa t Ht) as [Hdt Hb].
  rewrite (float64_of_Z_exact t (Zdigits2 t)) by lia.
  destruct (Z.eq_dec u 0) as [->|Hu0].
  - change (float64_of_Z 0) with (S754_zero false).
    change (f64_gt (f64_div (S754_zero false)
              (S754_finite false (Z.to_pos (t * 2 ^ (53 - Zdigits2 t)))
                 (Zdigits2 t - 53)))
              (S754_finite false mc (-53))) with false.
    rewrite Z.mul_0_l.
    assert (0 < (2 * Zpos mc + 1) * t) by nia.
    destruct (Z.even (Zpos mc));
      [destruct (Z.ltb_spec ((2 * Zpos mc + 1) * t) 0)
      |destruct (Z.leb_spec ((2 * Zpos mc + 1) * t) 0)]; try lia; reflexivity.
  - destruct (normal_mantissa u ltac:(lia)) as [Hdu Ha].
    rewrite (float64_of_Z_exact u (Zdigits2 u)) by lia.
    rewrite f64_div_gt_normal; rewrite ?Z2Pos.id by lia; try lia.
    replace (Zdigits2 u - 53 - (Zdigits2 t - 53)) with (Zdigits2 u - Zdigits2 t)
      by lia.
    now apply above_threshold_integers.
Qed.

(** For totals up to [2 ^ 50] and values below [2 ^ 53], the two tests of
    [part_000] are the exact comparisons of the ratio with 0.80 and 0.90. *)
Lemma crossesRatio_exact (total used : Z) :
  0 <= used < 2 ^ 53 -> 0 < total <= 2 ^ 50 ->
  crossesRatio Part000.memUsageThreshold total used = (4 * total <? 5 * used)
  /\ crossesRatio Part000.diskUsageThreshold total used = (9 * total <? 10 * used)
  /\ crossesRatio Part000.netUsageThreshold total used = (9 * total <? 10 * used).
Proof.
  intros Hu Ht. unfold crossesRatio.
  destruct (Z.ltb_spec 0 total); [|lia]. cbn [andb].
  change Part000.memUsageThreshold with (S754_finite false 7205759403792794 (-53)).
  change Part000.diskUsageThreshold with (S754_finite false 8106479329266893 (-53)).
  change Part000.netUsageThreshold with (S754_finite false 8106479329266893 (-53)).
  change (2 ^ 50) with 1125899906842624 in Ht.
  change (2 ^ 53) with 9007199254740992 in Hu.
  rewrite !ratio_test_exact
    by (change (2 ^ 53) with 9007199254740992;
        change (2 ^ 52) with 4503599627370496; lia).
  change (Z.even (Zpos 7205759403792794)) with true.
  change (Z.even (Zpos 8106479329266893)) with false.
  change (2 ^ 54) with 18014398509481984. cbv iota.
  repeat split.
  - destruct (Z.ltb_spec (4 * total) (5 * used));
      [apply Z.ltb_lt|apply Z.ltb_ge]; lia.
  - destruct (Z.ltb_spec (9 * total) (10 * used));
      [apply Z.leb_le|apply Z.leb_gt]; lia.
  - destruct (Z.ltb_spec (9 * total) (10 * used));
      [apply Z.leb_le|apply Z.leb_gt]; lia.
Qed.

(** ** Totals that are zero *)

Lemma bind_no_divide_by_zero {A B : Type} (m : Run A) (k : A -> Run B) :
  ~ In DivideByZero (events m) ->
  (forall a, ~ In DivideByZero (events (k a))) ->
  ~ In DivideByZero (events (bind m k)).
Proof.
  intros Hm Hk. rewrite bind_events. intros H. apply in_app_or in H.
  destruct H as [H|H]; [now apply Hm|].
  destruct (snd m) as [a|]; [now apply (Hk a)|contradiction].
Qed.

Lemma print_no_divide_by_zero (m : Message) : ~ In DivideByZero (events (print m)).
Proof. cbn. intuition discriminate. Qed.

Lemma ret_no_divide_by_zero {A : Type} (a : A) : ~ In DivideByZero (events (ret a)).
Proof. cbn. tauto. Qed.

Lemma fdiv_guarded (x : float64) (total : Z) :
  0 < total -> fdiv x (float64_of_Z total) = ret (f64_div x (float64_of_Z total)).
Proof. intros H. unfold fdiv. now rewrite float64_of_Z_nonzero. Qed.

Lemma if_print_no_divide_by_zero (b : bool) (m : Message) :
  ~ In DivideByZero (events (if b then print m else ret tt)).
Proof.
  destruct b; [apply print_no_divide_by_zero|apply ret_no_divide_by_zero].
Qed.

Lemma Part000_checks_no_divide_by_zero (loadAvgStr : string) (loadAvg : float64)
    (totalRAM usedRAM totalDisk usedDisk netCap netUsed : Z) :
  ~ In DivideByZero
      (events (Part000.checks loadAvgStr loadAvg
                 totalRAM usedRAM totalDisk usedDisk netCap netUsed)).
Proof.
  unfold Part000.checks, Part000.checkLoad, Part000.checkMemory,
    Part000.checkDisk, Part000.checkNetwork.
  apply bind_no_divide_by_zero; [apply if_print_no_divide_by_zero|intros _].
  apply bind_no_divide_by_zero; [|intros _].
  { destruct (Z.ltb_spec 0 totalRAM); [|apply ret_no_divide_by_zero].
    rewrite fdiv_guarded, bind_ret_l by assumption.
    apply if_print_no_divide_by_zero. }
  apply bind_no_divide_by_zero; [|intros _].
  { destruct (Z.ltb_spec 0 totalDisk); [|apply ret_no_divide_by_zero].
    rewrite fdiv_guarded, bind_ret_l by assumption.
    apply if_print_no_divide_by_zero. }
  destruct (Z.ltb_spec 0 netCap); [|apply ret_no_divide_by_zero].
  rewrite fdiv_guarded, bind_ret_l by assumption.
  apply if_print_no_divide_by_zero.
Qed.

Lemma In_filter_checkOrder (warns : Metric -> bool) (m : Metric) :
  In m (filter warns checkOrder) -> warns m = true.
Proof. intros H. now apply filter_In in H. Qed.

(** C4. A check whose total is zero does nothing, whatever the value used:
    it prints no warning, divides by nothing and returns; in both programs
    and for each of the three metrics that have a total. On every snapshot
    the four checks in a row return without a division by zero, and print
    no warning about a metric whose total is zero. *)
Theorem zero_total_skips_check :
  (forall used : Z,
      Main.checkMemory 0 used = ([], Some tt)
      /\ Main.checkDisk 0 used = ([], Some tt)
      /\ Main.checkNetwork 0 used = ([], Some tt)
      /\ Part000.checkMemory 0 used = ([], Some tt)
      /\ Part000.checkDisk 0 used = ([], Some tt)
      /\ Part000.checkNetwork 0 used = ([], Some tt))
  /\ (forall (text : string) (loadAvg : float64)
             (totalRAM usedRAM totalDisk usedDisk netCap netUsed : Z),
         let m := Main.checks text loadAvg
                    totalRAM usedRAM totalDisk usedDisk netCap netUsed in
         let p := Part000.checks text loadAvg
                    totalRAM usedRAM totalDisk usedDisk netCap netUsed in
         snd m = Some tt /\ ~ In DivideByZero (events m)
         /\ snd p = Some tt /\ ~ In DivideByZero (events p)
         /\ (totalRAM = 0 ->
             ~ In Memory (metrics (events m)) /\ ~ In Memory (metrics (events p)))
         /\ (totalDisk = 0 ->
             ~ In Disk (metrics (events m)) /\ ~ In Disk (metrics (events p)))
         /\ (netCap = 0 ->
             ~ In Network (metrics (events m)) /\ ~ In Network (metrics (events p)))).
Proof.
  split; [intros used; repeat split; reflexivity|].
  intros text loadAvg totalRAM usedRAM totalDisk usedDisk netCap netUsed m p.
  destruct (Main_checks_run text loadAvg
              totalRAM usedRAM totalDisk usedDisk netCap netUsed) as (Hm1 & Hm2 & Hm3).
  destruct (Part000_checks_run text loadAvg
              totalRAM usedRAM totalDisk usedDisk netCap netUsed) as (Hp1 & Hp3).
  fold m in Hm1, Hm2, Hm3. fold p in Hp1, Hp3.
  split; [exact Hm1|]. split; [exact Hm2|]. split; [exact Hp1|].
  split; [apply Part000_checks_no_divide_by_zero|].
  rewrite Hm3, Hp3.
  repeat split; intros Hin; apply In_filter_checkOrder in Hin; subst;
    cbn in Hin; discriminate Hin.
Qed.

Lemma zero_total_skips_check_witness :
  let m := Main.checks "99" (float64_of_Z 99) 0 7 0 7 0 7 in
  let p := Part000.checks "99" (float64_of_Z 99) 0 7 0 7 0 7 in
  ~ In Memory (metrics (events m)) /\ ~ In Memory (metrics (events p))
  /\ ~ In Disk (metrics (events m)) /\ ~ In Disk (metrics (events p))
  /\ ~ In Network (metrics (events m)) /\ ~ In Network (metrics (events p)).
Proof.
  cbv zeta.
  destruct (proj2 zero_total_skips_check "99" (float64_of_Z 99) 0 7 0 7 0 7)
    as (_ & _ & _ & _ & HR & HD & HN).
  destruct (HR eq_refl) as [H1 H2].
  destruct (HD eq_refl) as [H3 H4].
  destruct (HN eq_refl) as [H5 H6].
  repeat split; assumption.
Defined.

(** ** The thresholds *)

(** In [main.go], as long as [used * 100] stays below [2 ^ 63], a metric
    crosses its limit exactly when the ratio reaches the next percent. *)
Lemma crossesPercent_exact (limit total used : Z) :
  0 <= limit -> 0 <= used -> used * 100 < two63 ->
  crossesPercent limit total used
  = (0 <? total) && ((limit + 1) * total <=? used * 100).
Proof.
  intros Hl Hu Hx. unfold crossesPercent.
  rewrite two63_eq in *.
  rewrite (Z.mod_small (used * 100) two64) by (rewrite two64_eq; lia).
  destruct (Z.ltb_spec 0 total) as [Ht|Ht]; [|reflexivity]. cbn [andb].
  pose proof (Z.div_mod (used * 100) total ltac:(lia)) as Hdm.
  pose proof (Z.mod_pos_bound (used * 100) total Ht) as Hr.
  set (q := used * 100 / total) in *.
  assert (Hq : 0 <= q) by (apply Z.div_pos; lia).
  assert (Hq' : q <= used * 100) by nia.
  destruct (Z.ltb_spec q 9223372036854775808); [|lia]. rewrite andb_true_r.
  destruct (Z.ltb_spec limit q); destruct (Z.leb_spec ((limit + 1) * total) (used * 100));
    try reflexivity; nia.
Qed.

(** In [main.go] a ratio at or below the limit never crosses it, also when
    [used * 100] leaves 64 bits. *)
Lemma crossesPercent_at_or_below (limit total used : Z) :
  0 <= used -> used * 100 <= limit * total ->
  crossesPercent limit total used = false.
Proof.
  intros Hu Hx. unfold crossesPercent.
  destruct (Z.ltb_spec 0 total) as [Ht|Ht]; [|reflexivity]. cbn [andb].
  assert (Hm : 0 <= (used * 100) mod two64 <= used * 100).
  { split; [apply Z.mod_pos_bound; rewrite two64_eq; lia|].
    apply Z.mod_le; [lia|rewrite two64_eq; lia]. }
  set (x := (used * 100) mod two64) in *.
  pose proof (Z.div_mod x total ltac:(lia)) as Hdm.
  pose proof (Z.mod_pos_bound x total Ht) as Hr.
  set (q := x / total) in *.
  destruct (Z.ltb_spec limit q); [nia|reflexivity].
Qed.

(** C1, as stated, fails on [main.go]: with 805 bytes used of 1000 the
    ratio is above 0.80 and no memory warning is printed, while [part_000]
    prints one. *)
Lemma Main_silent_between_80_and_81_percent :
  let body := "1,1000,805,1000,500,1000,500" in
  4 * 1000 < 5 * 805
  /\ Main.pollOnce strconv.ParseFloat_decimal (OK body) = ([], Some None)
  /\ Part000.pollOnce strconv.ParseFloat_decimal (OK body)
     = ([Print (MemHigh 81)], Some None).
Proof. cbv zeta. split; [lia|]. split; vm_compute; reflexivity. Qed.

(** Beyond the range in which [float64] holds the integers exactly, the
    test of [part_000] and the ratio part ways: a ratio of exactly 0.80 can
    warn and a ratio above 0.80 can stay silent. *)
Lemma Part000_ratio_rounded_beyond_2_53 :
  5 * 36029371941859164 = 4 * 45036714927323955
  /\ crossesRatio Part000.memUsageThreshold 45036714927323955 36029371941859164
     = true
  /\ 4 * 50000000000000000 < 5 * 40000000000000001
  /\ crossesRatio Part000.memUsageThreshold 50000000000000000 40000000000000001
     = false.
Proof. repeat split; vm_compute; reflexivity. Qed.

(** In [main.go] the conversion to [int] only matters for a total of one:
    from a total of two on, the quotient is below [2 ^ 63] and the rule is
    the one of the percentage on 64 bits without sign. *)
Lemma crossesPercent_without_conversion (limit total used : Z) :
  2 <= total ->
  crossesPercent limit total used
  = (limit <? (used * 100) mod two64 / total).
Proof.
  intros Ht. unfold crossesPercent.
  destruct (Z.ltb_spec 0 total); [|lia]. cbn [andb].
  assert (Hx : 0 <= (used * 100) mod two64 < two64)
    by (apply Z.mod_pos_bound; rewrite two64_eq; lia).
  assert (Hq : (used * 100) mod two64 / total < two63).
  { apply Z.div_lt_upper_bound; [lia|]. rewrite two64_eq, two63_eq in *. lia. }
  destruct (Z.ltb_spec ((used * 100) mod two64 / total) two63); [|lia].
  apply andb_true_r.
Qed.

(** C1, amended. On every snapshot each program prints at most one warning
    per metric, in the order load, memory, disk, network, for the metrics
    that cross their threshold: the load average when it is above 30.0; in
    [main.go] a metric with a total when the total is not zero and the
    percentage [int((used * 100) / total)] is above 80, 90 and 90, the
    product and the quotient being computed on 64 bits without sign and
    the quotient then read as an [int], so that a quotient of [2 ^ 63] or
    more, which only a total of one allows, is negative and crosses
    nothing; this is the ratio reaching 0.81, 0.91 and 0.91 whenever
    [used * 100] is below [2 ^ 63], and it never happens for a ratio at or
    below the limit; in [part_000] when the total is not zero and the
    [float64] quotient of the two values is above 0.80, 0.90 and 0.90 as
    [float64], which for totals up to [2 ^ 50] and values below [2 ^ 53]
    is the ratio being strictly above 0.80, 0.90 and 0.90. *)
Theorem warnings_follow_thresholds :
  (forall (text : string) (loadAvg : float64)
          (totalRAM usedRAM totalDisk usedDisk netCap netUsed : Z),
      metrics (events (Main.checks text loadAvg
                         totalRAM usedRAM totalDisk usedDisk netCap netUsed))
      = filter (Main_warns loadAvg totalRAM usedRAM totalDisk usedDisk netCap netUsed)
          checkOrder
      /\ metrics (events (Part000.checks text loadAvg
                            totalRAM usedRAM totalDisk usedDisk netCap netUsed))
         = filter
             (Part000_warns loadAvg totalRAM usedRAM totalDisk usedDisk netCap netUsed)
             checkOrder)
  /\ (forall limit total used : Z,
         0 <= limit -> 0 <= used -> used * 100 < two63 ->
         crossesPercent limit total used
         = (0 <? total) && ((limit + 1) * total <=? used * 100))
  /\ (forall limit total used : Z,
         0 <= used -> used * 100 <= limit * total ->
         crossesPercent limit total used = false)
  /\ (forall total used : Z,
         0 <= used < 2 ^ 53 -> 0 < total <= 2 ^ 50 ->
         crossesRatio Part000.memUsageThreshold total used = (4 * total <? 5 * used)
         /\ crossesRatio Part000.diskUsageThreshold total used
            = (9 * total <? 10 * used)
         /\ crossesRatio Part000.netUsageThreshold total used
            = (9 * total <? 10 * used))
  /\ (forall (threshold : float64) (used : Z), crossesRatio threshold 0 used = false)
  /\ (forall limit total used : Z,
         0 <= limit ->
         crossesPercent limit total used
         = (0 <? total) && (limit <? int64 (uint64 (used * 100) / total)))
  /\ (forall limit total used : Z,
         2 <= total ->
         crossesPercent limit total used
         = (limit <? (used * 100) mod two64 / total))
  /\ (let used := 92233720368547759 in
      80 < uint64 (used * 100) / 1
      /\ int64 (uint64 (used * 100) / 1) = -9223372036854775716
      /\ Main.checkMemory 1 used = ([], Some tt)).
Proof.
  split; [|split; [|split; [|split; [|split; [|split; [|split]]]]]].
  - intros. split; [apply Main_checks_run|apply Part000_checks_run].
  - apply crossesPercent_exact.
  - apply crossesPercent_at_or_below.
  - apply crossesRatio_exact.
  - reflexivity.
  - intros limit total used Hl. unfold crossesPercent.
    destruct (Z.ltb_spec 0 total) as [Ht|Ht]; [|reflexivity]. cbn [andb].
    symmetry. now apply Main_percent_rule.
  - apply crossesPercent_without_conversion.
  - cbv zeta. repeat split; vm_compute; reflexivity.
Qed.

Lemma warnings_follow_thresholds_witness :
  crossesPercent 80 16000000000 14000000000 = true
  /\ crossesPercent 80 1000 800 = false
  /\ crossesRatio Part000.memUsageThreshold 1000 801 = true
  /\ crossesRatio Part000.diskUsageThreshold 1000 900 = false
  /\ crossesPercent 80 1000 805
     = (0 <? 1000) && (80 <? int64 (uint64 (805 * 100) / 1000))
  /\ crossesPercent 80 2 92233720368547759
     = (80 <? (92233720368547759 * 100) mod two64 / 2).
Proof.
  destruct warnings_follow_thresholds as (_ & H1 & H2 & H3 & _ & H5 & H6 & _).
  split; [|split; [|split; [|split; [|split]]]].
  - rewrite (H1 80 16000000000 14000000000); [reflexivity|lia|lia|reflexivity].
  - apply (H2 80 1000 800); lia.
  - rewrite (proj1 (H3 1000 801 ltac:(split; [lia|reflexivity])
                      ltac:(split; [lia|discriminate]))).
    reflexivity.
  - rewrite (proj1 (proj2 (H3 1000 900 ltac:(split; [lia|reflexivity])
                             ltac:(split; [lia|discriminate])))).
    reflexivity.
  - apply (H5 80 1000 805). lia.
  - apply (H6 80 2 92233720368547759). lia.
Defined.

(** ** The pauses of the loop *)

Lemma pauses_app (e1 e2 : list Event) : pauses (e1 ++ e2) = pauses e1 ++ pauses e2.
Proof.
  induction e1 as [|[m|d|] e1 IH]; cbn [pauses app]; rewrite ?IH; reflexivity.
Qed.

Lemma bind_pauses_nil {A B : Type} (m : Run A) (k : A -> Run B) :
  pauses (events m) = [] -> (forall a, pauses (events (k a)) = []) ->
  pauses (events (bind m k)) = [].
Proof.
  intros Hm Hk. rewrite bind_events, pauses_app, Hm.
  destruct (snd m) as [a|]; [apply Hk|reflexivity].
Qed.

Lemma if_print_pauses (b : bool) (m : Message) :
  pauses (events (if b then print m else ret tt)) = [].
Proof. now destruct b. Qed.

Lemma udiv_pauses (a b : Z) : pauses (events (udiv a b)) = [].
Proof. unfold udiv. now destruct (b =? 0). Qed.

Lemma fdiv_pauses (x y : float64) : pauses (events (fdiv x y)) = [].
Proof. unfold fdiv. now destruct (f64_is_zero y). Qed.

Lemma Main_checks_pauses (field0 : string) (loadAvg : float64)
    (totalRAM usedRAM totalDisk usedDisk netCap netUsed : Z) :
  pauses (events (Main.checks field0 loadAvg
                    totalRAM usedRAM totalDisk usedDisk netCap netUsed)) = [].
Proof.
  unfold Main.checks, Main.checkLoad, Main.checkMemory, Main.checkDisk,
    Main.checkNetwork.
  apply bind_pauses_nil; [apply if_print_pauses|intros _].
  apply bind_pauses_nil; [|intros _].
  { destruct (0 <? totalRAM); [|reflexivity].
    apply bind_pauses_nil; [apply udiv_pauses|intros q; apply if_print_pauses]. }
  apply bind_pauses_nil; [|intros _].
  { destruct (0 <? totalDisk); [|reflexivity].
    apply bind_pauses_nil; [apply udiv_pauses|intros q; apply if_print_pauses]. }
  destruct (0 <? netCap); [|reflexivity].
  apply bind_pauses_nil; [apply udiv_pauses|intros q; apply if_print_pauses].
Qed.

Lemma Part000_checks_pauses (loadAvgStr : string) (loadAvg : float64)
    (totalRAM usedRAM totalDisk usedDisk netCap netUsed : Z) :
  pauses (events (Part000.checks loadAvgStr loadAvg
                    totalRAM usedRAM totalDisk usedDisk netCap netUsed)) = [].
Proof.
  unfold Part000.checks, Part000.checkLoad, Part000.checkMemory,
    Part000.checkDisk, Part000.checkNetwork.
  apply bind_pauses_nil; [apply if_print_pauses|intros _].
  apply bind_pauses_nil; [|intros _].
  { destruct (0 <? totalRAM); [|reflexivity].
    apply bind_pauses_nil; [apply fdiv_pauses|intros q; apply if_print_pauses]. }
  apply bind_pauses_nil; [|intros _].
  { destruct (0 <? totalDisk); [|reflexivity].
    apply bind_pauses_nil; [apply fdiv_pauses|intros q; apply if_print_pauses]. }
  destruct (0 <? netCap); [|reflexivity].
  apply bind_pauses_nil; [apply fdiv_pauses|intros q; apply if_print_pauses].
Qed.

Section Pauses.

Variable ParseFloat : string -> float64 * option strconv.NumError.
Variable env : string -> string.

Lemma Main_pollOnce_pauses (r : Fetch) :
  pauses (events (Main.pollOnce ParseFloat r)) = [].
Proof.
  destruct (Main_pollOnce_cases ParseFloat r) as [[e ->]|H]; [reflexivity|].
  destruct H as (body & f0 & f1 & f2 & f3 & f4 & f5 & f6 & la & _ & _ & _ & ->).
  apply bind_pauses_nil; [apply Main_checks_pauses|reflexivity].
Qed.

Lemma Part000_pollOnce_pauses (r : Fetch) :
  pauses (events (Part000.pollOnce ParseFloat r)) = [].
Proof.
  destruct (Part000_pollOnce_cases ParseFloat r) as [[e ->]|H]; [reflexivity|].
  destruct H as (code & body & re & f0 & f1 & f2 & f3 & f4 & f5 & f6 & la
                 & v1 & v2 & v3 & v4 & v5 & v6 & _ & _ & _ & _ & _ & _ & _ & _ & _ & ->).
  apply bind_pauses_nil; [apply Part000_checks_pauses|reflexivity].
Qed.

(** Every iteration pauses once, for the interval. *)
Lemma Main_loop_pauses (rs : list Fetch) :
  forall st, pauses (events (Main.loop ParseFloat env st rs))
             = repeat (interval env) (List.length rs).
Proof.
  induction rs as [|r rs IH]; intros st; [reflexivity|].
  destruct (Main_iteration_run ParseFloat env st r) as (err & Herr & Hs & _).
  cbn [Main.loop List.length repeat].
  rewrite (bind_run _ _ _ Hs). unfold events at 1. cbn [fst].
  rewrite pauses_app, IH. f_equal.
  unfold Main.iteration.
  rewrite (bind_run _ _ _ Herr). unfold events at 1. cbn [fst].
  rewrite pauses_app, Main_pollOnce_pauses.
  unfold Main.report.
  destruct err as [e|];
    [destruct ((3 <=? int64 (Main.consecutiveErrors st + 1))
               && negb (Main.errorPrinted st))|]; reflexivity.
Qed.

Lemma Part000_loop_pauses (rs : list Fetch) :
  forall st, pauses (events (Part000.loop ParseFloat env st rs))
             = repeat (interval env) (List.length rs).
Proof.
  induction rs as [|r rs IH]; intros st; [reflexivity|].
  destruct (Part000_iteration_run ParseFloat env st r) as (err & Herr & Hs & _).
  cbn [Part000.loop List.length repeat].
  rewrite (bind_run _ _ _ Hs). unfold events at 1. cbn [fst].
  rewrite pauses_app, IH. f_equal.
  unfold Part000.iteration.
  rewrite (bind_run _ _ _ Herr). unfold events at 1. cbn [fst].
  rewrite pauses_app, Part000_pollOnce_pauses.
  unfold Part000.report.
  destruct err as [e|];
    [destruct ((3 <=? int64 (Part000.consecutiveErrors st + 1))
               && negb (Part000.errorMessagePrinted st))|]; reflexivity.
Qed.

End Pauses.

(** ** The poll interval *)

Lemma uintValue_acc (l : Decimal.uint) :
  forall acc : positive, uintValue l (Zpos acc) = Zpos (Pos.of_uint_acc l acc).
Proof.
  induction l as [|l IH|l IH|l IH|l IH|l IH|l IH|l IH|l IH|l IH|l IH]; intros acc;
    cbn [uintValue Pos.of_uint_acc]; [reflexivity|..];
    rewrite <- IH; f_equal; lia.
Qed.

Lemma uintValue_of_uint (d : Decimal.uint) : uintValue d 0 = Z.of_uint d.
Proof.
  unfold Z.of_uint.
  induction d as [|l IH|l IH|l IH|l IH|l IH|l IH|l IH|l IH|l IH|l IH];
    cbn [uintValue Pos.of_uint Z.of_N Z.mul Z.add]; try reflexivity;
    try exact IH; apply uintValue_acc.
Qed.

Lemma uintValue_to_uint (p : positive) : uintValue (Pos.to_uint p) 0 = Zpos p.
Proof.
  rewrite uintValue_of_uint. unfold Z.of_uint.
  now rewrite DecimalPos.Unsigned.of_to.
Qed.

Lemma uintValue_ge (d : Decimal.uint) :
  forall acc, 0 <= acc -> acc <= uintValue d acc.
Proof.
  induction d as [|l IH|l IH|l IH|l IH|l IH|l IH|l IH|l IH|l IH|l IH]; intros acc Hacc;
    cbn [uintValue]; [lia|..];
    match goal with |- _ <= uintValue l ?x => specialize (IH x ltac:(lia)) end; lia.
Qed.

Ltac eval_digit :=
  repeat match goal with
  | |- context [(byte_of ?c - 48) mod 256] =>
      let v := eval vm_compute in ((byte_of c - 48) mod 256) in
      change ((byte_of c - 48) mod 256) with v
  | |- context [isDigit ?c] =>
      let v := eval vm_compute in (isDigit c) in change (isDigit c) with v
  | |- context [digitVal ?c] =>
      let v := eval vm_compute in (digitVal c) in change (digitVal c) with v
  | |- context [strconv.isSign ?c] =>
      let v := eval vm_compute in (strconv.isSign c) in
      change (strconv.isSign c) with v
  | |- context [strconv.isMinus ?c] =>
      let v := eval vm_compute in (strconv.isMinus c) in
      change (strconv.isMinus c) with v
  | |- context [9 <? Zpos ?p] =>
      let v := eval vm_compute in (9 <? Zpos p) in change (9 <? Zpos p) with v
  end.

(** The fast loop of [Atoi] reads a sequence of digits as its value. *)
Lemma atoiLoop_digits (d : Decimal.uint) :
  forall acc, strconv.atoiLoop (NilEmpty.string_of_uint d) acc = (uintValue d acc, None).
Proof.
  induction d as [|l IH|l IH|l IH|l IH|l IH|l IH|l IH|l IH|l IH|l IH]; intros acc;
    cbn [NilEmpty.string_of_uint strconv.atoiLoop uintValue]; [reflexivity|..];
    eval_digit; change (9 <? 0) with false; cbv iota; rewrite IH;
    rewrite ?Z.add_0_r; reflexivity.
Qed.

(** So does the loop of [ParseUint], as long as the value fits in 64
    bits. *)
Lemma parseUintLoop_digits (d : Decimal.uint) :
  forall acc, 0 <= acc -> uintValue d acc <= maxUint64 ->
  strconv.parseUintLoop (NilEmpty.string_of_uint d) acc = (uintValue d acc, None).
Proof.
  assert (Hstep : forall (l : Decimal.uint) (k acc : Z),
    (forall acc', 0 <= acc' -> uintValue l acc' <= maxUint64 ->
       strconv.parseUintLoop (NilEmpty.string_of_uint l) acc' = (uintValue l acc', None)) ->
    0 <= k <= 9 -> 0 <= acc -> uintValue l (acc * 10 + k) <= maxUint64 ->
    (if maxUint64 / 10 + 1 <=? acc then (maxUint64, Some strconv.ErrRange)
     else if (uint64 (uint64 (acc * 10) + k) <? uint64 (acc * 10))
             || (maxUint64 <? uint64 (uint64 (acc * 10) + k))
          then (maxUint64, Some strconv.ErrRange)
          else strconv.parseUintLoop (NilEmpty.string_of_uint l)
                 (uint64 (uint64 (acc * 10) + k)))
    = (uintValue l (acc * 10 + k), None)).
  { intros l k acc IH Hk Hacc Hv.
    pose proof (uintValue_ge l (acc * 10 + k) ltac:(lia)) as Hge.
    unfold maxUint64 in *. rewrite two64_eq in *.
    change ((18446744073709551616 - 1) / 10 + 1) with 1844674407370955162.
    destruct (Z.leb_spec 1844674407370955162 acc); [lia|].
    rewrite (uint64_id (acc * 10))
      by (unfold is_uint64; rewrite two64_eq; lia).
    rewrite (uint64_id (acc * 10 + k))
      by (unfold is_uint64; rewrite two64_eq; lia).
    destruct (Z.ltb_spec (acc * 10 + k) (acc * 10)); [lia|].
    destruct (Z.ltb_spec (18446744073709551616 - 1) (acc * 10 + k)); [lia|].
    cbn [orb]. apply IH; lia. }
  induction d as [|l IH|l IH|l IH|l IH|l IH|l IH|l IH|l IH|l IH|l IH]; intros acc Hacc Hv;
    cbn [NilEmpty.string_of_uint strconv.parseUintLoop uintValue] in *;
    [reflexivity|..];
    eval_digit; cbv iota.
  - replace (uintValue l (acc * 10)) with (uintValue l (acc * 10 + 0)) in *
      by (f_equal; lia).
    apply Hstep; (assumption || lia).
  - apply Hstep; (assumption || lia).
  - apply Hstep; (assumption || lia).
  - apply Hstep; (assumption || lia).
  - apply Hstep; (assumption || lia).
  - apply Hstep; (assumption || lia).
  - apply Hstep; (assumption || lia).
  - apply Hstep; (assumption || lia).
  - apply Hstep; (assumption || lia).
  - apply Hstep; (assumption || lia).
Qed.

(** [Atoi] reads a sequence of digits that is not empty as its value, as
    long as the value fits in an [int], by its fast path or by
    [ParseInt]. *)
Lemma Atoi_digits (d : Decimal.uint) :
  d <> Decimal.Nil -> uintValue d 0 < two63 ->
  strconv.Atoi (NilEmpty.string_of_uint d) = (uintValue d 0, None).
Proof.
  intros Hd Hv.
  pose proof (uintValue_ge d 0 ltac:(lia)) as Hge.
  assert (Hfast : strconv.atoiLoop (NilEmpty.string_of_uint d) 0 = (uintValue d 0, None))
    by apply atoiLoop_digits.
  assert (Hslow : strconv.parseUintLoop (NilEmpty.string_of_uint d) 0
                  = (uintValue d 0, None)).
  { apply parseUintLoop_digits; [lia|].
    unfold maxUint64. rewrite two64_eq. rewrite two63_eq in Hv. lia. }
  assert (Hint : int64 (uintValue d 0) = uintValue d 0).
  { apply int64_id. unfold is_int64. rewrite two63_eq in *. lia. }
  remember (uintValue d 0) as v eqn:Ev. clear Ev.
  unfold strconv.Atoi, strconv.ParseInt, strconv.ParseUint.
  destruct d as [|l|l|l|l|l|l|l|l|l|l]; [contradiction|..];
    cbn [NilEmpty.string_of_uint] in *;
    match goal with
    | |- (if ?c then _ else _) = _ => destruct c
    end;
    eval_digit; cbv iota; rewrite ?Hfast, ?Hslow; try reflexivity;
    cbn [negb andb];
    (destruct (Z.leb_spec two63 v); [lia|]);
    rewrite Hint; reflexivity.
Qed.

Lemma to_uint_not_nil (p : positive) : Pos.to_uint p <> Decimal.Nil.
Proof.
  intros H. pose proof (uintValue_to_uint p) as Hv. rewrite H in Hv. discriminate Hv.
Qed.

Lemma fmt_d_positive (p : positive) :
  fmt_d (Zpos p) = NilEmpty.string_of_uint (Pos.to_uint p).
Proof.
  unfold fmt_d. cbn [Z.to_int NilZero.string_of_int]. unfold NilZero.string_of_uint.
  pose proof (to_uint_not_nil p). now destruct (Pos.to_uint p).
Qed.

(** [Atoi] reads back the decimal numeral of a positive [int]. *)
Lemma Atoi_fmt_d (n : Z) : 0 < n < two63 -> strconv.Atoi (fmt_d n) = (n, None).
Proof.
  intros Hn. destruct n as [|p|p]; try lia.
  rewrite fmt_d_positive.
  rewrite Atoi_digits; rewrite ?uintValue_to_uint;
    [reflexivity|apply to_uint_not_nil|lia].
Qed.

Lemma fmt_d_not_empty (n : Z) : (fmt_d n =? "")%string = false.
Proof.
  destruct n as [|p|p]; [reflexivity| |reflexivity].
  rewrite fmt_d_positive. pose proof (to_uint_not_nil p).
  now destruct (Pos.to_uint p).
Qed.

Lemma atoiLoop_nonneg (s : string) :
  forall n v, 0 <= n -> strconv.atoiLoop s n = (v, None) -> 0 <= v.
Proof.
  induction s as [|c s IH]; intros n v Hn; cbn [strconv.atoiLoop].
  - intros [= <-]. exact Hn.
  - destruct (9 <? (byte_of c - 48) mod 256); [discriminate|].
    apply IH. pose proof (Z.mod_pos_bound (byte_of c - 48) 256 ltac:(lia)). lia.
Qed.

(** [Atoi] on a numeral that starts with a minus sign fails or returns a
    value that is not positive. *)
Lemma Atoi_minus (s : string) (v : Z) :
  strconv.Atoi (String "-" s) = (v, None) -> v <= 0.
Proof.
  unfold strconv.Atoi, strconv.ParseInt.
  destruct ((0 <? Z.of_nat (String.length (String "-" s)))
            && (Z.of_nat (String.length (String "-" s)) <? 19)).
  - eval_digit. cbv iota.
    destruct s as [|c s]; [discriminate|].
    destruct (strconv.atoiLoop (String c s) 0) as [m [e|]] eqn:Hm; [discriminate|].
    intros [= <-]. apply atoiLoop_nonneg in Hm; lia.
  - eval_digit. cbv iota.
    pose proof (ParseUint_value s) as Hu.
    destruct (strconv.ParseUint s) as [un [[|]|]]; [discriminate| |].
    + subst un. cbn [negb andb]. change (two63 <? maxUint64) with true.
      discriminate.
    + cbn [negb andb].
      destruct (Z.ltb_spec two63 un) as [Hlt|Hge]; [discriminate|].
      intros [= <-]. unfold is_uint64 in Hu.
      rewrite (int64_of_uint64 un Hu).
      rewrite two64_eq, two63_eq in *.
      destruct (Z.ltb_spec un 9223372036854775808).
      * rewrite int64_id; [lia|]. unfold is_int64. rewrite two63_eq. lia.
      * assert (un = 9223372036854775808) by lia. subst un. vm_compute. discriminate.
Qed.

(** C8, as stated, fails: 9223372036855 is a positive integer that [Atoi]
    reads, and the interval, a number of nanoseconds on 64 bits, is then
    negative. *)
Lemma interval_overflows :
  strconv.Atoi "9223372036855" = (9223372036855, None)
  /\ getenvInt (setenv "9223372036855") "POLL_INTERVAL_MS" 1000 = 9223372036855
  /\ interval (setenv "9223372036855") = -9223372036854551616
  /\ interval (setenv "9223372036855") <> 9223372036855 * Millisecond.
Proof. repeat split; vm_compute; (reflexivity || discriminate). Qed.

(** C8, amended. When [POLL_INTERVAL_MS] is the decimal numeral of an
    integer [n], the interval is [n] milliseconds if [n] is positive and at
    most 9223372036854, the largest number of milliseconds a
    [time.Duration] holds, and 1000 milliseconds if [n] is not positive;
    it is 1000 milliseconds when [strconv.Atoi] rejects the value and when
    the variable is empty or not set. So 500 gives 500 milliseconds, 0 and
    abc give 1000 milliseconds. [getenvInt] itself returns every positive
    [n] below [2 ^ 63], and the loop of either program pauses for the
    interval once in every iteration. *)
Theorem poll_interval_from_environment (env : string -> string) :
  (forall n : Z,
      env "POLL_INTERVAL_MS" = fmt_d n -> 0 < n <= 9223372036854 ->
      interval env = n * Millisecond)
  /\ (forall n : Z,
         env "POLL_INTERVAL_MS" = fmt_d n -> n <= 0 ->
         interval env = 1000 * Millisecond)
  /\ (snd (strconv.Atoi (env "POLL_INTERVAL_MS")) <> None ->
      interval env = 1000 * Millisecond)
  /\ (env "POLL_INTERVAL_MS" = "" -> interval env = 1000 * Millisecond)
  /\ (forall n : Z,
         env "POLL_INTERVAL_MS" = fmt_d n -> 0 < n < two63 ->
         getenvInt env "POLL_INTERVAL_MS" 1000 = n)
  /\ (forall (ParseFloat : string -> float64 * option strconv.NumError)
             (rs : list Fetch),
         pauses (events (Main.main ParseFloat env rs))
         = repeat (interval env) (List.length rs)
         /\ pauses (events (Part000.main ParseFloat env rs))
            = repeat (interval env) (List.length rs))
  /\ interval (setenv "500") = 500 * Millisecond
  /\ interval (setenv "0") = 1000 * Millisecond
  /\ interval (setenv "abc") = 1000 * Millisecond.
Proof.
  assert (Hget : forall n : Z,
    env "POLL_INTERVAL_MS" = fmt_d n -> 0 < n < two63 ->
    getenvInt env "POLL_INTERVAL_MS" 1000 = n).
  { intros n Hv Hn. unfold getenvInt. rewrite Hv, fmt_d_not_empty, Atoi_fmt_d by lia.
    cbn [negb]. destruct (Z.ltb_spec 0 n); [reflexivity|lia]. }
  split; [|split; [|split; [|split; [|split; [exact Hget|split]]]]].
  - intros n Hv Hn. unfold interval.
    rewrite (Hget n Hv) by (rewrite two63_eq; lia).
    apply int64_id. unfold is_int64, Millisecond. rewrite two63_eq. lia.
  - intros n Hv Hn. unfold interval, getenvInt. rewrite Hv, fmt_d_not_empty.
    cbn [negb].
    destruct n as [|p|p]; [reflexivity|lia|].
    change (fmt_d (Zneg p))
      with (String "-" (NilZero.string_of_uint (Pos.to_uint p))).
    destruct (strconv.Atoi (String "-" (NilZero.string_of_uint (Pos.to_uint p))))
      as [v [e|]] eqn:Ha; [reflexivity|].
    apply Atoi_minus in Ha.
    destruct (Z.ltb_spec 0 v); [lia|reflexivity].
  - intros Herr. unfold interval, getenvInt.
    destruct (negb (env "POLL_INTERVAL_MS" =? "")%string); [|reflexivity].
    destruct (strconv.Atoi (env "POLL_INTERVAL_MS")) as [v [e|]];
      [reflexivity|now contradiction Herr].
  - intros Hv. unfold interval, getenvInt. rewrite Hv. reflexivity.
  - intros ParseFloat rs. split; [apply Main_loop_pauses|apply Part000_loop_pauses].
  - repeat split; vm_compute; reflexivity.
Qed.

Lemma poll_interval_from_environment_witness :
  interval (setenv (fmt_d 250)) = 250 * Millisecond
  /\ interval (setenv (fmt_d (-3))) = 1000 * Millisecond
  /\ interval (setenv "12x") = 1000 * Millisecond.
Proof.
  destruct (poll_interval_from_environment (setenv (fmt_d 250))) as (H1 & _).
  destruct (poll_interval_from_environment (setenv (fmt_d (-3)))) as (_ & H2 & _).
  destruct (poll_interval_from_environment (setenv "12x")) as (_ & _ & H3 & _).
  split; [|split].
  - apply (H1 250); [reflexivity|lia].
  - apply (H2 (-3)); [reflexivity|lia].
  - apply H3. vm_compute. discriminate.
Defined.

(** * Further properties *)

(** ** The state of the loop *)

Lemma int64_succ (z : Z) : int64 (int64 z + 1) = int64 (z + 1).
Proof.
  unfold int64. f_equal.
  replace ((z + two63) mod two64 - two63 + 1 + two63)
    with ((z + two63) mod two64 + 1) by lia.
  rewrite Zplus_mod_idemp_l. f_equal. lia.
Qed.

Lemma existsb_ext_in {A : Type} (f g : A -> bool) (l : list A) :
  (forall a, In a l -> f a = g a) -> existsb f l = existsb g l.
Proof.
  induction l as [|a l IH]; intros H; [reflexivity|].
  cbn [existsb]. rewrite (H a (or_introl eq_refl)), IH; [reflexivity|].
  intros b Hb. apply H. now right.
Qed.

Lemma failuresAtEnd_snoc (fails : Fetch -> bool) (rs : list Fetch) (r : Fetch) :
  failuresAtEnd fails (rs ++ [r])
  = if fails r then S (failuresAtEnd fails rs) else 0%nat.
Proof.
  unfold failuresAtEnd. rewrite rev_app_distr. cbn [rev app takeWhile].
  now destruct (fails r).
Qed.

Section MainRun.

Variable ParseFloat : string -> float64 * option strconv.NumError.
Variable env : string -> string.

Lemma Main_loop_snoc (rs : list Fetch) :
  forall (st : Main.State) (r : Fetch),
  exists st' err,
    snd (Main.loop ParseFloat env st rs) = Some st'
    /\ snd (Main.pollOnce ParseFloat r) = Some err
    /\ snd (Main.loop ParseFloat env st (rs ++ [r])) = Some (Main_next st' err)
    /\ notices (events (Main.loop ParseFloat env st (rs ++ [r])))
       = (notices (events (Main.loop ParseFloat env st rs))
          + if Main_alerts st' err then 1 else 0)%nat.
Proof.
  induction rs as [|a rs IH]; intros st r.
  - destruct (Main_loop_cons ParseFloat env st r []) as (err & Herr & Hs & Hn).
    exists st, err. cbn [app]. rewrite Hs, Hn. cbn. repeat split; try assumption.
    lia.
  - destruct (Main_loop_cons ParseFloat env st a (rs ++ [r])) as (e & He & Hs & Hn).
    destruct (Main_loop_cons ParseFloat env st a rs) as (e' & He' & Hs' & Hn').
    rewrite He in He'. injection He' as <-.
    destruct (IH (Main_next st e) r) as (st' & err & H1 & H2 & H3 & H4).
    exists st', err. cbn [app]. rewrite Hs, Hn, Hs', Hn', H3, H4.
    repeat split; try assumption. lia.
Qed.

Lemma Main_fails_spec (r : Fetch) (err : option PollError) :
  snd (Main.pollOnce ParseFloat r) = Some err ->
  Main_fails ParseFloat r = match err with Some _ => true | None => false end.
Proof. unfold Main_fails. intros ->. now destruct err. Qed.

Lemma Main_state_and_notices (rs : list Fetch) :
  let k := failuresAtEnd (Main_fails ParseFloat) rs in
  snd (Main.main ParseFloat env rs)
    = Some (Main.mkState (int64 (Z.of_nat k)) (3 <=? k)%nat)
  /\ notices (events (Main.main ParseFloat env rs))
     = List.length (filter (fun n => failuresAtEnd (Main_fails ParseFloat) (firstn n rs)
                                     =? 3)%nat (rounds rs)).
Proof.
  induction rs as [|r rs IH] using rev_ind; [split; reflexivity|].
  cbv zeta in *. destruct IH as [IHs IHn]. unfold Main.main in *.
  destruct (Main_loop_snoc rs Main.initial r) as (st' & err & H1 & H2 & H3 & H4).
  set (k := failuresAtEnd (Main_fails ParseFloat) rs) in *.
  remember (3 <=? k)%nat as f eqn:Ef.
  rewrite IHs in H1. injection H1 as <-.
  rewrite H3, H4, IHn, failuresAtEnd_snoc, (Main_fails_spec r err H2).
  assert (Hrounds : rounds (rs ++ [r]) = rounds rs ++ [S (List.length rs)]).
  { unfold rounds. rewrite length_app, Nat.add_comm. cbn [List.length Nat.add].
    now rewrite seq_S. }
  rewrite Hrounds, filter_app, length_app.
  assert (Hold : filter (fun n => failuresAtEnd (Main_fails ParseFloat)
                                    (firstn n (rs ++ [r])) =? 3)%nat (rounds rs)
                 = filter (fun n => failuresAtEnd (Main_fails ParseFloat)
                                      (firstn n rs) =? 3)%nat (rounds rs)).
  { apply filter_ext_in. intros n Hn. unfold rounds in Hn. apply in_seq in Hn.
    rewrite firstn_app. replace (n - List.length rs)%nat with 0%nat by lia.
    cbn [firstn]. now rewrite app_nil_r. }
  rewrite Hold. cbn [filter].
  replace (firstn (S (List.length rs)) (rs ++ [r])) with (rs ++ [r])
    by (symmetry; apply firstn_all2; rewrite length_app; cbn; lia).
  rewrite failuresAtEnd_snoc, (Main_fails_spec r err H2). fold k.
  unfold Main_next, Main_alerts. cbn [Main.consecutiveErrors Main.errorPrinted].
  destruct err as [e|].
  - rewrite int64_succ. replace (Z.of_nat k + 1) with (Z.of_nat (S k)) by lia.
    subst f. destruct (Nat.leb_spec 3 k) as [Hk|Hk].
    + rewrite andb_false_r, orb_true_r.
      destruct (Nat.eqb_spec (S k) 3); [lia|].
      destruct (Nat.leb_spec 3 (S k)); [|lia]. split; reflexivity.
    + rewrite andb_true_r, orb_false_r.
      rewrite int64_id by (unfold is_int64; rewrite two63_eq; lia).
      destruct (Z.leb_spec 3 (Z.of_nat (S k)));
        destruct (Nat.leb_spec 3 (S k)); try lia;
        destruct (Nat.eqb_spec (S k) 3); try lia; split; reflexivity.
  - split; reflexivity.
Qed.

End MainRun.

Section Part000Run.

Variable ParseFloat : string -> float64 * option strconv.NumError.
Variable env : string -> string.

Lemma Part000_loop_snoc (rs : list Fetch) :
  forall (st : Part000.State) (r : Fetch),
  exists st' err,
    snd (Part000.loop ParseFloat env st rs) = Some st'
    /\ snd (Part000.pollOnce ParseFloat r) = Some err
    /\ snd (Part000.loop ParseFloat env st (rs ++ [r])) = Some (Part000_next st' err)
    /\ notices (events (Part000.loop ParseFloat env st (rs ++ [r])))
       = (notices (events (Part000.loop ParseFloat env st rs))
          + if Part000_alerts st' err then 1 else 0)%nat.
Proof.
  induction rs as [|a rs IH]; intros st r.
  - destruct (Part000_loop_cons ParseFloat env st r []) as (err & Herr & Hs & Hn).
    exists st, err. cbn [app]. rewrite Hs, Hn. cbn. repeat split; try assumption.
    lia.
  - destruct (Part000_loop_cons ParseFloat env st a (rs ++ [r])) as (e & He & Hs & Hn).
    destruct (Part000_loop_cons ParseFloat env st a rs) as (e' & He' & Hs' & Hn').
    rewrite He in He'. injection He' as <-.
    destruct (IH (Part000_next st e) r) as (st' & err & H1 & H2 & H3 & H4).
    exists st', err. cbn [app]. rewrite Hs, Hn, Hs', Hn', H3, H4.
    repeat split; try assumption. lia.
Qed.

Lemma Part000_fails_spec (r : Fetch) (err : option PollError) :
  snd (Part000.pollOnce ParseFloat r) = Some err ->
  Part000_fails ParseFloat r = match err with Some _ => true | None => false end.
Proof. unfold Part000_fails. intros ->. now destruct err. Qed.

Lemma Part000_state_and_notices (rs : list Fetch) :
  let k := failuresAtEnd (Part000_fails ParseFloat) rs in
  let seen := existsb (fun n => failuresAtEnd (Part000_fails ParseFloat) (firstn n rs)
                                =? 3)%nat (rounds rs) in
  snd (Part000.main ParseFloat env rs)
    = Some (Part000.mkState (int64 (Z.of_nat k)) seen)
  /\ notices (events (Part000.main ParseFloat env rs)) = (if seen then 1 else 0)%nat
  /\ (seen = false -> (k <= 2)%nat).
Proof.
  induction rs as [|r rs IH] using rev_ind;
    [split; [reflexivity|split; [reflexivity|intros _; apply Nat.le_0_l]]|].
  cbv zeta in *. destruct IH as (IHs & IHn & IHk). unfold Part000.main in *.
  destruct (Part000_loop_snoc rs Part000.initial r) as (st' & err & H1 & H2 & H3 & H4).
  set (k := failuresAtEnd (Part000_fails ParseFloat) rs) in *.
  assert (Hrounds : rounds (rs ++ [r]) = rounds rs ++ [S (List.length rs)]).
  { unfold rounds. rewrite length_app, Nat.add_comm. cbn [List.length Nat.add].
    now rewrite seq_S. }
  assert (Hold : existsb (fun n => failuresAtEnd (Part000_fails ParseFloat)
                                     (firstn n (rs ++ [r])) =? 3)%nat (rounds rs)
                 = existsb (fun n => failuresAtEnd (Part000_fails ParseFloat)
                                       (firstn n rs) =? 3)%nat (rounds rs)).
  { apply existsb_ext_in. intros n Hn. unfold rounds in Hn. apply in_seq in Hn.
    rewrite firstn_app. replace (n - List.length rs)%nat with 0%nat by lia.
    cbn [firstn]. now rewrite app_nil_r. }
  rewrite Hrounds, existsb_app, Hold. cbn [existsb].
  replace (firstn (S (List.length rs)) (rs ++ [r])) with (rs ++ [r])
    by (symmetry; apply firstn_all2; rewrite length_app; cbn; lia).
  rewrite failuresAtEnd_snoc, (Part000_fails_spec r err H2). fold k.
  remember (existsb (fun n => failuresAtEnd (Part000_fails ParseFloat) (firstn n rs)
                              =? 3)%nat (rounds rs)) as seen eqn:Es.
  rewrite IHs in H1. injection H1 as <-.
  rewrite H3, H4, IHn.
  unfold Part000_next, Part000_alerts.
  cbn [Part000.consecutiveErrors Part000.errorMessagePrinted].
  destruct err as [e|].
  - rewrite int64_succ. replace (Z.of_nat k + 1) with (Z.of_nat (S k)) by lia.
    rewrite orb_false_r.
    destruct seen.
    + rewrite andb_false_r, orb_true_r. cbn [orb].
      split; [reflexivity|]. split; [reflexivity|discriminate].
    + specialize (IHk eq_refl). rewrite andb_true_r, orb_false_r. cbn [orb].
      rewrite int64_id by (unfold is_int64; rewrite two63_eq; lia).
      destruct (Z.leb_spec 3 (Z.of_nat (S k)));
        destruct (Nat.eqb_spec (S k) 3); try lia;
        (split; [reflexivity|]); (split; [reflexivity|]); intros; (lia || discriminate).
  - rewrite !orb_false_r, Nat.add_0_r. split; [reflexivity|].
    split; [reflexivity|intros _; apply Nat.le_0_l].
Qed.

End Part000Run.

(** X1. In [main.go], after any polls, the counter holds the number of
    polls that failed since the last one that succeeded, as an [int], and
    the flag is set exactly when that number is three or more. No run
    panics. *)
Theorem Main_state_after_run
    (ParseFloat : string -> float64 * option strconv.NumError)
    (env : string -> string) (rs : list Fetch) :
  let k := failuresAtEnd (Main_fails ParseFloat) rs in
  snd (Main.main ParseFloat env rs)
  = Some (Main.mkState (int64 (Z.of_nat k)) (3 <=? k)%nat).
Proof. apply Main_state_and_notices. Qed.

(** X2. In [main.go] a run prints the notice of failure once for every
    poll that is the third failure in a row, and at no other moment: the
    number of notices is the number of rounds at the end of which exactly
    three polls have failed since the last success. *)
Theorem Main_notices_of_run
    (ParseFloat : string -> float64 * option strconv.NumError)
    (env : string -> string) (rs : list Fetch) :
  notices (events (Main.main ParseFloat env rs))
  = List.length
      (filter (fun n => failuresAtEnd (Main_fails ParseFloat) (firstn n rs) =? 3)%nat
         (rounds rs)).
Proof. apply Main_state_and_notices. Qed.

(** X3. In [part_000], after any polls, the counter holds the number of
    polls that failed since the last one that succeeded, as an [int], and
    the flag is set exactly when, at some round of the run, three polls in
    a row had failed. No run panics. *)
Theorem Part000_state_after_run
    (ParseFloat : string -> float64 * option strconv.NumError)
    (env : string -> string) (rs : list Fetch) :
  let k := failuresAtEnd (Part000_fails ParseFloat) rs in
  snd (Part000.main ParseFloat env rs)
  = Some (Part000.mkState (int64 (Z.of_nat k))
            (existsb (fun n => failuresAtEnd (Part000_fails ParseFloat) (firstn n rs)
                               =? 3)%nat (rounds rs))).
Proof. apply Part000_state_and_notices. Qed.

(** X4. In [part_000] a run prints the notice of failure once if, at some
    round, three polls in a row had failed, and never otherwise. *)
Theorem Part000_notices_of_run
    (ParseFloat : string -> float64 * option strconv.NumError)
    (env : string -> string) (rs : list Fetch) :
  notices (events (Part000.main ParseFloat env rs))
  = if existsb (fun n => failuresAtEnd (Part000_fails ParseFloat) (firstn n rs)
                         =? 3)%nat (rounds rs)
    then 1%nat else 0%nat.
Proof. apply Part000_state_and_notices. Qed.

(** ** Numerals *)

Lemma byte_of_range (c : ascii) : 0 <= byte_of c < 256.
Proof.
  unfold byte_of. pose proof (N_ascii_bounded c). lia.
Qed.

Lemma isDigit_spec (c : ascii) :
  isDigit c = true -> 0 <= digitVal c <= 9.
Proof.
  unfold isDigit, digitVal. intros H. apply andb_prop in H. destruct H as [H1 H2].
  apply Z.leb_le in H1, H2. lia.
Qed.

Lemma atoi_digit (c : ascii) :
  (9 <? (byte_of c - 48) mod 256) = negb (isDigit c)
  /\ (isDigit c = true -> (byte_of c - 48) mod 256 = digitVal c).
Proof.
  pose proof (byte_of_range c) as Hc. unfold isDigit, digitVal.
  destruct (Z.leb_spec 48 (byte_of c)) as [H1|H1].
  - rewrite Z.mod_small by lia.
    destruct (Z.leb_spec (byte_of c) 57); destruct (Z.ltb_spec 9 (byte_of c - 48));
      try lia; split; (reflexivity || intros _; reflexivity || discriminate).
  - replace (byte_of c - 48) with (byte_of c + 208 + (-1) * 256) by lia.
    rewrite Z.mod_add, Z.mod_small by lia.
    destruct (Z.ltb_spec 9 (byte_of c + 208)); [|lia].
    split; [reflexivity|discriminate].
Qed.

Lemma decimalValue_ge (s : string) :
  forall n, 0 <= n -> allDigits s = true -> n <= decimalValue s n.
Proof.
  induction s as [|c s IH]; intros n Hn Hs; cbn [decimalValue allDigits] in *; [lia|].
  apply andb_prop in Hs. destruct Hs as [Hc Hs].
  pose proof (isDigit_spec c Hc).
  specialize (IH (n * 10 + digitVal c) ltac:(lia) Hs). lia.
Qed.

Lemma decimalValue_lt (s : string) :
  forall n, 0 <= n -> allDigits s = true ->
  decimalValue s n < (n + 1) * 10 ^ Z.of_nat (String.length s).
Proof.
  induction s as [|c s IH]; intros n Hn Hs; cbn [decimalValue allDigits String.length] in *.
  - change (Z.of_nat 0) with 0. lia.
  - apply andb_prop in Hs. destruct Hs as [Hc Hs].
    pose proof (isDigit_spec c Hc).
    specialize (IH (n * 10 + digitVal c) ltac:(lia) Hs).
    rewrite Nat2Z.inj_succ, Z.pow_succ_r by lia.
    assert (0 < 10 ^ Z.of_nat (String.length s)) by (apply Z.pow_pos_nonneg; lia).
    nia.
Qed.

(** The fast loop of [Atoi] on any string. *)
Lemma atoiLoop_spec (s : string) :
  forall n,
  strconv.atoiLoop s n
  = if allDigits s then (decimalValue s n, None) else (0, Some strconv.ErrSyntax).
Proof.
  induction s as [|c s IH]; intros n; cbn [strconv.atoiLoop allDigits decimalValue];
    [reflexivity|].
  destruct (atoi_digit c) as [-> Hv].
  destruct (isDigit c); cbn [negb andb]; [|reflexivity].
  now rewrite IH, Hv.
Qed.

(** The loop of [ParseUint] on any string. *)
Lemma parseUintLoop_spec (s : string) :
  forall n, 0 <= n <= maxUint64 ->
  if allDigits s && (decimalValue s n <=? maxUint64)
  then strconv.parseUintLoop s n = (decimalValue s n, None)
  else snd (strconv.parseUintLoop s n) <> None.
Proof.
  induction s as [|c s IH]; intros n Hn;
    cbn [strconv.parseUintLoop allDigits decimalValue].
  - cbn [andb]. destruct (Z.leb_spec n maxUint64); [reflexivity|lia].
  - destruct (isDigit c) eqn:Hc; cbn [andb]; [|discriminate].
    pose proof (isDigit_spec c Hc) as Hd.
    unfold maxUint64 in *. rewrite two64_eq in *.
    change ((18446744073709551616 - 1) / 10 + 1) with 1844674407370955162.
    assert (Hbig : 18446744073709551616 - 1 < n * 10 + digitVal c ->
      allDigits s && (decimalValue s (n * 10 + digitVal c) <=? 18446744073709551616 - 1)
      = false).
    { intros Hlt. destruct (allDigits s) eqn:Hs; [|reflexivity]. cbn [andb].
      pose proof (decimalValue_ge s (n * 10 + digitVal c) ltac:(lia) Hs).
      apply Z.leb_gt. lia. }
    destruct (Z.leb_spec 1844674407370955162 n).
    + rewrite Hbig by lia. discriminate.
    + rewrite (uint64_id (n * 10)) by (unfold is_uint64; rewrite two64_eq; lia).
      destruct (Z.le_gt_cases (n * 10 + digitVal c) (18446744073709551616 - 1)).
      * rewrite (uint64_id (n * 10 + digitVal c))
          by (unfold is_uint64; rewrite two64_eq; lia).
        destruct (Z.ltb_spec (n * 10 + digitVal c) (n * 10)); [lia|].
        destruct (Z.ltb_spec (18446744073709551616 - 1) (n * 10 + digitVal c)); [lia|].
        cbn [orb]. apply IH. lia.
      * rewrite Hbig by lia.
        assert (Hw : uint64 (n * 10 + digitVal c)
                     = n * 10 + digitVal c - 18446744073709551616).
        { unfold uint64. rewrite two64_eq.
          replace (n * 10 + digitVal c)
            with (n * 10 + digitVal c - 18446744073709551616
                  + 1 * 18446744073709551616) at 1 by lia.
          rewrite Z.mod_add, Z.mod_small; lia. }
        rewrite Hw.
        destruct (Z.ltb_spec (n * 10 + digitVal c - 18446744073709551616) (n * 10));
          [|lia].
        cbn [orb]. discriminate.
Qed.

Lemma ParseUint_spec (s : string) :
  if negb (s =? "")%string && allDigits s && (decimalValue s 0 <=? maxUint64)
  then strconv.ParseUint s = (decimalValue s 0, None)
  else snd (strconv.ParseUint s) <> None.
Proof.
  destruct s as [|c s]; [discriminate|].
  change (negb (String c s =? "")%string) with true. cbn [andb].
  unfold strconv.ParseUint.
  apply (parseUintLoop_spec (String c s) 0).
  unfold maxUint64. rewrite two64_eq. lia.
Qed.

(** X5. [parseUint] of [part_000] accepts a field exactly when what is
    left of it without the white space around is a sequence of decimal
    digits that is not empty and denotes a number below [2 ^ 64], and then
    returns that number; it returns an error for every other field, among
    them the empty field, a field with a sign and a field with a decimal
    point. *)
Theorem parseUint_accepts_digits (s : string) :
  let t := strings.TrimSpace s in
  if negb (t =? "")%string && allDigits t && (decimalValue t 0 <=? maxUint64)
  then Part000.parseUint s = (decimalValue t 0, None)
  else snd (Part000.parseUint s) <> None.
Proof. apply ParseUint_spec. Qed.

(** ** Fields that do not parse in [main.go] *)

Lemma allDigits_digitPrefix (s : string) : allDigits (digitPrefix s) = true.
Proof.
  induction s as [|c s IH]; [reflexivity|].
  cbn [digitPrefix]. destruct (isDigit c) eqn:Hc; [|reflexivity].
  cbn [allDigits]. now rewrite Hc, IH.
Qed.

(** The loop of [ParseUint] reads the digits the string starts with: as
    soon as they denote a number that leaves 64 bits it returns the range
    error, whatever follows; otherwise the first byte that is not a digit
    is a syntax error. *)
Lemma parseUintLoop_prefix (s : string) :
  forall n, 0 <= n <= maxUint64 ->
  strconv.parseUintLoop s n
  = if maxUint64 <? decimalValue (digitPrefix s) n
    then (maxUint64, Some strconv.ErrRange)
    else if allDigits s then (decimalValue s n, None)
         else (0, Some strconv.ErrSyntax).
Proof.
  induction s as [|c s IH]; intros n Hn;
    cbn [strconv.parseUintLoop digitPrefix allDigits decimalValue].
  - destruct (Z.ltb_spec maxUint64 n); [lia|reflexivity].
  - destruct (isDigit c) eqn:Hc; cbn [andb decimalValue].
    + pose proof (isDigit_spec c Hc) as Hd.
      pose proof (decimalValue_ge (digitPrefix s) (n * 10 + digitVal c)
                    ltac:(lia) (allDigits_digitPrefix s)) as Hge.
      unfold maxUint64 in *. rewrite two64_eq in *.
      change ((18446744073709551616 - 1) / 10 + 1) with 1844674407370955162.
      destruct (Z.leb_spec 1844674407370955162 n).
      * destruct (Z.ltb_spec (18446744073709551616 - 1)
                    (decimalValue (digitPrefix s) (n * 10 + digitVal c)));
          [reflexivity|lia].
      * rewrite (uint64_id (n * 10)) by (unfold is_uint64; rewrite two64_eq; lia).
        destruct (Z.le_gt_cases (n * 10 + digitVal c) (18446744073709551616 - 1)).
        -- rewrite (uint64_id (n * 10 + digitVal c))
             by (unfold is_uint64; rewrite two64_eq; lia).
           destruct (Z.ltb_spec (n * 10 + digitVal c) (n * 10)); [lia|].
           destruct (Z.ltb_spec (18446744073709551616 - 1) (n * 10 + digitVal c));
             [lia|].
           cbn [orb]. apply IH. lia.
        -- assert (Hw : uint64 (n * 10 + digitVal c)
                        = n * 10 + digitVal c - 18446744073709551616).
           { unfold uint64. rewrite two64_eq.
             replace (n * 10 + digitVal c)
               with (n * 10 + digitVal c - 18446744073709551616
                     + 1 * 18446744073709551616) at 1 by lia.
             rewrite Z.mod_add, Z.mod_small; lia. }
           rewrite Hw.
           destruct (Z.ltb_spec (n * 10 + digitVal c - 18446744073709551616)
                       (n * 10)); [|lia].
           cbn [orb].
           destruct (Z.ltb_spec (18446744073709551616 - 1)
                       (decimalValue (digitPrefix s) (n * 10 + digitVal c)));
             [reflexivity|lia].
    + destruct (Z.ltb_spec maxUint64 n); [lia|reflexivity].
Qed.

Lemma ParseUint_prefix (t : string) :
  strconv.ParseUint t
  = if maxUint64 <? decimalValue (digitPrefix t) 0
    then (maxUint64, Some strconv.ErrRange)
    else if negb (t =? "")%string && allDigits t then (decimalValue t 0, None)
         else (0, Some strconv.ErrSyntax).
Proof.
  destruct t as [|c t]; [reflexivity|].
  change (negb (String c t =? "")%string) with true. cbn [andb].
  unfold strconv.ParseUint.
  apply (parseUintLoop_prefix (String c t) 0).
  unfold maxUint64. rewrite two64_eq. lia.
Qed.

(** C10, amended. In [main.go], when the trimmed body has seven fields of
    which the first parses as a number, the poll succeeds whatever the six
    other fields are: the checks run on the values [strconv.ParseUint]
    returns for the trimmed fields, error or not; [pollOnce] returns no
    error, and the iteration of the loop leaves the counter at zero and
    the flag cleared. What [ParseUint] returns is read off the digits the
    trimmed field starts with: the largest [uint64], with a range error,
    when these digits denote a number that does not fit in 64 bits,
    whatever follows them; otherwise the number itself when the field is
    made of digits and is not empty; otherwise zero, with a syntax
    error. *)
Theorem Main_unparsed_fields_accepted
    (ParseFloat : string -> float64 * option strconv.NumError)
    (env : string -> string) (st : Main.State)
    (body f0 f1 f2 f3 f4 f5 f6 : string) (loadAvg : float64) :
  strings.Split (strings.TrimSpace body) comma = [f0; f1; f2; f3; f4; f5; f6] ->
  ParseFloat (strings.TrimSpace f0) = (loadAvg, None) ->
  let value f := fst (strconv.ParseUint (strings.TrimSpace f)) in
  Main.pollOnce ParseFloat (OK body)
    = (Main.checks f0 loadAvg
         (value f1) (value f2) (value f3) (value f4) (value f5) (value f6) ;;;
       ret None)
  /\ succeeded (Main.pollOnce ParseFloat (OK body))
  /\ snd (Main.iteration ParseFloat env st (OK body)) = Some (Main.mkState 0 false)
  /\ Forall (fun f =>
       let t := strings.TrimSpace f in
       strconv.ParseUint t
       = if maxUint64 <? decimalValue (digitPrefix t) 0
         then (maxUint64, Some strconv.ErrRange)
         else if negb (t =? "")%string && allDigits t then (decimalValue t 0, None)
              else (0, Some strconv.ErrSyntax)) [f1; f2; f3; f4; f5; f6].
Proof.
  intros Hsplit Hpf value.
  assert (Hpoll : Main.pollOnce ParseFloat (OK body)
    = (Main.checks f0 loadAvg
         (value f1) (value f2) (value f3) (value f4) (value f5) (value f6) ;;;
       ret None)).
  { unfold Main.pollOnce, OK. cbn [Z.eqb Pos.eqb negb].
    rewrite (Split_seven_nonempty _ _ Hsplit eq_refl), Hsplit.
    cbn [List.length Nat.eqb negb nth]. rewrite Hpf. reflexivity. }
  assert (Hs : succeeded (Main.pollOnce ParseFloat (OK body))).
  { unfold succeeded. rewrite Hpoll.
    rewrite (bind_run _ _ _ (proj1 (Main_checks_run _ _ _ _ _ _ _ _))).
    reflexivity. }
  split; [exact Hpoll|]. split; [exact Hs|]. split.
  - destruct (Main_iteration_run ParseFloat env st (OK body))
      as (err & Herr & Hst & _).
    unfold succeeded in Hs. rewrite Hs in Herr. injection Herr as <-.
    exact Hst.
  - repeat constructor; apply ParseUint_prefix.
Qed.

Lemma Main_unparsed_fields_accepted_witness :
  let body := " 12.5, 1000,abc,,-4, 99999999999999999999x ,7e3" in
  Main.pollOnce strconv.ParseFloat_decimal (OK body)
  = (Main.checks "12.5" (fst (strconv.ParseFloat_decimal "12.5"))
       1000 0 0 0 maxUint64 0 ;;; ret None)
  /\ Main.pollOnce strconv.ParseFloat_decimal (OK body) = ([], Some None)
  /\ snd (Main.iteration strconv.ParseFloat_decimal (setenv "")
            (Main.mkState 2 false) (OK body)) = Some (Main.mkState 0 false)
  /\ strconv.ParseUint "99999999999999999999x" = (maxUint64, Some strconv.ErrRange)
  /\ strconv.ParseUint "7e3" = (0, Some strconv.ErrSyntax).
Proof.
  cbv zeta.
  pose proof (Main_unparsed_fields_accepted strconv.ParseFloat_decimal (setenv "")
    (Main.mkState 2 false) " 12.5, 1000,abc,,-4, 99999999999999999999x ,7e3"
    "12.5" " 1000" "abc" "" "-4" " 99999999999999999999x " "7e3"
    (fst (strconv.ParseFloat_decimal "12.5")) eq_refl eq_refl) as H.
  cbv zeta in H. destruct H as (H1 & _ & H3 & H4).
  split; [exact H1|]. split; [rewrite H1; vm_compute; reflexivity|].
  split; [exact H3|].
  pose proof (Forall_inv (Forall_inv_tail (Forall_inv_tail (Forall_inv_tail
                (Forall_inv_tail H4))))) as Hx.
  pose proof (Forall_inv (Forall_inv_tail (Forall_inv_tail (Forall_inv_tail
                (Forall_inv_tail (Forall_inv_tail H4)))))) as He.
  split; [exact Hx|exact He].
Defined.

Lemma allDigits_length_value (s : string) :
  allDigits s = true -> Z.of_nat (String.length s) < 19 -> decimalValue s 0 < two63.
Proof.
  intros Hs Hl. pose proof (decimalValue_lt s 0 ltac:(lia) Hs) as Hv.
  assert (10 ^ Z.of_nat (String.length s) <= 10 ^ 18)
    by (apply Z.pow_le_mono_r; lia).
  rewrite two63_eq. change (10 ^ 18) with 1000000000000000000 in *. lia.
Qed.

(** [Atoi] on a string without sign. *)
Lemma Atoi_unsigned (s : string) :
  match s with
  | String c _ => strconv.isSign c = false
  | EmptyString => True
  end ->
  if negb (s =? "")%string && allDigits s && (decimalValue s 0 <? two63)
  then strconv.Atoi s = (decimalValue s 0, None)
  else snd (strconv.Atoi s) <> None.
Proof.
  destruct s as [|c s]; [intros _; cbn; discriminate|]. intros Hc.
  change (negb (String c s =? "")%string) with true. cbn [andb].
  unfold strconv.Atoi.
  destruct ((0 <? Z.of_nat (String.length (String c s)))
            && (Z.of_nat (String.length (String c s)) <? 19)) eqn:Hlen.
  - rewrite Hc, atoiLoop_spec.
    destruct (allDigits (String c s)) eqn:Hs; cbn [andb]; [|discriminate].
    apply andb_prop in Hlen. destruct Hlen as [_ Hlen]. apply Z.ltb_lt in Hlen.
    pose proof (allDigits_length_value _ Hs Hlen) as Hv.
    destruct (Z.ltb_spec (decimalValue (String c s) 0) two63); [reflexivity|lia].
  - unfold strconv.ParseInt. rewrite Hc.
    assert (Hm : strconv.isMinus c = false).
    { unfold strconv.isSign in Hc. unfold strconv.isMinus.
      apply orb_false_elim in Hc. tauto. }
    rewrite Hm.
    pose proof (ParseUint_spec (String c s)) as Hu.
    pose proof (ParseUint_value (String c s)) as Hval.
    change (negb (String c s =? "")%string) with true in Hu. cbn [andb] in Hu.
    destruct (allDigits (String c s)) eqn:Hs; cbn [andb] in *.
    + destruct (Z.leb_spec (decimalValue (String c s) 0) maxUint64) as [Hle|Hgt].
      * rewrite Hu. cbn [negb andb].
        pose proof (decimalValue_ge (String c s) 0 ltac:(lia) Hs) as Hge.
        destruct (Z.leb_spec two63 (decimalValue (String c s) 0));
          destruct (Z.ltb_spec (decimalValue (String c s) 0) two63); try lia.
        -- discriminate.
        -- rewrite int64_id by (unfold is_int64; lia). reflexivity.
      * destruct (Z.ltb_spec (decimalValue (String c s) 0) two63) as [Hlt|_].
        { unfold maxUint64 in Hgt. rewrite two64_eq, two63_eq in *. lia. }
        destruct (strconv.ParseUint (String c s)) as [un [[|]|]];
          [discriminate| |now contradiction Hu].
        subst un. cbn [negb andb]. change (two63 <=? maxUint64) with true.
        discriminate.
    + destruct (strconv.ParseUint (String c s)) as [un [[|]|]];
        [discriminate| |now contradiction Hu].
      subst un. cbn [negb andb]. change (two63 <=? maxUint64) with true.
      discriminate.
Qed.

(** [Atoi] on a string that starts with a plus sign. *)
Lemma Atoi_plus (c : ascii) (d : string) :
  byte_of c = 43 ->
  if negb (d =? "")%string && allDigits d && (decimalValue d 0 <? two63)
  then strconv.Atoi (String c d) = (decimalValue d 0, None)
  else snd (strconv.Atoi (String c d)) <> None.
Proof.
  intros Hc.
  assert (Hsign : strconv.isSign c = true)
    by (unfold strconv.isSign; rewrite Hc; reflexivity).
  assert (Hminus : strconv.isMinus c = false)
    by (unfold strconv.isMinus; rewrite Hc; reflexivity).
  unfold strconv.Atoi.
  destruct ((0 <? Z.of_nat (String.length (String c d)))
            && (Z.of_nat (String.length (String c d)) <? 19)) eqn:Hlen.
  - rewrite Hsign. destruct d as [|a d]; [discriminate|].
    change (negb (String a d =? "")%string) with true. cbn [andb].
    rewrite atoiLoop_spec, Hminus.
    destruct (allDigits (String a d)) eqn:Hs; cbn [andb]; [|discriminate].
    apply andb_prop in Hlen. destruct Hlen as [_ Hlen]. apply Z.ltb_lt in Hlen.
    assert (Hl : Z.of_nat (String.length (String a d)) < 19).
    { change (String.length (String c (String a d)))
        with (S (String.length (String a d))) in Hlen. lia. }
    pose proof (allDigits_length_value _ Hs Hl) as Hv.
    destruct (Z.ltb_spec (decimalValue (String a d) 0) two63); [reflexivity|lia].
  - unfold strconv.ParseInt. rewrite Hsign, Hminus.
    pose proof (ParseUint_spec d) as Hu.
    pose proof (ParseUint_value d) as Hval.
    destruct (negb (d =? "")%string && allDigits d) eqn:Hs; cbn [andb] in *.
    + apply andb_prop in Hs. destruct Hs as [_ Hs].
      pose proof (decimalValue_ge d 0 ltac:(lia) Hs) as Hge.
      destruct (Z.leb_spec (decimalValue d 0) maxUint64) as [Hle|Hgt].
      * rewrite Hu. cbn [negb andb].
        destruct (Z.leb_spec two63 (decimalValue d 0));
          destruct (Z.ltb_spec (decimalValue d 0) two63); try lia.
        -- discriminate.
        -- rewrite int64_id by (unfold is_int64; lia). reflexivity.
      * destruct (Z.ltb_spec (decimalValue d 0) two63) as [Hlt|_].
        { unfold maxUint64 in Hgt. rewrite two64_eq, two63_eq in *. lia. }
        destruct (strconv.ParseUint d) as [un [[|]|]];
          [discriminate| |now contradiction Hu].
        subst un. cbn [negb andb]. change (two63 <=? maxUint64) with true.
        discriminate.
    + destruct (strconv.ParseUint d) as [un [[|]|]];
        [discriminate| |now contradiction Hu].
      subst un. cbn [negb andb]. change (two63 <=? maxUint64) with true.
      discriminate.
Qed.

Lemma byte_of_inj (c d : ascii) : byte_of c = byte_of d -> c = d.
Proof.
  unfold byte_of. intros H. apply N2Z.inj in H.
  rewrite <- (ascii_N_embedding c), <- (ascii_N_embedding d). now f_equal.
Qed.

(** X6. [getenvInt] returns the number the value of the variable denotes
    when that value is a sequence of decimal digits that is not empty,
    after a plus sign or without a sign, and denotes a positive number
    below [2 ^ 63]; it returns the default for every other value: the
    empty string, a number that is zero, negative or too large for an
    [int], and every value with another byte than a digit in it, white
    space included. *)
Theorem getenvInt_reads_positive_numerals
    (env : string -> string) (name : string) (def : Z) :
  let d := unsigned (env name) in
  getenvInt env name def
  = if negb (d =? "")%string && allDigits d
       && (0 <? decimalValue d 0) && (decimalValue d 0 <? two63)
    then decimalValue d 0
    else def.
Proof.
  cbv zeta. unfold getenvInt.
  destruct (env name) as [|c s]; [reflexivity|].
  change (negb (String c s =? "")%string) with true. cbv iota.
  unfold unsigned.
  destruct (Z.eqb_spec (byte_of c) 43) as [Hplus|Hplus].
  - pose proof (Atoi_plus c s Hplus) as H.
    destruct (negb (s =? "")%string && allDigits s) eqn:Hs; cbn [andb] in *.
    + destruct (Z.ltb_spec (decimalValue s 0) two63).
      * rewrite H, andb_true_r. reflexivity.
      * rewrite andb_false_r.
        destruct (strconv.Atoi (String c s)) as [n [e|]];
          [reflexivity|now contradiction H].
    + destruct (strconv.Atoi (String c s)) as [n [e|]];
        [reflexivity|now contradiction H].
  - destruct (Z.eqb_spec (byte_of c) 45) as [Hminus|Hminus].
    + assert (Hc : c = "-"%char) by (apply byte_of_inj; rewrite Hminus; reflexivity).
      subst c. change (negb (String "-" s =? "")%string) with true.
      change (allDigits (String "-" s)) with false. cbn [andb].
      destruct (strconv.Atoi (String "-" s)) as [n [e|]] eqn:Ha; [reflexivity|].
      apply Atoi_minus in Ha. destruct (Z.ltb_spec 0 n); [lia|reflexivity].
    + assert (Hsign : strconv.isSign c = false).
      { unfold strconv.isSign.
        destruct (Z.eqb_spec (byte_of c) 43); [contradiction|].
        destruct (Z.eqb_spec (byte_of c) 45); [contradiction|reflexivity]. }
      pose proof (Atoi_unsigned (String c s) Hsign) as H.
      change (negb (String c s =? "")%string) with true in *. cbn [andb] in *.
      destruct (allDigits (String c s)) eqn:Hs; cbn [andb] in *.
      * destruct (Z.ltb_spec (decimalValue (String c s) 0) two63).
        -- rewrite H, andb_true_r. reflexivity.
        -- rewrite andb_false_r.
           destruct (strconv.Atoi (String c s)) as [n [e|]];
             [reflexivity|now contradiction H].
      * destruct (strconv.Atoi (String c s)) as [n [e|]];
          [reflexivity|now contradiction H].
Qed.

(** ** White space *)

Lemma dropSpace_suffix (back : bool) (l : list ascii) :
  exists p, l = p ++ strings.dropSpace back l.
Proof.
  remember (List.length l) as n eqn:Hn. revert l Hn.
  induction n as [n IH] using lt_wf_ind. intros l Hn.
  destruct l as [|a l1]; [now exists []|].
  cbn [strings.dropSpace].
  destruct (strings.asciiSpace a).
  { destruct (IH (List.length l1) ltac:(subst n; cbn; lia) l1 eq_refl) as [p Hp].
    exists (a :: p). cbn [app]. now rewrite <- Hp. }
  destruct l1 as [|b l2]; [now exists []|].
  destruct (if back then strings.space2 b a else strings.space2 a b).
  { destruct (IH (List.length l2) ltac:(subst n; cbn; lia) l2 eq_refl) as [p Hp].
    exists (a :: b :: p). cbn [app]. now rewrite <- Hp. }
  destruct l2 as [|c l3]; [now exists []|].
  destruct (if back then strings.space3 c b a else strings.space3 a b c).
  { destruct (IH (List.length l3) ltac:(subst n; cbn; lia) l3 eq_refl) as [p Hp].
    exists (a :: b :: c :: p). cbn [app]. now rewrite <- Hp. }
  now exists [].
Qed.

Lemma dropSpace_length (back : bool) (l : list ascii) :
  (List.length (strings.dropSpace back l) <= List.length l)%nat.
Proof.
  destruct (dropSpace_suffix back l) as [p Hp].
  rewrite Hp at 2. rewrite length_app. lia.
Qed.

(** The lists that [dropSpace] leaves as they are: those that do not start
    with white space. *)
Lemma dropSpace_fixed (back : bool) (l : list ascii) :
  strings.dropSpace back l = l <->
  match l with
  | [] => True
  | a :: l1 =>
      strings.asciiSpace a = false
      /\ match l1 with
         | [] => True
         | b :: l2 =>
             (if back then strings.space2 b a else strings.space2 a b) = false
             /\ match l2 with
                | [] => True
                | c :: _ =>
                    (if back then strings.space3 c b a else strings.space3 a b c)
                    = false
                end
         end
  end.
Proof.
  destruct l as [|a l1]; [tauto|].
  cbn [strings.dropSpace].
  destruct (strings.asciiSpace a).
  { split; [|intros [H _]; discriminate H].
    intros H. pose proof (dropSpace_length back l1) as Hl.
    rewrite H in Hl. cbn in Hl. lia. }
  destruct l1 as [|b l2]; [tauto|].
  destruct (if back then strings.space2 b a else strings.space2 a b).
  { split; [|intros [_ [H _]]; discriminate H].
    intros H. pose proof (dropSpace_length back l2) as Hl.
    rewrite H in Hl. cbn in Hl. lia. }
  destruct l2 as [|c l3]; [tauto|].
  destruct (if back then strings.space3 c b a else strings.space3 a b c).
  { split; [|intros [_ [_ H]]; discriminate H].
    intros H. pose proof (dropSpace_length back l3) as Hl.
    rewrite H in Hl. cbn in Hl. lia. }
  tauto.
Qed.

Lemma dropSpace_idem (back : bool) (l : list ascii) :
  strings.dropSpace back (strings.dropSpace back l) = strings.dropSpace back l.
Proof.
  remember (List.length l) as n eqn:Hn. revert l Hn.
  induction n as [n IH] using lt_wf_ind. intros l Hn.
  destruct l as [|a l1]; [reflexivity|].
  cbn [strings.dropSpace].
  destruct (strings.asciiSpace a) eqn:Ha.
  { apply (IH (List.length l1)); [subst n; cbn; lia|reflexivity]. }
  destruct l1 as [|b l2]; [cbn [strings.dropSpace]; now rewrite Ha|].
  destruct (if back then strings.space2 b a else strings.space2 a b) eqn:Hb.
  { apply (IH (List.length l2)); [subst n; cbn; lia|reflexivity]. }
  destruct l2 as [|c l3]; [cbn [strings.dropSpace]; now rewrite Ha, Hb|].
  destruct (if back then strings.space3 c b a else strings.space3 a b c) eqn:Hc.
  { apply (IH (List.length l3)); [subst n; cbn; lia|reflexivity]. }
  cbn [strings.dropSpace]. now rewrite Ha, Hb, Hc.
Qed.

(** A list that does not start with white space has no prefix that does. *)
Lemma dropSpace_fixed_prefix (l p q : list ascii) :
  l = p ++ q -> strings.dropSpace false l = l -> strings.dropSpace false p = p.
Proof.
  intros -> H. apply dropSpace_fixed in H. apply dropSpace_fixed.
  destruct p as [|a [|b [|c p]]]; cbn [app] in *; tauto.
Qed.

Lemma TrimSpace_list (s : string) :
  list_ascii_of_string (strings.TrimSpace s)
  = rev (strings.dropSpace true
           (rev (strings.dropSpace false (list_ascii_of_string s)))).
Proof. unfold strings.TrimSpace. apply list_ascii_of_string_of_list_ascii. Qed.

(** Trimming a second time changes nothing. *)
Lemma TrimSpace_idem (s : string) :
  strings.TrimSpace (strings.TrimSpace s) = strings.TrimSpace s.
Proof.
  unfold strings.TrimSpace at 1. rewrite TrimSpace_list.
  set (l1 := strings.dropSpace false (list_ascii_of_string s)).
  destruct (dropSpace_suffix true (rev l1)) as [p Hp].
  assert (Hl1 : l1 = rev (strings.dropSpace true (rev l1)) ++ rev p).
  { rewrite <- rev_app_distr, <- Hp. symmetry. apply rev_involutive. }
  rewrite (dropSpace_fixed_prefix l1 _ _ Hl1 (dropSpace_idem false _)).
  rewrite rev_involutive, dropSpace_idem. reflexivity.
Qed.

(** What is left after trimming is part of the string. *)
Lemma TrimSpace_infix (s : string) :
  exists p q,
    list_ascii_of_string s = p ++ list_ascii_of_string (strings.TrimSpace s) ++ q.
Proof.
  rewrite TrimSpace_list.
  destruct (dropSpace_suffix false (list_ascii_of_string s)) as [p Hp].
  set (l1 := strings.dropSpace false (list_ascii_of_string s)) in *.
  destruct (dropSpace_suffix true (rev l1)) as [q Hq].
  exists p, (rev q). rewrite <- rev_app_distr, <- Hq, rev_involutive. exact Hp.
Qed.

(** ** The fields of a line *)

Lemma Split_cons (s : string) (sep : ascii) :
  exists p ps, strings.Split s sep = p :: ps.
Proof.
  destruct s as [|c s]; [now exists EmptyString, []|].
  cbn [strings.Split]. destruct (Ascii.eqb c sep); [now eexists; eexists|].
  destruct (strings.Split s sep); now eexists; eexists.
Qed.

Lemma Split_length (s : string) (sep : ascii) :
  List.length (strings.Split s sep)
  = S (count_occ ascii_dec (list_ascii_of_string s) sep).
Proof.
  induction s as [|c s IH]; [reflexivity|].
  cbn [strings.Split list_ascii_of_string count_occ].
  destruct (Ascii.eqb_spec c sep) as [->|ne].
  - destruct (ascii_dec sep sep); [|contradiction]. cbn [List.length]. now rewrite IH.
  - destruct (ascii_dec c sep); [contradiction|].
    destruct (Split_cons s sep) as (p & ps & Hp). rewrite Hp in *. exact IH.
Qed.

Lemma Split_concat (s : string) (sep : ascii) :
  String.concat (String sep EmptyString) (strings.Split s sep) = s.
Proof.
  induction s as [|c s IH]; [reflexivity|].
  cbn [strings.Split].
  destruct (Split_cons s sep) as (p & ps & Hp). rewrite Hp in *.
  destruct (Ascii.eqb_spec c sep) as [->|ne].
  - change (String.concat (String sep "") ("" :: p :: ps))
      with (String sep (String.concat (String sep "") (p :: ps)))%string.
    now rewrite IH.
  - destruct ps as [|p' ps]; cbn [String.concat String.append] in *; now rewrite IH.
Qed.

Lemma Split_no_sep (s : string) (sep : ascii) :
  Forall (fun f => ~ In sep (list_ascii_of_string f)) (strings.Split s sep).
Proof.
  induction s as [|c s IH]; [repeat constructor; intros []|].
  cbn [strings.Split].
  destruct (Ascii.eqb_spec c sep) as [->|ne].
  - constructor; [intros []|exact IH].
  - destruct (Split_cons s sep) as (p & ps & Hp). rewrite Hp in *.
    inversion IH as [|? ? Hp' Hps]; subst. constructor; [|exact Hps].
    cbn [list_ascii_of_string]. intros [H|H]; [now apply ne|now apply Hp'].
Qed.

(** X7. The line is cut at its commas and nowhere else: there is one field
    more than the line has commas, so at least one and seven exactly when
    the line has six commas; no field holds a comma; and the fields of
    [strings.Split], joined by commas, give the line back. [splitCSV] of
    [part_000] returns as many fields, each without a comma and without
    white space around it, so that trimming it again, as [parseUint] does,
    changes nothing. *)
Theorem fields_of_a_line (s : string) :
  let commas := count_occ ascii_dec (list_ascii_of_string s) comma in
  List.length (strings.Split s comma) = S commas
  /\ String.concat "," (strings.Split s comma) = s
  /\ Forall (fun f => ~ In comma (list_ascii_of_string f)) (strings.Split s comma)
  /\ List.length (Part000.splitCSV s) = S commas
  /\ Forall (fun f => ~ In comma (list_ascii_of_string f)
                      /\ strings.TrimSpace f = f) (Part000.splitCSV s).
Proof.
  cbv zeta. split; [apply Split_length|]. split; [apply (Split_concat s comma)|].
  split; [apply Split_no_sep|].
  unfold Part000.splitCSV. rewrite length_map. split; [apply Split_length|].
  apply Forall_map. eapply Forall_impl; [|apply (Split_no_sep s comma)].
  intros f Hf. cbv beta. split; [|apply TrimSpace_idem].
  intros Hin. apply Hf.
  destruct (TrimSpace_infix f) as (p & q & ->).
  apply in_or_app. right. apply in_or_app. now left.
Qed.

(** ** ASCII white space around a string *)

Lemma asciiSpace_byte (c : ascii) :
  strings.asciiSpace c = true -> 9 <= byte_of c <= 13 \/ byte_of c = 32.
Proof.
  unfold strings.asciiSpace. intros H. apply orb_prop in H. destruct H as [H|H].
  - apply andb_prop in H. destruct H as [H1 H2]. apply Z.leb_le in H1, H2. now left.
  - apply Z.eqb_eq in H. now right.
Qed.

Lemma space2_ascii (a c : ascii) :
  strings.asciiSpace c = true -> strings.space2 a c = false.
Proof.
  intros H. apply asciiSpace_byte in H. unfold strings.space2.
  destruct (Z.eqb_spec (byte_of c) 133); [lia|].
  destruct (Z.eqb_spec (byte_of c) 160); [lia|].
  apply andb_false_r.
Qed.

Lemma space3_ascii (a b c : ascii) :
  strings.asciiSpace c = true -> strings.space3 a b c = false.
Proof.
  intros H. apply asciiSpace_byte in H. unfold strings.space3.
  destruct (Z.eqb_spec (byte_of c) 128); [lia|].
  destruct (Z.leb_spec 128 (byte_of c)); [lia|].
  destruct (Z.eqb_spec (byte_of c) 168); [lia|].
  destruct (Z.eqb_spec (byte_of c) 169); [lia|].
  destruct (Z.eqb_spec (byte_of c) 175); [lia|].
  destruct (Z.eqb_spec (byte_of c) 159); [lia|].
  cbn [andb orb]. now rewrite !andb_false_r.
Qed.

Lemma dropSpace_snoc_space (c : ascii) (l : list ascii) :
  strings.asciiSpace c = true ->
  strings.dropSpace false (l ++ [c])
  = match strings.dropSpace false l with
    | [] => []
    | d => d ++ [c]
    end.
Proof.
  intros Hc.
  remember (List.length l) as n eqn:Hn. revert l Hn.
  induction n as [n IH] using lt_wf_ind. intros l Hn.
  destruct l as [|a l1]; [cbn; now rewrite Hc|].
  cbn [app strings.dropSpace].
  destruct (strings.asciiSpace a).
  { apply (IH (List.length l1)); [subst n; cbn; lia|reflexivity]. }
  destruct l1 as [|b l2]; [cbn [app]; now rewrite (space2_ascii a c Hc)|].
  cbn [app].
  destruct (strings.space2 a b).
  { apply (IH (List.length l2)); [subst n; cbn; lia|reflexivity]. }
  destruct l2 as [|c' l3]; [cbn [app]; now rewrite (space3_ascii a b c Hc)|].
  cbn [app].
  destruct (strings.space3 a b c').
  { apply (IH (List.length l3)); [subst n; cbn; lia|reflexivity]. }
  reflexivity.
Qed.

Lemma list_ascii_app (s t : string) :
  list_ascii_of_string (s ++ t) = list_ascii_of_string s ++ list_ascii_of_string t.
Proof. induction s as [|c s IH]; cbn; [reflexivity|now rewrite IH]. Qed.

Lemma string_app_assoc (s t u : string) : ((s ++ t) ++ u = s ++ (t ++ u))%string.
Proof. induction s as [|c s IH]; cbn; [reflexivity|now rewrite IH]. Qed.

Lemma TrimSpace_snoc_space (s : string) (c : ascii) :
  strings.asciiSpace c = true ->
  strings.TrimSpace (s ++ String c "") = strings.TrimSpace s.
Proof.
  intros Hc. unfold strings.TrimSpace. f_equal. f_equal.
  rewrite list_ascii_app. cbn [list_ascii_of_string].
  rewrite (dropSpace_snoc_space c _ Hc).
  destruct (strings.dropSpace false (list_ascii_of_string s)) as [|a d];
    [reflexivity|].
  rewrite rev_app_distr. cbn [rev app strings.dropSpace]. now rewrite Hc.
Qed.

(** ASCII white space after a string does not change what trimming leaves
    of it. *)
Lemma TrimSpace_app_spaces (ws : string) :
  Forall (fun c => strings.asciiSpace c = true) (list_ascii_of_string ws) ->
  forall s, strings.TrimSpace (s ++ ws) = strings.TrimSpace s.
Proof.
  induction ws as [|c ws IH]; intros H s.
  - f_equal. induction s as [|a s IHs]; cbn; [reflexivity|now rewrite IHs].
  - cbn [list_ascii_of_string] in H. inversion H as [|? ? Hc Hws]; subst.
    change (String c ws) with (String c "" ++ ws)%string.
    rewrite <- string_app_assoc, (IH Hws). now apply TrimSpace_snoc_space.
Qed.

Lemma TrimSpace_spaces (ws : string) :
  Forall (fun c => strings.asciiSpace c = true) (list_ascii_of_string ws) ->
  strings.TrimSpace ws = "".
Proof. intros H. exact (TrimSpace_app_spaces ws H ""). Qed.

(** ** The first line of a body *)

Lemma ReadString_prefix (body : string) :
  exists rest, body = (Part000.ReadString body ++ rest)%string.
Proof.
  induction body as [|c body [rest IH]]; [now exists ""|].
  cbn [Part000.ReadString]. destruct (Ascii.eqb c newline).
  - now exists body.
  - exists rest. cbn. now rewrite <- IH.
Qed.

Lemma ReadString_line (line rest : string) :
  ~ In newline (list_ascii_of_string line) ->
  Part000.ReadString (line ++ String newline rest) = (line ++ String newline "")%string.
Proof.
  induction line as [|c line IH]; intros H.
  - cbn. reflexivity.
  - cbn [String.append Part000.ReadString].
    destruct (Ascii.eqb_spec c newline) as [->|ne]; [exfalso; apply H; now left|].
    rewrite IH; [reflexivity|]. intros Hin. apply H. now right.
Qed.

Lemma ReadString_whole (line : string) :
  ~ In newline (list_ascii_of_string line) -> Part000.ReadString line = line.
Proof.
  induction line as [|c line IH]; intros H; [reflexivity|].
  cbn [Part000.ReadString].
  destruct (Ascii.eqb_spec c newline) as [->|ne]; [exfalso; apply H; now left|].
  rewrite IH; [reflexivity|]. intros Hin. apply H. now right.
Qed.

(** X8. [part_000] never looks at what follows the first line feed of the
    body: whatever it is, the poll returns and prints what it returns and
    prints for the first line alone. *)
Theorem Part000_reads_one_line
    (ParseFloat : string -> float64 * option strconv.NumError)
    (code : Z) (line rest : string) (readErr : bool) :
  ~ In newline (list_ascii_of_string line) ->
  Part000.pollOnce ParseFloat (Response code (line ++ String newline rest) readErr)
  = Part000.pollOnce ParseFloat (Response code line readErr).
Proof.
  intros H. unfold Part000.pollOnce.
  rewrite (ReadString_line line rest H), (ReadString_whole line H).
  now rewrite (TrimSpace_snoc_space line newline eq_refl).
Qed.

Lemma Part000_reads_one_line_witness :
  Part000.pollOnce strconv.ParseFloat_decimal
    (Response 200 ("1,8,1,8,1,8,1" ++ String newline "99,1,1,1,1,1,1,x") false)
  = Part000.pollOnce strconv.ParseFloat_decimal (Response 200 "1,8,1,8,1,8,1" false).
Proof.
  apply (Part000_reads_one_line strconv.ParseFloat_decimal 200
           "1,8,1,8,1,8,1" "99,1,1,1,1,1,1,x" false).
  cbn. intros H. repeat (destruct H as [H|H]; [discriminate H|]). exact H.
Defined.

(** ** Polls rejected before the fields are read *)

(** X9. A poll is rejected, with nothing printed, when the request fails,
    when the status is not 200 whatever the body holds, and when the body
    is empty or holds ASCII white space only. [main.go] also rejects a
    body whose reading ended on an error, whatever was read; [part_000]
    ignores that error and goes on with what was read. *)
Theorem rejected_before_parsing
    (ParseFloat : string -> float64 * option strconv.NumError) :
  Main.pollOnce ParseFloat TransportError = ([], Some (Some ErrDo))
  /\ Part000.pollOnce ParseFloat TransportError = ([], Some (Some ErrDo))
  /\ (forall (code : Z) (body : string) (readErr : bool),
         code <> 200 ->
         Main.pollOnce ParseFloat (Response code body readErr)
         = ([], Some (Some (ErrBadStatus code)))
         /\ Part000.pollOnce ParseFloat (Response code body readErr)
            = ([], Some (Some (ErrBadStatus code))))
  /\ (forall body : string,
         Main.pollOnce ParseFloat (Response 200 body true)
         = ([], Some (Some ErrReadBody))
         /\ Part000.pollOnce ParseFloat (Response 200 body true)
            = Part000.pollOnce ParseFloat (Response 200 body false))
  /\ (forall (body : string) (readErr : bool),
         Forall (fun c => strings.asciiSpace c = true) (list_ascii_of_string body) ->
         Main.pollOnce ParseFloat (Response 200 body false)
         = ([], Some (Some ErrEmptyBody))
         /\ Part000.pollOnce ParseFloat (Response 200 body readErr)
            = ([], Some (Some ErrEmptyBody))).
Proof.
  split; [reflexivity|]. split; [reflexivity|]. split; [|split].
  - intros code body readErr Hc. unfold Main.pollOnce, Part000.pollOnce.
    destruct (Z.eqb_spec code 200); [contradiction|]. split; reflexivity.
  - intros body. split; reflexivity.
  - intros body readErr H. unfold Main.pollOnce, Part000.pollOnce.
    cbn [Z.eqb Pos.eqb negb].
    rewrite (TrimSpace_spaces body H).
    assert (Hline : Forall (fun c => strings.asciiSpace c = true)
                      (list_ascii_of_string (Part000.ReadString body))).
    { destruct (ReadString_prefix body) as [rest Hr].
      rewrite Hr, list_ascii_app in H. now apply Forall_app in H. }
    rewrite (TrimSpace_spaces _ Hline). split; reflexivity.
Qed.

Lemma rejected_before_parsing_witness :
  let body := String "009" (String " " (String "013" (String "010" ""))) in
  Main.pollOnce strconv.ParseFloat_decimal (Response 404 "1,2,3,4,5,6,7" false)
  = ([], Some (Some (ErrBadStatus 404)))
  /\ Main.pollOnce strconv.ParseFloat_decimal (Response 200 body false)
     = ([], Some (Some ErrEmptyBody))
  /\ Part000.pollOnce strconv.ParseFloat_decimal (Response 200 body true)
     = ([], Some (Some ErrEmptyBody)).
Proof.
  cbv zeta.
  destruct (rejected_before_parsing strconv.ParseFloat_decimal)
    as (_ & _ & Hstatus & _ & Hblank).
  split; [apply (Hstatus 404 "1,2,3,4,5,6,7" false); discriminate|].
  assert (H : Forall (fun c => strings.asciiSpace c = true)
                (list_ascii_of_string
                   (String "009" (String " " (String "013" (String "010" ""))))))
    by (repeat constructor).
  split; [apply (Hblank _ false H)|apply (Hblank _ true H)].
Defined.

(** ** The two programs on the same answer *)

Lemma map_seven {A B : Type} (f : A -> B) (l : list A) (b0 b1 b2 b3 b4 b5 b6 : B) :
  map f l = [b0; b1; b2; b3; b4; b5; b6] ->
  exists a0 a1 a2 a3 a4 a5 a6,
    l = [a0; a1; a2; a3; a4; a5; a6]
    /\ b0 = f a0 /\ b1 = f a1 /\ b2 = f a2 /\ b3 = f a3
    /\ b4 = f a4 /\ b5 = f a5 /\ b6 = f a6.
Proof.
  intros H.
  do 7 (destruct l as [|? l]; [discriminate H|]).
  destruct l; [|discriminate H].
  cbn [map] in H. injection H as <- <- <- <- <- <- <-.
  repeat eexists.
Qed.

Lemma parseUint_trimmed (f : string) (v : Z) :
  Part000.parseUint (strings.TrimSpace f) = (v, None) ->
  fst (strconv.ParseUint (strings.TrimSpace f)) = v.
Proof.
  unfold Part000.parseUint. rewrite TrimSpace_idem. now intros ->.
Qed.

(** X10. On a body of which the first line, trimmed, is the whole body,
    trimmed, and that is read without error, whenever [part_000] accepts
    the answer [main.go] accepts it too, and the two programs run their
    checks on the same load average and the same six numbers; [main.go]
    hands the first field to its check as it was cut, [part_000] without
    the white space around it. A body that is one line, ended or not by a
    line feed and ASCII white space, is such a body. *)
Theorem same_snapshot_in_both_programs
    (ParseFloat : string -> float64 * option strconv.NumError) :
  (forall body : string,
      strings.TrimSpace (Part000.ReadString body) = strings.TrimSpace body ->
      succeeded (Part000.pollOnce ParseFloat (OK body)) ->
      exists (f0 : string) (loadAvg : float64)
             (totalRAM usedRAM totalDisk usedDisk netCap netUsed : Z),
        Part000.pollOnce ParseFloat (OK body)
        = (Part000.checks (strings.TrimSpace f0) loadAvg
             totalRAM usedRAM totalDisk usedDisk netCap netUsed ;;; ret None)
        /\ Main.pollOnce ParseFloat (OK body)
           = (Main.checks f0 loadAvg
                totalRAM usedRAM totalDisk usedDisk netCap netUsed ;;; ret None)
        /\ succeeded (Main.pollOnce ParseFloat (OK body)))
  /\ (forall line ws : string,
         ~ In newline (list_ascii_of_string line) ->
         Forall (fun c => strings.asciiSpace c = true) (list_ascii_of_string ws) ->
         strings.TrimSpace (Part000.ReadString line) = strings.TrimSpace line
         /\ strings.TrimSpace (Part000.ReadString (line ++ String newline ws))
            = strings.TrimSpace (line ++ String newline ws)).
Proof.
  split.
  - intros body Hline Hs.
    destruct (Part000_pollOnce_cases ParseFloat (OK body)) as [[e He]|H].
    { unfold succeeded in Hs. rewrite He in Hs. discriminate Hs. }
    destruct H as (code & body' & re & g0 & g1 & g2 & g3 & g4 & g5 & g6 & la
                   & v1 & v2 & v3 & v4 & v5 & v6
                   & Hr & Hsplit & Hla & H1 & H2 & H3 & H4 & H5 & H6 & Hpoll).
    unfold OK in Hr. injection Hr as <- <- <-.
    unfold Part000.splitCSV in Hsplit. rewrite Hline in Hsplit.
    destruct (map_seven _ _ _ _ _ _ _ _ _ Hsplit)
      as (f0 & f1 & f2 & f3 & f4 & f5 & f6 & Hf & -> & -> & -> & -> & -> & -> & ->).
    exists f0, la, v1, v2, v3, v4, v5, v6.
    split; [exact Hpoll|].
    assert (Hmain : Main.pollOnce ParseFloat (OK body)
      = (Main.checks f0 la v1 v2 v3 v4 v5 v6 ;;; ret None)).
    { unfold Main.pollOnce, OK. cbn [Z.eqb Pos.eqb negb].
      rewrite (Split_seven_nonempty _ _ Hf eq_refl), Hf.
      cbn [List.length Nat.eqb negb nth]. rewrite Hla.
      now rewrite (parseUint_trimmed f1 v1 H1), (parseUint_trimmed f2 v2 H2),
        (parseUint_trimmed f3 v3 H3), (parseUint_trimmed f4 v4 H4),
        (parseUint_trimmed f5 v5 H5), (parseUint_trimmed f6 v6 H6). }
    split; [exact Hmain|].
    unfold succeeded. rewrite Hmain.
    rewrite (bind_run _ _ _ (proj1 (Main_checks_run _ _ _ _ _ _ _ _))).
    reflexivity.
  - intros line ws Hn Hws. split.
    + now rewrite (ReadString_whole line Hn).
    + rewrite (ReadString_line line ws Hn).
      assert (Hnl : strings.asciiSpace newline = true) by reflexivity.
      rewrite (TrimSpace_snoc_space line newline Hnl).
      symmetry. apply TrimSpace_app_spaces.
      cbn [list_ascii_of_string]. now constructor.
Qed.

Lemma same_snapshot_in_both_programs_witness :
  let line := (" 31.50 , 1000,900 ,1000,950,1000,950" ++ String "013" "")%string in
  let body := (line ++ String newline "")%string in
  strings.TrimSpace (Part000.ReadString body) = strings.TrimSpace body
  /\ succeeded (Part000.pollOnce strconv.ParseFloat_decimal (OK body))
  /\ exists (f0 : string) (loadAvg : float64)
            (totalRAM usedRAM totalDisk usedDisk netCap netUsed : Z),
       Part000.pollOnce strconv.ParseFloat_decimal (OK body)
       = (Part000.checks (strings.TrimSpace f0) loadAvg
            totalRAM usedRAM totalDisk usedDisk netCap netUsed ;;; ret None)
       /\ Main.pollOnce strconv.ParseFloat_decimal (OK body)
          = (Main.checks f0 loadAvg
               totalRAM usedRAM totalDisk usedDisk netCap netUsed ;;; ret None)
       /\ succeeded (Main.pollOnce strconv.ParseFloat_decimal (OK body)).
Proof.
  cbv zeta.
  destruct (same_snapshot_in_both_programs strconv.ParseFloat_decimal) as [Hsame Hline].
  assert (Hn : ~ In newline
                 (list_ascii_of_string
                    (" 31.50 , 1000,900 ,1000,950,1000,950" ++ String "013" ""))).
  { intros H. cbn in H. repeat (destruct H as [H|H]; [discriminate H|]). exact H. }
  pose proof (proj2 (Hline _ "" Hn (Forall_nil _))) as Hl.
  assert (Hs : succeeded
                 (Part000.pollOnce strconv.ParseFloat_decimal
                    (OK ((" 31.50 , 1000,900 ,1000,950,1000,950" ++ String "013" "")
                         ++ String newline ""))))
    by (vm_compute; reflexivity).
  split; [exact Hl|]. split; [exact Hs|]. exact (Hsame _ Hl Hs).
Defined.

Lemma percent_implies_ratio (limit n d total used : Z) (threshold : float64) :
  0 <= used < 2 ^ 53 -> 0 <= total <= 2 ^ 50 ->
  0 <= limit -> limit * d = 100 * n -> 0 < d ->
  (0 < total -> crossesRatio threshold total used = (n * total <? d * used)) ->
  (crossesPercent limit total used = true -> crossesRatio threshold total used = true)
  /\ (crossesRatio threshold total used = true ->
      crossesPercent limit total used = false ->
      limit * total < 100 * used < (limit + 1) * total).
Proof.
  intros Hu Ht Hl Hnd Hd Hratio.
  assert (H53 : 2 ^ 53 = 9007199254740992) by reflexivity.
  rewrite crossesPercent_exact by (rewrite ?two63_eq; lia).
  destruct (Z.ltb_spec 0 total) as [Hpos|Hzero].
  - rewrite (Hratio Hpos). cbn [andb]. split.
    + intros H. apply Z.leb_le in H. apply Z.ltb_lt. nia.
    + intros H1 H2. apply Z.ltb_lt in H1. apply Z.leb_gt in H2. nia.
  - assert (total = 0) by lia. subst total. cbn [andb].
    split; [discriminate|]. unfold crossesRatio. cbn [Z.ltb andb]. discriminate.
Qed.

Lemma In_checkOrder (m : Metric) : In m checkOrder.
Proof. destruct m; cbn; tauto. Qed.

(** X11. On the same snapshot, with totals up to [2 ^ 50] and values used
    below [2 ^ 53], every metric [main.go] warns about [part_000] warns
    about too. The two agree on the load average. Where [part_000] alone
    warns about memory, disk or network, the ratio lies strictly between
    the threshold and the next whole percent: above 80 and below 81 percent
    of the memory, above 90 and below 91 percent of the disk and of the
    network. *)
Theorem Main_warnings_among_those_of_Part000
    (text text' : string) (loadAvg : float64)
    (totalRAM usedRAM totalDisk usedDisk netCap netUsed : Z) :
  0 <= usedRAM < 2 ^ 53 -> 0 <= totalRAM <= 2 ^ 50 ->
  0 <= usedDisk < 2 ^ 53 -> 0 <= totalDisk <= 2 ^ 50 ->
  0 <= netUsed < 2 ^ 53 -> 0 <= netCap <= 2 ^ 50 ->
  let main := metrics (events (Main.checks text loadAvg
                                 totalRAM usedRAM totalDisk usedDisk netCap netUsed)) in
  let part := metrics (events (Part000.checks text' loadAvg
                                 totalRAM usedRAM totalDisk usedDisk netCap netUsed)) in
  (forall m : Metric, In m main -> In m part)
  /\ (In Load part -> In Load main)
  /\ (In Memory part -> ~ In Memory main ->
      80 * totalRAM < 100 * usedRAM < 81 * totalRAM)
  /\ (In Disk part -> ~ In Disk main ->
      90 * totalDisk < 100 * usedDisk < 91 * totalDisk)
  /\ (In Network part -> ~ In Network main ->
      90 * netCap < 100 * netUsed < 91 * netCap).
Proof.
  intros Hur Htr Hud Htd Hun Htn main part. subst main part.
  rewrite (proj2 (proj2 (Main_checks_run text loadAvg
             totalRAM usedRAM totalDisk usedDisk netCap netUsed))).
  rewrite (proj2 (Part000_checks_run text' loadAvg
             totalRAM usedRAM totalDisk usedDisk netCap netUsed)).
  destruct (percent_implies_ratio 80 4 5 totalRAM usedRAM Part000.memUsageThreshold
              Hur Htr ltac:(lia) eq_refl eq_refl
              (fun H => proj1 (crossesRatio_exact totalRAM usedRAM Hur
                                 (conj H (proj2 Htr))))) as [Hr1 Hr2].
  destruct (percent_implies_ratio 90 9 10 totalDisk usedDisk Part000.diskUsageThreshold
              Hud Htd ltac:(lia) eq_refl eq_refl
              (fun H => proj1 (proj2 (crossesRatio_exact totalDisk usedDisk Hud
                                        (conj H (proj2 Htd)))))) as [Hd1 Hd2].
  destruct (percent_implies_ratio 90 9 10 netCap netUsed Part000.netUsageThreshold
              Hun Htn ltac:(lia) eq_refl eq_refl
              (fun H => proj2 (proj2 (crossesRatio_exact netCap netUsed Hun
                                        (conj H (proj2 Htn)))))) as [Hn1 Hn2].
  assert (Hin : forall (f : Metric -> bool) (m : Metric),
            In m (filter f checkOrder) <-> f m = true).
  { intros f m. rewrite filter_In. pose proof (In_checkOrder m). tauto. }
  assert (Hnot : forall b : bool, b <> true -> b = false)
    by (intros [|] H; [now contradiction H|reflexivity]).
  split; [|split; [|split; [|split]]].
  - intros m. rewrite !Hin. destruct m; cbn [Main_warns Part000_warns]; auto.
  - rewrite !Hin. cbn [Main_warns Part000_warns]. auto.
  - rewrite !Hin. cbn [Main_warns Part000_warns]. intros H1 H2.
    apply Hr2; [exact H1|now apply Hnot].
  - rewrite !Hin. cbn [Main_warns Part000_warns]. intros H1 H2.
    apply Hd2; [exact H1|now apply Hnot].
  - rewrite !Hin. cbn [Main_warns Part000_warns]. intros H1 H2.
    apply Hn2; [exact H1|now apply Hnot].
Qed.

Lemma Main_warnings_among_those_of_Part000_witness :
  metrics (events (Main.checks "31" (float64_of_Z 31) 1000 805 1000 950 0 7))
  = [Load; Disk]
  /\ metrics (events (Part000.checks "31" (float64_of_Z 31) 1000 805 1000 950 0 7))
     = [Load; Memory; Disk]
  /\ 80 * 1000 < 100 * 805 < 81 * 1000.
Proof.
  destruct (Main_warnings_among_those_of_Part000 "31" "31" (float64_of_Z 31)
              1000 805 1000 950 0 7
              ltac:(split; [lia|reflexivity]) ltac:(split; [lia|discriminate])
              ltac:(split; [lia|reflexivity]) ltac:(split; [lia|discriminate])
              ltac:(split; [lia|reflexivity]) ltac:(split; [lia|discriminate]))
    as (_ & _ & H3 & _).
  split; [vm_compute; reflexivity|]. split; [vm_compute; reflexivity|].
  apply H3.
  - vm_compute. tauto.
  - vm_compute. intros [H|[H|[]]]; discriminate H.
Defined.

(** ** The text of a number without its trailing zeros *)

Lemma dropWhile_suffix (p : ascii -> bool) (l : list ascii) :
  exists z, l = z ++ strings.dropWhile p l /\ Forall (fun c => p c = true) z.
Proof.
  induction l as [|a l (z & Hz & Hp)]; [now exists []|].
  cbn [strings.dropWhile]. destruct (p a) eqn:Ha.
  - exists (a :: z). cbn [app]. rewrite <- Hz. split; [reflexivity|now constructor].
  - now exists [].
Qed.

Lemma string_of_list_app (x y : list ascii) :
  string_of_list_ascii (x ++ y)
  = (string_of_list_ascii x ++ string_of_list_ascii y)%string.
Proof. induction x as [|c x IH]; cbn; [reflexivity|now rewrite IH]. Qed.

Lemma TrimRight_suffix (s cutset : string) :
  exists z,
    s = (strings.TrimRight s cutset ++ z)%string
    /\ Forall (fun c => strings.inCutset c cutset = true) (list_ascii_of_string z).
Proof.
  unfold strings.TrimRight.
  destruct (dropWhile_suffix (fun c => strings.inCutset c cutset)
              (rev (list_ascii_of_string s))) as (z & Hz & Hp).
  exists (string_of_list_ascii (rev z)).
  rewrite list_ascii_of_string_of_list_ascii. split; [|now apply Forall_rev].
  rewrite <- string_of_list_app, <- rev_app_distr, <- Hz, rev_involutive.
  symmetry. apply string_of_list_ascii_of_string.
Qed.

Lemma TrimRight_app_cut (s z cutset : string) :
  Forall (fun c => strings.inCutset c cutset = true) (list_ascii_of_string z) ->
  strings.TrimRight (s ++ z) cutset = strings.TrimRight s cutset.
Proof.
  intros H. unfold strings.TrimRight. f_equal. f_equal.
  rewrite list_ascii_app, rev_app_distr.
  apply Forall_rev in H. induction H as [|c l Hc _ IH]; [reflexivity|].
  cbn [app strings.dropWhile]. now rewrite Hc.
Qed.

Lemma TrimRight_kept (s : string) (c : ascii) (cutset : string) :
  strings.inCutset c cutset = false ->
  strings.TrimRight (s ++ String c "") cutset = (s ++ String c "")%string.
Proof.
  intros H. unfold strings.TrimRight.
  rewrite list_ascii_app, rev_app_distr. cbn [list_ascii_of_string rev app].
  cbn [strings.dropWhile]. rewrite H.
  change (c :: rev (list_ascii_of_string s))
    with (rev [c] ++ rev (list_ascii_of_string s)).
  rewrite <- rev_app_distr, rev_involutive.
  change [c] with (list_ascii_of_string (String c "")).
  rewrite <- list_ascii_app. apply string_of_list_ascii_of_string.
Qed.

Lemma TrimRight_no_cut (s cutset : string) :
  Forall (fun c => strings.inCutset c cutset = false) (list_ascii_of_string s) ->
  strings.TrimRight s cutset = s.
Proof.
  intros H. unfold strings.TrimRight.
  apply Forall_rev in H.
  destruct (rev (list_ascii_of_string s)) as [|c l] eqn:Hr.
  - assert (Hs : list_ascii_of_string s = [])
      by (rewrite <- (rev_involutive (list_ascii_of_string s)), Hr; reflexivity).
    destruct s; [reflexivity|discriminate Hs].
  - inversion H as [|? ? Hc _]; subst. cbn [strings.dropWhile]. rewrite Hc, <- Hr.
    rewrite rev_involutive. apply string_of_list_ascii_of_string.
Qed.

Lemma Contains_dot_app (a b : string) :
  strings.Contains (a ++ String "." b) "." = true.
Proof.
  induction a as [|c a IH].
  - cbn [String.append].
    change (strings.Contains (String "." b) ".")
      with (prefix "." (String "." b) || strings.Contains b ".").
    cbn [prefix]. destruct (Ascii.ascii_dec "." "."); [|contradiction].
    now destruct b.
  - cbn [String.append].
    change (strings.Contains (String c (a ++ String "." b)) ".")
      with (prefix "." (String c (a ++ String "." b))
            || strings.Contains (a ++ String "." b) ".").
    rewrite IH. apply orb_true_r.
Qed.

Lemma inCutset_one (c d : ascii) :
  strings.inCutset c (String d "") = Ascii.eqb c d.
Proof. cbn. apply orb_false_r. Qed.

Lemma string_app_nil_r (s : string) : (s ++ "")%string = s.
Proof. induction s as [|c s IH]; cbn; [reflexivity|now rewrite IH]. Qed.

(** X12. [trimTrailingZeros] only removes bytes at the end of the string,
    and only zeros and points. Of a string with a point followed by zeros
    only it leaves what stands before the point, if that holds no other
    point; of a string with a point followed by a fraction that ends in
    another byte than a zero or a point, and then zeros, it removes these
    zeros and nothing else. *)
Theorem trimTrailingZeros_removes_zeros_of_the_fraction :
  (forall s : string,
      exists z,
        s = (trimTrailingZeros s ++ z)%string
        /\ Forall (fun c => c = "0"%char \/ c = "."%char) (list_ascii_of_string z))
  /\ (forall a zeros : string,
         ~ In "."%char (list_ascii_of_string a) ->
         Forall (fun c => c = "0"%char) (list_ascii_of_string zeros) ->
         trimTrailingZeros (a ++ String "." zeros) = a)
  /\ (forall (a b : string) (c : ascii) (zeros : string),
         c <> "0"%char -> c <> "."%char ->
         Forall (fun c => c = "0"%char) (list_ascii_of_string zeros) ->
         trimTrailingZeros (a ++ String "." (b ++ String c zeros))
         = (a ++ String "." (b ++ String c ""))%string).
Proof.
  assert (Hzeros : forall zeros : string,
    Forall (fun c => c = "0"%char) (list_ascii_of_string zeros) ->
    Forall (fun c => strings.inCutset c "0" = true) (list_ascii_of_string zeros)).
  { intros zeros H. eapply Forall_impl; [|exact H]. now intros c ->. }
  split; [|split].
  - intros s. unfold trimTrailingZeros.
    destruct (strings.Contains s "."); cbn [negb].
    + destruct (TrimRight_suffix s "0") as (z1 & H1 & Hz1).
      destruct (TrimRight_suffix (strings.TrimRight s "0") ".") as (z2 & H2 & Hz2).
      exists (z2 ++ z1)%string. split.
      * rewrite <- string_app_assoc, <- H2. exact H1.
      * rewrite list_ascii_app. apply Forall_app. split.
        -- eapply Forall_impl; [|exact Hz2]. intros c Hc. cbv beta in Hc.
           rewrite inCutset_one in Hc. apply Ascii.eqb_eq in Hc. now right.
        -- eapply Forall_impl; [|exact Hz1]. intros c Hc. cbv beta in Hc.
           rewrite inCutset_one in Hc. apply Ascii.eqb_eq in Hc. now left.
    + exists ""%string. split; [now rewrite string_app_nil_r|constructor].
  - intros a zeros Ha Hz. unfold trimTrailingZeros.
    rewrite Contains_dot_app. cbn [negb].
    change (a ++ String "." zeros)%string with (a ++ (String "." "" ++ zeros))%string.
    rewrite <- string_app_assoc, (TrimRight_app_cut _ zeros "0" (Hzeros zeros Hz)).
    rewrite (TrimRight_kept a "." "0" eq_refl).
    rewrite (TrimRight_app_cut a (String "." "") ".") by (repeat constructor).
    apply TrimRight_no_cut. apply Forall_forall. intros c Hc.
    rewrite inCutset_one. apply Ascii.eqb_neq. intros ->. now apply Ha.
  - intros a b c zeros Hc0 Hcp Hz. unfold trimTrailingZeros.
    rewrite Contains_dot_app. cbn [negb].
    assert (Hsplit : forall t : string,
      (a ++ String "." (b ++ String c t))%string
      = (((a ++ String "." b) ++ String c "") ++ t)%string).
    { intros t. rewrite !string_app_assoc. reflexivity. }
    rewrite (Hsplit zeros), (Hsplit ""%string), string_app_nil_r.
    rewrite (TrimRight_app_cut _ zeros "0" (Hzeros zeros Hz)).
    rewrite (TrimRight_kept _ c "0")
      by (rewrite inCutset_one; now apply Ascii.eqb_neq).
    apply TrimRight_kept. rewrite inCutset_one. now apply Ascii.eqb_neq.
Qed.

Lemma trimTrailingZeros_removes_zeros_of_the_fraction_witness :
  trimTrailingZeros "31.000" = "31"
  /\ trimTrailingZeros "0.50100" = "0.501".
Proof.
  destruct trimTrailingZeros_removes_zeros_of_the_fraction as (_ & H2 & H3).
  split.
  - apply (H2 "31" "000").
    + cbn. intros [H|[H|[]]]; discriminate H.
    + repeat constructor.
  - apply (H3 "0" "50" "1"%char "00"); [discriminate|discriminate|repeat constructor].
Defined.

(** ** The numbers in the warnings *)

Lemma uint64_difference (total used : Z) :
  0 < total < two64 -> 0 <= used < two63 ->
  uint64 (total - used)
  = if used <=? total then total - used else two64 - (used - total).
Proof.
  rewrite two64_eq, two63_eq. intros Ht Hu. unfold uint64. rewrite two64_eq.
  destruct (Z.leb_spec used total).
  - apply Z.mod_small. lia.
  - replace (total - used)
      with (18446744073709551616 - (used - total) + (-1) * 18446744073709551616)
      by lia.
    rewrite Z.mod_add by lia. apply Z.mod_small. lia.
Qed.

(** X13. In [main.go], for a total that is not zero and a value used of
    which a hundred times is below [2 ^ 63], the memory warning is printed
    when the value used is 81 percent of the total or more, and shows the
    whole part of the percentage; the disk and the network warnings are
    printed from 91 percent on, and show what is left of the total in units
    of [2 ^ 20] bytes for the disk and of a million bytes, not bits, for
    the network. When the value used is above the total, what is left is
    computed on 64 bits without sign and is [2 ^ 64] less the excess. When
    it is not, a percentage shown lies between 81 and 100. *)
Theorem Main_numbers_in_warnings (total used : Z) :
  0 < total < two64 -> 0 <= used -> 100 * used < two63 ->
  let left := if used <=? total then total - used else two64 - (used - total) in
  Main.checkMemory total used
  = (if 81 * total <=? 100 * used then print (MemHigh (100 * used / total))
     else ret tt)
  /\ Main.checkDisk total used
     = (if 91 * total <=? 100 * used then print (DiskLow (left / oneMiB))
        else ret tt)
  /\ Main.checkNetwork total used
     = (if 91 * total <=? 100 * used then print (NetHigh (left / 1000000))
        else ret tt)
  /\ (used <= total -> 81 * total <= 100 * used -> 81 <= 100 * used / total <= 100).
Proof.
  intros Ht Hu Hx left.
  assert (H64 := two64_eq). assert (H63 := two63_eq).
  rewrite Main_checkMemory_run, Main_checkDisk_run, Main_checkNetwork_run.
  rewrite !crossesPercent_exact by lia.
  destruct (Z.ltb_spec 0 total); [|lia]. cbn [andb Z.add].
  change ((80 + 1) * total) with (81 * total).
  change ((90 + 1) * total) with (91 * total).
  rewrite (Z.mul_comm used 100).
  rewrite (uint64_difference total used) by lia. fold left.
  assert (Hq : 0 <= 100 * used / total <= 100 * used).
  { split; [apply Z.div_pos; lia|]. apply Z.div_le_upper_bound; nia. }
  assert (Hleft : 0 <= left < two64) by (subst left; destruct (used <=? total) eqn:E;
    [apply Z.leb_le in E|apply Z.leb_gt in E]; lia).
  assert (Hl : 0 <= left / 1000000 < two63).
  { split; [apply Z.div_pos; lia|]. apply Z.div_lt_upper_bound; lia. }
  rewrite (uint64_id (100 * used)) by (unfold is_uint64; lia).
  rewrite (int64_id (100 * used / total)) by (unfold is_int64; lia).
  rewrite (int64_id (left / 1000000)) by (unfold is_int64; lia).
  repeat split; try reflexivity.
  - apply Z.div_le_lower_bound; lia.
  - apply Z.div_le_upper_bound; lia.
Qed.

Lemma Main_numbers_in_warnings_witness :
  Main.checkMemory 16000000000 14000000000 = print (MemHigh 87)
  /\ Main.checkDisk 1000000000 2000000000 = print (DiskLow 17592186043462)
  /\ Main.checkNetwork 1000000000 950000000 = print (NetHigh 50).
Proof.
  split; [|split].
  - exact (proj1 (Main_numbers_in_warnings 16000000000 14000000000
                    ltac:(split; reflexivity) ltac:(discriminate) eq_refl)).
  - exact (proj1 (proj2 (Main_numbers_in_warnings 1000000000 2000000000
                           ltac:(split; reflexivity) ltac:(discriminate) eq_refl))).
  - exact (proj1 (proj2 (proj2 (Main_numbers_in_warnings 1000000000 950000000
                                  ltac:(split; reflexivity) ltac:(discriminate)
                                  eq_refl)))).
Defined.

Lemma int64_uint64 (z : Z) : int64 (uint64 z) = int64 z.
Proof. unfold int64, uint64. now rewrite Zplus_mod_idemp_l. Qed.

(** X14. In [part_000], for a total of at most [2 ^ 50] that is not zero
    and a value used below [2 ^ 53], the disk and the network warnings are
    printed when the value used is above nine tenths of the total. The
    disk warning shows what is left of the total in units of [2 ^ 20]
    bytes, the network warning eight times what is left in units of
    [2 ^ 20]; both numbers have a sign, are rounded towards zero, and are
    negative or zero when the value used is above the total. *)
Theorem Part000_numbers_in_warnings (total used : Z) :
  0 < total <= 2 ^ 50 -> 0 <= used < 2 ^ 53 ->
  Part000.checkDisk total used
  = (if 9 * total <? 10 * used
     then print (DiskLow (Z.quot (total - used) oneMiB))
     else ret tt)
  /\ Part000.checkNetwork total used
     = (if 9 * total <? 10 * used
        then print (NetHigh (Z.quot ((total - used) * 8) Part000.oneMibit))
        else ret tt)
  /\ (total < used ->
      Z.quot (total - used) oneMiB <= 0
      /\ Z.quot ((total - used) * 8) Part000.oneMibit <= 0).
Proof.
  intros Ht Hu.
  destruct (crossesRatio_exact total used Hu Ht) as (_ & Hd & Hn).
  unfold crossesRatio in Hd, Hn.
  assert (H50 : 2 ^ 50 = 1125899906842624) by reflexivity.
  assert (H53 : 2 ^ 53 = 9007199254740992) by reflexivity.
  assert (H63 := two63_eq).
  destruct (Z.ltb_spec 0 total); [|lia]. cbn [andb] in Hd, Hn.
  unfold Part000.checkDisk, Part000.checkNetwork.
  destruct (Z.ltb_spec 0 total); [|lia].
  rewrite !fdiv_guarded, !bind_ret_l by lia.
  rewrite Hd, Hn, !int64_uint64.
  rewrite (int64_id (total - used)) by (unfold is_int64; lia).
  rewrite (int64_id ((total - used) * 8)) by (unfold is_int64; lia).
  split; [reflexivity|]. split; [reflexivity|].
  intros Hlt. split.
  - rewrite <- (Z.opp_involutive (total - used)), Z.quot_opp_l
      by (unfold oneMiB; lia).
    assert (0 <= Z.quot (- (total - used)) oneMiB)
      by (apply Z.quot_pos; [lia|reflexivity]).
    lia.
  - rewrite <- (Z.opp_involutive ((total - used) * 8)), Z.quot_opp_l
      by (unfold Part000.oneMibit; lia).
    assert (0 <= Z.quot (- ((total - used) * 8)) Part000.oneMibit)
      by (apply Z.quot_pos; [lia|reflexivity]).
    lia.
Qed.

Lemma Part000_numbers_in_warnings_witness :
  Part000.checkDisk 1000000000 950000000 = print (DiskLow 47)
  /\ Part000.checkNetwork 1000000000 950000000 = print (NetHigh 381)
  /\ Part000.checkDisk 1000000000 1004194304 = print (DiskLow (-4)).
Proof.
  split; [|split].
  - exact (proj1 (Part000_numbers_in_warnings 1000000000 950000000
                    ltac:(split; [reflexivity|discriminate])
                    ltac:(split; [discriminate|reflexivity]))).
  - exact (proj1 (proj2 (Part000_numbers_in_warnings 1000000000 950000000
                           ltac:(split; [reflexivity|discriminate])
                           ltac:(split; [discriminate|reflexivity])))).
  - exact (proj1 (Part000_numbers_in_warnings 1000000000 1004194304
                    ltac:(split; [reflexivity|discriminate])
                    ltac:(split; [discriminate|reflexivity]))).
Defined.

(** ** What one iteration prints *)

Lemma Part000_checkMemory_eq (total used : Z) :
  Part000.checkMemory total used
  = if crossesRatio Part000.memUsageThreshold total used
    then print (MemHigh (int_of_float64 (math.Round (f64_mul
           (f64_div (float64_of_Z used) (float64_of_Z total)) (float64_of_Z 100)))))
    else ret tt.
Proof.
  unfold Part000.checkMemory, crossesRatio.
  destruct (Z.ltb_spec 0 total); [|reflexivity].
  now rewrite fdiv_guarded, bind_ret_l by assumption.
Qed.

Lemma Part000_checkDisk_eq (total used : Z) :
  Part000.checkDisk total used
  = if crossesRatio Part000.diskUsageThreshold total used
    then print (DiskLow (Z.quot (int64 (uint64 (total - used))) oneMiB))
    else ret tt.
Proof.
  unfold Part000.checkDisk, crossesRatio.
  destruct (Z.ltb_spec 0 total); [|reflexivity].
  now rewrite fdiv_guarded, bind_ret_l by assumption.
Qed.

Lemma Part000_checkNetwork_eq (total used : Z) :
  Part000.checkNetwork total used
  = if crossesRatio Part000.netUsageThreshold total used
    then print (NetHigh (Z.quot (int64 (int64 (uint64 (total - used)) * 8))
                           Part000.oneMibit))
    else ret tt.
Proof.
  unfold Part000.checkNetwork, crossesRatio.
  destruct (Z.ltb_spec 0 total); [|reflexivity].
  now rewrite fdiv_guarded, bind_ret_l by assumption.
Qed.

(** The four checks print warnings, four at most, and nothing else
    happens. *)
Lemma checks_shape :
  forall (text : string) (loadAvg : float64)
         (totalRAM usedRAM totalDisk usedDisk netCap netUsed : Z),
  let m := Main.checks text loadAvg
             totalRAM usedRAM totalDisk usedDisk netCap netUsed in
  let p := Part000.checks text loadAvg
             totalRAM usedRAM totalDisk usedDisk netCap netUsed in
  (m = (map Print (messages (events m)), Some tt)
   /\ Forall (fun w => isUnable w = false) (messages (events m))
   /\ (List.length (messages (events m)) <= 4)%nat)
  /\ (p = (map Print (messages (events p)), Some tt)
      /\ Forall (fun w => isUnable w = false) (messages (events p))
      /\ (List.length (messages (events p)) <= 4)%nat).
Proof.
  intros. subst m p. split.
  - unfold Main.checks, Main.checkLoad.
    rewrite Main_checkMemory_run, Main_checkDisk_run, Main_checkNetwork_run.
    destruct (f64_gt loadAvg loadAvgThreshold);
      destruct (crossesPercent 80 totalRAM usedRAM);
      destruct (crossesPercent 90 totalDisk usedDisk);
      destruct (crossesPercent 90 netCap netUsed);
      cbn [bind print ret events messages fst snd app map List.length];
      (split; [reflexivity|]); (split; [repeat constructor|lia]).
  - unfold Part000.checks, Part000.checkLoad.
    rewrite Part000_checkMemory_eq, Part000_checkDisk_eq, Part000_checkNetwork_eq.
    destruct (f64_gt loadAvg loadAvgThreshold);
      destruct (crossesRatio Part000.memUsageThreshold totalRAM usedRAM);
      destruct (crossesRatio Part000.diskUsageThreshold totalDisk usedDisk);
      destruct (crossesRatio Part000.netUsageThreshold netCap netUsed);
      cbn [bind print ret events messages fst snd app map List.length];
      (split; [reflexivity|]); (split; [repeat constructor|lia]).
Qed.

Lemma messages_prints (ws : list Message) : messages (map Print ws) = ws.
Proof. induction ws as [|w ws IH]; cbn; [reflexivity|now rewrite IH]. Qed.

(** X15. One iteration of the loop, in either program, prints the warnings
    of the poll, four at most, then the notice of failure if the poll
    failed, the counter of failures so incremented is three or more, and
    the flag is not set, and then pauses for the interval; nothing else
    happens. A poll that fails prints no warning, so that an iteration
    never prints both warnings and the notice. *)
Theorem iteration_prints_warnings_or_notice
    (ParseFloat : string -> float64 * option strconv.NumError)
    (env : string -> string) (r : Fetch) :
  (forall st : Main.State,
      let warnings := messages (events (Main.pollOnce ParseFloat r)) in
      let alert := Main_fails ParseFloat r
                   && (3 <=? int64 (Main.consecutiveErrors st + 1))
                   && negb (Main.errorPrinted st) in
      events (Main.iteration ParseFloat env st r)
      = map Print warnings ++ (if alert then [Print Unable] else [])
        ++ [Sleep (interval env)]
      /\ Forall (fun w => isUnable w = false) warnings
      /\ (List.length warnings <= 4)%nat
      /\ (warnings = [] \/ Main_fails ParseFloat r = false))
  /\ (forall st : Part000.State,
         let warnings := messages (events (Part000.pollOnce ParseFloat r)) in
         let alert := Part000_fails ParseFloat r
                      && (3 <=? int64 (Part000.consecutiveErrors st + 1))
                      && negb (Part000.errorMessagePrinted st) in
         events (Part000.iteration ParseFloat env st r)
         = map Print warnings ++ (if alert then [Print Unable] else [])
           ++ [Sleep (interval env)]
         /\ Forall (fun w => isUnable w = false) warnings
         /\ (List.length warnings <= 4)%nat
         /\ (warnings = [] \/ Part000_fails ParseFloat r = false)).
Proof.
  split; intros st warnings alert; subst warnings alert.
  - unfold Main.iteration, Main_fails.
    destruct (Main_pollOnce_cases ParseFloat r) as [[e ->]|H].
    + cbn [snd events fst messages map app andb]. unfold Main.report.
      destruct ((3 <=? int64 (Main.consecutiveErrors st + 1))
                && negb (Main.errorPrinted st));
        (split; [reflexivity|]); (split; [constructor|]); (split; [cbn; lia|]);
        now left.
    + destruct H as (body & f0 & f1 & f2 & f3 & f4 & f5 & f6 & la & _ & _ & _ & ->).
      match goal with |- context [Main.checks ?a ?b ?c ?d ?e ?f ?g ?h] =>
        destruct (proj1 (checks_shape a b c d e f g h)) as (Hc & Hw & Hl);
        set (m := Main.checks a b c d e f g h) in *
      end.
      cbv zeta in Hc. rewrite Hc.
      cbn [bind ret sleep print snd events fst andb Main.report].
      rewrite !app_nil_r, messages_prints.
      split; [reflexivity|]. split; [exact Hw|]. split; [exact Hl|]. now right.
  - unfold Part000.iteration, Part000_fails.
    destruct (Part000_pollOnce_cases ParseFloat r) as [[e ->]|H].
    + cbn [snd events fst messages map app andb]. unfold Part000.report.
      destruct ((3 <=? int64 (Part000.consecutiveErrors st + 1))
                && negb (Part000.errorMessagePrinted st));
        (split; [reflexivity|]); (split; [constructor|]); (split; [cbn; lia|]);
        now left.
    + destruct H as (code & body & re & f0 & f1 & f2 & f3 & f4 & f5 & f6 & la
                     & v1 & v2 & v3 & v4 & v5 & v6
                     & _ & _ & _ & _ & _ & _ & _ & _ & _ & ->).
      match goal with |- context [Part000.checks ?a ?b ?c ?d ?e ?f ?g ?h] =>
        destruct (proj2 (checks_shape a b c d e f g h)) as (Hc & Hw & Hl);
        set (m := Part000.checks a b c d e f g h) in *
      end.
      cbv zeta in Hc. rewrite Hc.
      cbn [bind ret sleep print snd events fst andb Part000.report].
      rewrite !app_nil_r, messages_prints.
      split; [reflexivity|]. split; [exact Hw|]. split; [exact Hl|]. now right.
Qed.

(** ** The percentage of memory in [part_000] *)

Lemma loc_of_shr_1_record (mrs : shr_record) :
  0 <= shr_m mrs ->
  loc_of_shr_record (shr_1 mrs) = shifted_location (shr_m mrs) (loc_of_shr_record mrs).
Proof.
  destruct mrs as [m r s]. cbn [shr_m]. intros Hm.
  destruct m as [|[p|p|]|p]; try lia; destruct r, s; reflexivity.
Qed.

Lemma shifted_quotient_location (m k : Z) :
  0 <= m -> 0 <= k ->
  shifted_location (m / 2 ^ k) (quotient_location (2 ^ k) (m mod 2 ^ k))
  = quotient_location (2 ^ (k + 1)) (m mod 2 ^ (k + 1)).
Proof.
  intros Hm Hk.
  assert (Hp : 0 < 2 ^ k) by (apply Z.pow_pos_nonneg; lia).
  rewrite Z.pow_add_r, Z.pow_1_r by lia.
  pose proof (Z.div_mod m (2 ^ k) ltac:(lia)) as Hdm.
  pose proof (Z.mod_pos_bound m (2 ^ k) Hp) as Hr.
  set (q := m / 2 ^ k) in *. set (r := m mod 2 ^ k) in *.
  pose proof (Z.div_mod q 2 ltac:(lia)) as Hq2.
  pose proof (Z.mod_pos_bound q 2 ltac:(lia)) as Hb.
  assert (Hrem : m mod (2 ^ k * 2) = r + q mod 2 * 2 ^ k).
  { symmetry. apply (Z.mod_unique_pos m (2 ^ k * 2) (q / 2)); [nia|nia]. }
  rewrite Hrem. unfold shifted_location, quotient_location.
  assert (Hodd : Z.odd q = Z.odd (q mod 2)).
  { rewrite Hq2 at 1. rewrite Z.add_comm. apply Z.odd_add_mul_2. }
  rewrite Hodd.
  assert (Hcase : q mod 2 = 0 \/ q mod 2 = 1) by lia.
  destruct Hcase as [H0|H1].
  - rewrite H0, Z.mul_0_l, Z.add_0_r. change (Z.odd 0) with false. cbv iota.
    destruct (Z.eqb_spec r 0); [reflexivity|].
    f_equal. symmetry. apply Z.compare_lt_iff. lia.
  - rewrite H1, Z.mul_1_l. change (Z.odd 1) with true. cbv iota.
    destruct (Z.eqb_spec r 0) as [->|Hr0].
    + destruct (Z.eqb_spec (0 + 2 ^ k) 0); [lia|].
      f_equal. symmetry. apply Z.compare_eq_iff. lia.
    + destruct (Z.eqb_spec (r + 2 ^ k) 0); [lia|].
      f_equal. symmetry. apply Z.compare_gt_iff. lia.
Qed.

(** After [n] shifts to the right of an exact mantissa, the location tells
    where its remainder by [2 ^ n] lies. *)
Lemma shr_iter_loc (n : positive) (m : Z) :
  0 <= m ->
  loc_of_shr_record (iter_pos shr_1 n (shr_record_of_loc m loc_Exact))
  = quotient_location (2 ^ Zpos n) (m mod 2 ^ Zpos n).
Proof.
  intros Hm. induction n as [|n IH] using Pos.peano_ind.
  - cbn [iter_pos]. rewrite loc_of_shr_1_record by (rewrite shr_m_of_loc; lia).
    rewrite shr_m_of_loc, loc_of_shr_record_of_loc.
    pose proof (shifted_quotient_location m 0 Hm ltac:(lia)) as H.
    change (2 ^ 0) with 1 in H. rewrite Z.div_1_r, Z.mod_1_r in H.
    exact H.
  - rewrite iter_pos_succ, loc_of_shr_1_record.
    + rewrite IH, shr_iter_m, shr_m_of_loc by (rewrite shr_m_of_loc; lia).
      rewrite Pos2Z.inj_succ. apply shifted_quotient_location; lia.
    + rewrite shr_iter_m, shr_m_of_loc by (rewrite shr_m_of_loc; lia).
      apply Z.div_pos; [lia|]. apply Z.pow_pos_nonneg; lia.
Qed.

(** An exact mantissa with [n] digits more than 53 is rounded to the
    nearest mantissa of 53 digits, ties to even. *)
Lemma binary_round_aux_shift (P e : Z) (n : positive) :
  2 ^ (52 + Zpos n) <= P < 2 ^ (53 + Zpos n) -> -1074 <= e + Zpos n <= 970 ->
  binary_round_aux prec emax false P e loc_Exact
  = if round_nearest_even (P / 2 ^ Zpos n)
         (quotient_location (2 ^ Zpos n) (P mod 2 ^ Zpos n)) <? 2 ^ 53
    then S754_finite false
           (Z.to_pos (round_nearest_even (P / 2 ^ Zpos n)
                        (quotient_location (2 ^ Zpos n) (P mod 2 ^ Zpos n))))
           (e + Zpos n)
    else S754_finite false (Z.to_pos (2 ^ 52)) (e + Zpos n + 1).
Proof.
  intros HP He. unfold binary_round_aux.
  assert (Hp : 0 < 2 ^ Zpos n) by (apply Z.pow_pos_nonneg; lia).
  assert (HP0 : 0 < P).
  { apply Z.lt_le_trans with (2 ^ (52 + Zpos n)); [|lia].
    apply Z.pow_pos_nonneg; lia. }
  assert (Hshift : shr_fexp prec emax P e loc_Exact
                   = (iter_pos shr_1 n (shr_record_of_loc P loc_Exact), e + Zpos n)).
  { unfold shr_fexp.
    rewrite (Zdigits2_unique P (53 + Zpos n))
      by (replace (53 + Zpos n - 1) with (52 + Zpos n) by lia; lia).
    rewrite fexp_normal by lia.
    replace (53 + Zpos n + e - 53 - e) with (Zpos n) by lia. reflexivity. }
  rewrite Hshift, shr_iter_m, shr_m_of_loc, shr_iter_loc
    by (rewrite ?shr_m_of_loc; lia).
  assert (Hq : 2 ^ 52 <= P / 2 ^ Zpos n < 2 ^ 53).
  { rewrite !Z.pow_add_r in HP by lia.
    split; [apply Z.div_le_lower_bound|apply Z.div_lt_upper_bound]; lia. }
  pose proof (round_nearest_even_bounds (P / 2 ^ Zpos n)
                (quotient_location (2 ^ Zpos n) (P mod 2 ^ Zpos n))).
  apply round_tail; lia.
Qed.

Lemma round_quotient_error (n b q r : Z) :
  n = b * q + r -> 0 <= r < b ->
  (2 * round_nearest_even q (quotient_location b r) - 1) * b <= 2 * n
  /\ 2 * n <= (2 * round_nearest_even q (quotient_location b r) + 1) * b.
Proof.
  intros Hn Hr.
  set (X := round_nearest_even q (quotient_location b r)).
  pose proof (round_quotient_above n b q r (X - 1) Hn Hr) as Hlo.
  pose proof (round_quotient_above n b q r X Hn Hr) as Hhi.
  fold X in Hlo, Hhi. rewrite Z.ltb_irrefl in Hhi.
  destruct (Z.ltb_spec (X - 1) X); [|lia].
  replace (2 * (X - 1) + 1) with (2 * X - 1) in Hlo by lia.
  split.
  - destruct (Z.even (X - 1)); symmetry in Hlo;
      [apply Z.ltb_lt in Hlo|apply Z.leb_le in Hlo]; lia.
  - destruct (Z.even X); symmetry in Hhi;
      [apply Z.ltb_ge in Hhi|apply Z.leb_gt in Hhi]; lia.
Qed.

Lemma round_half_quotient_error (n b q r : Z) :
  n = b * q + r -> 0 <= r < b -> 0 < q ->
  (2 * round_nearest_even (q / 2) (shifted_location q (quotient_location b r)) - 1) * b
  <= n
  /\ n <= (2 * round_nearest_even (q / 2)
                 (shifted_location q (quotient_location b r)) + 1) * b.
Proof.
  intros Hn Hr Hq.
  set (X := round_nearest_even (q / 2) (shifted_location q (quotient_location b r))).
  pose proof (round_half_quotient_above n b q r (X - 1) Hn Hr Hq) as Hlo.
  pose proof (round_half_quotient_above n b q r X Hn Hr Hq) as Hhi.
  fold X in Hlo, Hhi. rewrite Z.ltb_irrefl in Hhi.
  destruct (Z.ltb_spec (X - 1) X); [|lia].
  replace (2 * (X - 1) + 1) with (2 * X - 1) in Hlo by lia.
  split.
  - destruct (Z.even (X - 1)); symmetry in Hlo;
      [apply Z.ltb_lt in Hlo|apply Z.leb_le in Hlo]; lia.
  - destruct (Z.even X); symmetry in Hhi;
      [apply Z.ltb_ge in Hhi|apply Z.leb_gt in Hhi]; lia.
Qed.

(** The quotient of two integers below [2 ^ 53] whose ratio lies between
    one half and one: it has [M] units of [2 ^ -53], where [M] is the exact
    quotient in these units rounded to the nearest integer. *)
Lemma f64_div_unit (u t : Z) :
  0 < u -> u <= t -> t < 2 * u -> t < 2 ^ 53 ->
  exists M,
    2 ^ 52 <= M <= 2 ^ 53
    /\ (2 * M - 1) * t <= u * 2 ^ 54 <= (2 * M + 1) * t
    /\ f64_div (float64_of_Z u) (float64_of_Z t)
       = if M <? 2 ^ 53 then S754_finite false (Z.to_pos M) (-53)
         else S754_finite false (Z.to_pos (2 ^ 52)) (-52).
Proof.
  intros Hu Hut Htu Ht.
  destruct (normal_mantissa t ltac:(lia)) as [Hdt Hb].
  destruct (normal_mantissa u ltac:(lia)) as [Hdu Ha].
  destruct (Zdigits2_pos_spec u Hu) as [_ Hbu].
  destruct (Zdigits2_pos_spec t ltac:(lia)) as [_ Hbt].
  rewrite (float64_of_Z_exact u (Zdigits2 u)), (float64_of_Z_exact t (Zdigits2 t))
    by lia.
  set (du := Zdigits2 u) in *. set (dt := Zdigits2 t) in *.
  assert (Hd : du = dt \/ du = dt - 1).
  { assert (du - 1 < dt) by (apply pow2_lt_mono; lia).
    assert (dt - 1 < du + 1).
    { apply pow2_lt_mono; [lia|]. rewrite Z.pow_add_r, Z.pow_1_r by lia. lia. }
    lia. }
  assert (HSt : 0 < 2 ^ (53 - dt)) by (apply Z.pow_pos_nonneg; lia).
  assert (HSu : 2 ^ (53 - du) = 2 ^ (53 - dt) \/ 2 ^ (53 - du) = 2 * 2 ^ (53 - dt)).
  { destruct Hd as [->| ->]; [now left|right].
    replace (53 - (dt - 1)) with (53 - dt + 1) by lia.
    rewrite Z.pow_add_r, Z.pow_1_r by lia. lia. }
  set (St := 2 ^ (53 - dt)) in *. set (Su := 2 ^ (53 - du)) in *.
  remember (Z.to_pos (u * Su)) as a eqn:Ea.
  remember (Z.to_pos (t * St)) as b eqn:Eb.
  assert (Ha' : Zpos a = u * Su) by (subst a; apply Z2Pos.id; lia).
  assert (Hb' : Zpos b = t * St) by (subst b; apply Z2Pos.id; lia).
  rewrite <- Ha' in Ha. rewrite <- Hb' in Hb.
  assert (Hda : Zpos (digits2_pos a) = 53)
    by (apply (Zdigits2_unique (Zpos a) 53); [exact Ha|lia]).
  assert (Hdb : Zpos (digits2_pos b) = 53)
    by (apply (Zdigits2_unique (Zpos b) 53); [exact Hb|lia]).
  rewrite SFdiv_normal by (assumption || lia).
  pose proof (Z.div_mod (Zpos a * 2 ^ 53) (Zpos b) ltac:(lia)) as Hdm.
  pose proof (Z.mod_pos_bound (Zpos a * 2 ^ 53) (Zpos b) ltac:(lia)) as Hr.
  set (q := Zpos a * 2 ^ 53 / Zpos b) in *.
  set (r := Zpos a * 2 ^ 53 mod Zpos b) in *.
  change (if r =? 0 then loc_Exact else loc_Inexact (2 * r ?= Zpos b))
    with (quotient_location (Zpos b) r).
  change (2 ^ 52) with 4503599627370496 in *.
  change (2 ^ 53) with 9007199254740992 in *.
  change (2 ^ 54) with 18014398509481984 in *.
  assert (Hq : 4503599627370496 <= q < 18014398509481984) by nia.
  assert (Hab : q < 9007199254740992 <-> Zpos a < Zpos b) by (split; intros; nia).
  destruct Hd as [Hd|Hd].
  - (* as many digits: the quotient is below one, or the two are equal *)
    assert (HS : Su = St) by (subst Su St; now rewrite Hd).
    replace (du - 53 - (dt - 53) - 53) with (-53) by lia.
    destruct (Z.eq_dec u t) as [Heq|Hne].
    + exists 9007199254740992.
      assert (Hab' : Zpos a = Zpos b) by (rewrite Ha', Hb', HS, Heq; reflexivity).
      assert (Hq' : q = 9007199254740992) by nia.
      assert (Hr' : r = 0) by nia.
      split; [lia|]. split; [subst t; lia|].
      rewrite Hq', Hr'.
      change (9007199254740992) with (2 ^ 53) at 1.
      rewrite round_54 by (change (2 ^ 53) with 9007199254740992;
                           change (2 ^ 54) with 18014398509481984; lia).
      reflexivity.
    + assert (Hlt : Zpos a < Zpos b) by (rewrite Ha', Hb', HS; nia).
      exists (round_nearest_even q (quotient_location (Zpos b) r)).
      pose proof (round_nearest_even_bounds q (quotient_location (Zpos b) r)) as HX.
      destruct (round_quotient_error _ _ _ _ Hdm Hr) as [Hlo Hhi].
      set (X := round_nearest_even q (quotient_location (Zpos b) r)) in *.
      split; [lia|]. split.
      * rewrite Ha', Hb', HS in *. split; nia.
      * rewrite round_53 by (change (2 ^ 52) with 4503599627370496;
                             change (2 ^ 53) with 9007199254740992; lia).
        fold X. change (2 ^ 53) with 9007199254740992.
        change (2 ^ 52) with 4503599627370496.
        destruct (X <? 9007199254740992); reflexivity.
  - (* one digit less: the quotient of the mantissas is between one and two *)
    assert (HS : Su = 2 * St).
    { destruct HSu as [HS|HS]; [|exact HS]. subst Su St. rewrite Hd in HS.
      replace (53 - (dt - 1)) with (53 - dt + 1) in HS by lia.
      rewrite Z.pow_add_r, Z.pow_1_r in HS by lia. lia. }
    replace (du - 53 - (dt - 53) - 53) with (-54) by lia.
    assert (Hgt : Zpos b < Zpos a) by (rewrite Ha', Hb', HS; nia).
    exists (round_nearest_even (q / 2)
              (shifted_location q (quotient_location (Zpos b) r))).
    pose proof (round_nearest_even_bounds (q / 2)
                  (shifted_location q (quotient_location (Zpos b) r))) as HX.
    destruct (round_half_quotient_error _ _ _ _ Hdm Hr ltac:(lia)) as [Hlo Hhi].
    set (X := round_nearest_even (q / 2)
                (shifted_location q (quotient_location (Zpos b) r))) in *.
    assert (Hq2 : 9007199254740992 <= q) by lia.
    assert (Hh : 4503599627370496 <= q / 2 < 9007199254740992).
    { split; [apply Z.div_le_lower_bound|apply Z.div_lt_upper_bound]; lia. }
    split; [lia|]. split.
    + rewrite Ha', Hb', HS in *. split; nia.
    + rewrite round_54 by (change (2 ^ 53) with 9007199254740992;
                           change (2 ^ 54) with 18014398509481984; lia).
      fold X. change (2 ^ 53) with 9007199254740992.
      change (2 ^ 52) with 4503599627370496.
      change (-54 + 1) with (-53). change (-53 + 1) with (-52).
      destruct (X <? 9007199254740992); reflexivity.
Qed.

(** A number between 0.64 and 1, of [M] units of [2 ^ -53], times 100: the
    product has [X] units of [2 ^ -46], where [X] is the exact product in
    these units rounded to the nearest integer. *)
Lemma f64_mul_100 (M : Z) :
  2 ^ 59 <= 100 * M < 100 * 2 ^ 53 ->
  exists X,
    (2 * X - 1) * 64 <= 100 * M <= (2 * X + 1) * 64
    /\ f64_mul (S754_finite false (Z.to_pos M) (-53)) (float64_of_Z 100)
       = S754_finite false (Z.to_pos X) (-46).
Proof.
  intros HM.
  change (2 ^ 59) with 576460752303423488 in HM.
  change (2 ^ 53) with 9007199254740992 in HM.
  change (float64_of_Z 100) with (S754_finite false 7036874417766400 (-46)).
  unfold f64_mul, SFmul. cbn [xorb].
  rewrite Pos2Z.inj_mul, Z2Pos.id by lia.
  change (-53 + -46) with (-99).
  set (P := M * 7036874417766400).
  assert (HP : 2 ^ (52 + 53) <= P < 2 ^ (53 + 53)).
  { change (2 ^ (52 + 53)) with 40564819207303340847894502572032.
    change (2 ^ (53 + 53)) with 81129638414606681695789005144064.
    subst P. lia. }
  rewrite (binary_round_aux_shift P (-99) 53 HP ltac:(lia)).
  pose proof (Z.div_mod P (2 ^ 53) ltac:(discriminate)) as Hdm.
  pose proof (Z.mod_pos_bound P (2 ^ 53) ltac:(reflexivity)) as Hr.
  destruct (round_quotient_error _ _ _ _ Hdm Hr) as [Hlo Hhi].
  set (X := round_nearest_even (P / 2 ^ 53)
              (quotient_location (2 ^ 53) (P mod 2 ^ 53))) in *.
  exists X.
  change (2 ^ 53) with 9007199254740992 in *.
  assert (Hb : (2 * X - 1) * 64 <= 100 * M <= (2 * X + 1) * 64)
    by (subst P; lia).
  split; [exact Hb|].
  destruct (Z.ltb_spec X 9007199254740992); [reflexivity|lia].
Qed.

(** [int(math.Round(x))] for a number [x] between 64 and 128 of [X] units
    of [2 ^ -46]: the integer nearest to [x], the half going up. *)
Lemma round_to_percent (X : Z) :
  2 ^ 52 <= X < 2 ^ 53 - 2 ^ 46 ->
  exists n,
    (2 * n - 1) * 2 ^ 46 <= 2 * X < (2 * n + 1) * 2 ^ 46
    /\ int_of_float64 (math.Round (S754_finite false (Z.to_pos X) (-46))) = n.
Proof.
  intros HX.
  change (2 ^ 52) with 4503599627370496 in HX.
  change (2 ^ 53) with 9007199254740992 in HX.
  change (2 ^ 46) with 70368744177664 in *.
  unfold math.Round. rewrite Z2Pos.id by lia.
  change (2 ^ Zpos 46) with 70368744177664.
  pose proof (Z.div_mod X 70368744177664 ltac:(lia)) as Hdm.
  pose proof (Z.mod_pos_bound X 70368744177664 ltac:(lia)) as Hr.
  set (t := X / 70368744177664) in *. set (r := X mod 70368744177664) in *.
  set (n := if 70368744177664 <=? 2 * r then t + 1 else t).
  assert (Hn : 64 <= n < 128 /\ (2 * n - 1) * 70368744177664 <= 2 * X
               /\ 2 * X < (2 * n + 1) * 70368744177664).
  { subst n. destruct (Z.leb_spec 70368744177664 (2 * r)); lia. }
  exists n. split; [lia|].
  change (binary_normalize prec emax n 0 false) with (float64_of_Z n).
  rewrite (float64_of_Z_exact n 7)
    by (try apply Zdigits2_unique; change (2 ^ (7 - 1)) with 64;
        change (2 ^ 7) with 128; lia).
  change (7 - 53) with (-46). change (2 ^ (53 - 7)) with 70368744177664.
  unfold int_of_float64. rewrite Z2Pos.id by lia.
  change (2 ^ Zpos 46) with 70368744177664.
  rewrite Z.div_mul by lia.
  assert (Hin : (- two63 <=? n) && (n <? two63) = true).
  { apply andb_true_intro.
    split; [apply Z.leb_le|apply Z.ltb_lt]; rewrite two63_eq; lia. }
  now rewrite Hin.
Qed.

(** X16. In [part_000], for a total of at most [2 ^ 50] that is not zero
    and a value used that is not above it, the memory warning is printed
    exactly when the value used is above four fifths of the total, and the
    percentage it shows, computed in [float64] and rounded by
    [math.Round], lies between 80 and 100 and is within one half and
    [2 ^ -46] of the exact percentage: a ratio just above four fifths is
    shown as 80 percent. *)
Theorem Part000_memory_percentage (total used : Z) :
  0 < total <= 2 ^ 50 -> 0 <= used <= total ->
  (5 * used <= 4 * total -> Part000.checkMemory total used = ret tt)
  /\ (4 * total < 5 * used ->
      exists percent,
        Part000.checkMemory total used = print (MemHigh percent)
        /\ 80 <= percent <= 100
        /\ (2 * percent - 1) * total * 2 ^ 46 - 2 * total < 200 * used * 2 ^ 46
        /\ 200 * used * 2 ^ 46 < (2 * percent + 1) * total * 2 ^ 46 + 2 * total).
Proof.
  intros Ht Hu.
  assert (H50 : 2 ^ 50 = 1125899906842624) by reflexivity.
  assert (H53 : 2 ^ 53 = 9007199254740992) by reflexivity.
  rewrite Part000_checkMemory_eq.
  rewrite (proj1 (crossesRatio_exact total used ltac:(lia) Ht)).
  split.
  - intros Hle. destruct (Z.ltb_spec (4 * total) (5 * used)); [lia|reflexivity].
  - intros Hlt. destruct (Z.ltb_spec (4 * total) (5 * used)); [|lia].
    destruct (f64_div_unit used total ltac:(lia) ltac:(lia) ltac:(lia) ltac:(lia))
      as (M & HM & [H1lo H1hi] & ->).
    change (2 ^ 52) with 4503599627370496 in *.
    change (2 ^ 53) with 9007199254740992 in *.
    change (2 ^ 54) with 18014398509481984 in *.
    change (2 ^ 46) with 70368744177664.
    destruct (Z.ltb_spec M 9007199254740992) as [HMlt|HMge].
    + assert (HM100 : 2 ^ 59 <= 100 * M < 100 * 2 ^ 53).
      { change (2 ^ 59) with 576460752303423488.
        change (2 ^ 53) with 9007199254740992. nia. }
      destruct (f64_mul_100 M HM100) as (X & [H2lo H2hi] & ->).
      assert (HM80 : 720575940379279360 - 50 <= 100 * M) by nia.
      assert (HX : 2 ^ 52 <= X < 2 ^ 53 - 2 ^ 46).
      { change (2 ^ 52) with 4503599627370496.
        change (2 ^ 53) with 9007199254740992.
        change (2 ^ 46) with 70368744177664. lia. }
      destruct (round_to_percent X HX) as (n & [H3lo H3hi] & ->).
      change (2 ^ 46) with 70368744177664 in *.
      exists n. split; [reflexivity|]. split; [lia|].
      assert (HnM : (2 * n - 1) * 4503599627370496 <= 100 * M + 64) by lia.
      assert (HMn : 100 * M < (2 * n + 1) * 4503599627370496 + 64) by lia.
      split; nia.
    + assert (M = 9007199254740992) by lia. subst M.
      exists 100. split; [reflexivity|]. split; [lia|]. split; nia.
Qed.

Lemma Part000_memory_percentage_witness :
  Part000.checkMemory 1000 800 = ret tt
  /\ exists percent,
       Part000.checkMemory 1000 801 = print (MemHigh percent)
       /\ 80 <= percent <= 100
       /\ (2 * percent - 1) * 1000 * 2 ^ 46 - 2 * 1000 < 200 * 801 * 2 ^ 46
       /\ 200 * 801 * 2 ^ 46 < (2 * percent + 1) * 1000 * 2 ^ 46 + 2 * 1000.
Proof.
  split.
  - apply (proj1 (Part000_memory_percentage 1000 800
                    ltac:(split; [reflexivity|discriminate])
                    ltac:(split; discriminate))).
    discriminate.
  - apply (proj2 (Part000_memory_percentage 1000 801
                    ltac:(split; [reflexivity|discriminate])
                    ltac:(split; discriminate))).
    reflexivity.
Defined.
